(** * Appointment scheduler: slot generation and booking consistency

    A shallow embedding of the slot and booking logic of the scheduler
    (utils/timeSlots, utils/dateHelpers, services/api, stores/appointments
    and the TimeSlotGrid component), with the properties of its
    specification stated over it.

    Conventions.
    - A JavaScript string is a [string]; each character stands for one code
      unit below 256.
    - The numbers the time code computes with are non-negative integers
      (parsed from digit strings, or obtained by [Math.floor] and [%] on
      such), modelled as [nat]; time values of [Date] objects are [Z].
    - A function that may [throw] returns an [outcome]. *)

From Stdlib Require Import ZArith Lia String Ascii List Sorted Permutation.
From Stdlib Require Import DecimalString.
From Stdlib Require DecimalNat DecimalFacts.
From Equations Require Import Equations.
From stdpp Require Import base option list strings gmap.

Local Open Scope string_scope.
Local Open Scope list_scope.
Local Open Scope nat_scope.

(** String concatenation ([+] and template literals). *)
Infix "+++" := String.append (at level 60, right associativity).
#[local] Arguments String.append !s1 s2 : simpl nomatch.

(** ** Results of functions that may throw *)

Inductive outcome (A : Type) : Type :=
| Returns (a : A)
| Throws (message : string).
Arguments Returns {A} a.
Arguments Throws {A} message.

Definition obind {A B} (o : outcome A) (k : A -> outcome B) : outcome B :=
  match o with
  | Returns a => k a
  | Throws m => Throws m
  end.

Notation "'let*' x ':=' o 'in' k" := (obind o (fun x => k))
  (at level 10, x name, o at level 100, k at level 200).

(** ** JavaScript string and number primitives used by the code *)

Module JS.

(** [WhiteSpace] and [LineTerminator] code units below 256: TAB, LF, VT,
    FF, CR, SPACE and NBSP.  This is the class of [\s] and of [trim]. *)
Definition isWhiteSpace (c : ascii) : bool :=
  let n := nat_of_ascii c in
  ((9 <=? n) && (n <=? 13)) || (n =? 32) || (n =? 160).

(** [\d] *)
Definition isDigit (c : ascii) : bool :=
  let n := nat_of_ascii c in (48 <=? n) && (n <=? 57).

Definition digitValue (c : ascii) : nat := nat_of_ascii c - 48.

(** [s.replace(/\s+/g, '')] *)
Fixpoint removeWhiteSpace (s : string) : string :=
  match s with
  | EmptyString => EmptyString
  | String c s' =>
      if isWhiteSpace c then removeWhiteSpace s'
      else String c (removeWhiteSpace s')
  end.

Fixpoint trimStart (s : string) : string :=
  match s with
  | EmptyString => EmptyString
  | String c s' => if isWhiteSpace c then trimStart s' else s
  end.

(** Drops the trailing white space: a character is kept when it is not
    white space or when something is kept after it. *)
Fixpoint trimEnd (s : string) : string :=
  match s with
  | EmptyString => EmptyString
  | String c s' =>
      match trimEnd s' with
      | EmptyString => if isWhiteSpace c then EmptyString else String c EmptyString
      | r => String c r
      end
  end.

(** [s.trim()] *)
Definition trim (s : string) : string := trimEnd (trimStart s).

(** [parseInt(s, 10)] on a string of decimal digits. *)
Definition parseIntDigits (s : string) : nat :=
  fold_left (fun acc c => 10 * acc + digitValue c) (list_ascii_of_string s) 0.

(** [toUpperCase] on one code unit; only the letters a-z are changed
    (the code applies it to a matched [AM]/[PM] marker). *)
Definition toUpperChar (c : ascii) : ascii :=
  let n := nat_of_ascii c in
  if (97 <=? n) && (n <=? 122) then ascii_of_nat (n - 32) else c.

Fixpoint toUpperCase (s : string) : string :=
  match s with
  | EmptyString => EmptyString
  | String c s' => String (toUpperChar c) (toUpperCase s')
  end.

(** [n.toString()] for a non-negative integer. *)
Definition toString (n : nat) : string :=
  NilZero.string_of_uint (Nat.to_uint n).

Fixpoint repeatChar (n : nat) (c : ascii) : string :=
  match n with
  | O => EmptyString
  | S n' => String c (repeatChar n' c)
  end.

(** [s.padStart(n, c)] with a one-character filler. *)
Definition padStart (n : nat) (c : ascii) (s : string) : string :=
  repeatChar (n - String.length s) c +++ s.

End JS.

(** ** Data model (types/index.ts)

    The fields of [Appointment] that share a name with a field of
    [TimeSlot] or [DoctorSchedule] carry the prefix [appt_]; the two fields
    of [DoctorScheduleRaw] that share a name with [Doctor] carry [raw_]. *)

Module Types.

Record DoctorScheduleRaw := {
  raw_name : string;
  raw_timezone : string;
  day_of_week : string;
  available_at : string;
  available_until : string
}.

Record DoctorSchedule := {
  dayOfWeek : string;
  availableAt : string;
  availableUntil : string
}.

Record Doctor := {
  name : string;
  timezone : string;
  schedules : list DoctorSchedule
}.

Record TimeSlot := {
  startTime : string;
  endTime : string;
  isAvailable : bool;
  isBooked : bool;
  date : option string
}.

Record Appointment := {
  id : string;
  doctorName : string;
  doctorTimezone : string;
  appt_date : string;
  appt_dayOfWeek : string;
  appt_startTime : string;
  appt_endTime : string;
  bookedAt : string
}.

End Types.

Import Types.

(** ** utils/timeSlots *)

Module TimeSlots.

Record Time := { hours : nat; minutes : nat }.

(** The alternatives [AM|PM] under the [i] flag. *)
Definition isMeridiem (p1 p2 : ascii) : bool :=
  let a := nat_of_ascii p1 in
  let m := nat_of_ascii p2 in
  ((a =? 65) || (a =? 97) || (a =? 80) || (a =? 112)) && ((m =? 77) || (m =? 109)).

(** The tail [:(\d{2})(AM|PM)$] of the pattern; returns groups 2 and 3. *)
Definition matchTail (s : string) : option (string * string) :=
  match s with
  | String ":" (String m1 (String m2 (String p1 (String p2 EmptyString)))) =>
      if JS.isDigit m1 && JS.isDigit m2 && isMeridiem p1 p2
      then Some (String m1 (String m2 EmptyString), String p1 (String p2 EmptyString))
      else None
  | _ => None
  end.

(** [cleaned.match(/^(\d{1,2}):(\d{2})(AM|PM)$/i)]: the three groups.
    [\d{1,2}] is greedy: two digits are tried first, then one. *)
Definition matchTime (s : string) : option (string * string * string) :=
  match s with
  | String h1 s1 =>
      if JS.isDigit h1 then
        let two :=
          match s1 with
          | String h2 s2 =>
              if JS.isDigit h2 then
                match matchTail s2 with
                | Some (mm, p) => Some (String h1 (String h2 EmptyString), mm, p)
                | None => None
                end
              else None
          | EmptyString => None
          end in
        match two with
        | Some r => Some r
        | None =>
            match matchTail s1 with
            | Some (mm, p) => Some (String h1 EmptyString, mm, p)
            | None => None
            end
        end
      else None
  | EmptyString => None
  end.

(** The groups of a match are never empty, so the three [!match[i]] tests
    add nothing to [!match]. *)
Definition parseTime (timeString : string) : outcome Time :=
  let cleaned := JS.removeWhiteSpace (JS.trim timeString) in
  match matchTime cleaned with
  | None => Throws ("Invalid time format: " +++ timeString)
  | Some (g1, g2, g3) =>
      let hours0 := JS.parseIntDigits g1 in
      let minutes := JS.parseIntDigits g2 in
      let period := JS.toUpperCase g3 in
      let hours :=
        if String.eqb period "PM" && negb (hours0 =? 12) then hours0 + 12
        else if String.eqb period "AM" && (hours0 =? 12) then 0
        else hours0 in
      Returns {| hours := hours; minutes := minutes |}
  end.

Definition formatTime (hours minutes : nat) : string :=
  let period := if 12 <=? hours then "PM" else "AM" in
  let displayHours :=
    if hours =? 0 then 12 else if 12 <? hours then hours - 12 else hours in
  let displayMinutes := JS.padStart 2 "0" (JS.toString minutes) in
  JS.toString displayHours +++ ":" +++ displayMinutes +++ " " +++ period.

Definition totalMinutes (t : Time) : nat := hours t * 60 + minutes t.

Definition mkSlot (slotStart slotEnd : string) : TimeSlot :=
  {| startTime := slotStart; endTime := slotEnd;
     isAvailable := true; isBooked := false; date := None |}.

(** The [while] loop of [generateTimeSlots]: its state is the three
    mutable variables and the array built so far.  Each turn adds 30 to
    [currentTotalMinutes], so the distance to [endTotalMinutes]
    decreases. *)
Equations? slotLoop (endTotalMinutes currentHours currentMinutes
                     currentTotalMinutes : nat) (slots : list TimeSlot)
  : list TimeSlot by wf (endTotalMinutes - currentTotalMinutes) lt :=
  slotLoop endTotalMinutes currentHours currentMinutes currentTotalMinutes slots
    with lt_dec currentTotalMinutes endTotalMinutes := {
    | left _ =>
        let slotStart := formatTime currentHours currentMinutes in
        let total' := currentTotalMinutes + 30 in
        let hours' := total' / 60 in
        let minutes' := total' mod 60 in
        let slotEnd := formatTime hours' minutes' in
        slotLoop endTotalMinutes hours' minutes' total'
          (slots ++ [mkSlot slotStart slotEnd])
    | right _ => slots }.
Proof. lia. Qed.

Definition generateTimeSlots (startTime endTime : string) : outcome (list TimeSlot) :=
  let* start := parseTime startTime in
  let* end_ := parseTime endTime in
  let startTotalMinutes := totalMinutes start in
  let endTotalMinutes := totalMinutes end_ in
  Returns (slotLoop endTotalMinutes (hours start) (minutes start)
             startTotalMinutes []).

(** [===] on strings *)
Definition strictEq (a b : string) : bool := String.eqb a b.

Definition isSlotBooked (slot : TimeSlot) (date doctorName : string)
    (appointments : list Appointment) : bool :=
  existsb (fun appt =>
             strictEq (Types.doctorName appt) doctorName
             && strictEq (appt_date appt) date
             && strictEq (appt_startTime appt) (Types.startTime slot)
             && strictEq (appt_endTime appt) (Types.endTime slot))
          appointments.

(** The callback of the [map]: the object literal
    [{...slot, isBooked: ..., isAvailable: ...}]. *)
Definition markSlot (date doctorName : string) (appointments : list Appointment)
    (slot : TimeSlot) : TimeSlot :=
  {| startTime := Types.startTime slot;
     endTime := Types.endTime slot;
     isAvailable := negb (isSlotBooked slot date doctorName appointments);
     isBooked := isSlotBooked slot date doctorName appointments;
     date := Types.date slot |}.

(** [markBookedSlots] on the values of the slots. *)
Definition markBookedSlots (slots : list TimeSlot) (date doctorName : string)
    (appointments : list Appointment) : list TimeSlot :=
  map (markSlot date doctorName appointments) slots.

End TimeSlots.

Import TimeSlots.

(** ** Slots as objects

    To say that [markBookedSlots] leaves its argument alone, the slots
    are placed in a heap: an array is an object that holds the references
    of its elements, and a slot is an object that holds its fields. *)

Module Heap.

Inductive object :=
| SlotObject (slot : TimeSlot)
| ArrayObject (elements : list nat).

(** A new object gets a reference that is not in use. *)
Definition alloc (o : object) (h : gmap nat object) : nat * gmap nat object :=
  let r := fresh (dom h) in (r, <[r := o]> h).

Definition readSlot (h : gmap nat object) (r : nat) : option TimeSlot :=
  match h !! r with
  | Some (SlotObject slot) => Some slot
  | _ => None
  end.

Definition readElements (h : gmap nat object) (r : nat) : option (list nat) :=
  match h !! r with
  | Some (ArrayObject elements) => Some elements
  | _ => None
  end.

Fixpoint readAll (h : gmap nat object) (elements : list nat) : option (list TimeSlot) :=
  match elements with
  | [] => Some []
  | e :: rest =>
      match readSlot h e, readAll h rest with
      | Some slot, Some slots => Some (slot :: slots)
      | _, _ => None
      end
  end.

(** The sequence of slot values held by the array at [r]. *)
Definition readSlots (h : gmap nat object) (r : nat) : option (list TimeSlot) :=
  match readElements h r with
  | Some elements => readAll h elements
  | None => None
  end.

(** The loop of [slots.map(callback)]: each element is read, the callback
    builds a new object from it, and the references of the new objects are
    collected.  [None] stands for a reference that holds no slot. *)
Fixpoint mapElements (callback : TimeSlot -> TimeSlot) (elements : list nat)
    (h : gmap nat object) : option (list nat * gmap nat object) :=
  match elements with
  | [] => Some ([], h)
  | e :: rest =>
      match readSlot h e with
      | Some slot =>
          let (r, h1) := alloc (SlotObject (callback slot)) h in
          match mapElements callback rest h1 with
          | Some (results, h2) => Some (r :: results, h2)
          | None => None
          end
      | None => None
      end
  end.

(** [markBookedSlots] on a reference to the array of slots: returns the
    reference of the new array and the heap after the call. *)
Definition markBookedSlots (slots : nat) (date doctorName : string)
    (appointments : list Appointment) (h : gmap nat object)
  : option (nat * gmap nat object) :=
  match readElements h slots with
  | Some elements =>
      match mapElements (markSlot date doctorName appointments) elements h with
      | Some (results, h') => Some (alloc (ArrayObject results) h')
      | None => None
      end
  | None => None
  end.

End Heap.

(** ** The built-in [Date], as far as the code uses it

    A valid [Date] is its time value, the milliseconds since the epoch in
    UTC.  The local time zone is a fixed offset [tz], in minutes east of
    UTC. *)

Module JSDate.

Local Open Scope Z_scope.

Definition msPerDay : Z := 86400000.

(** Day number (days since 1970-01-01) of a proleptic Gregorian date;
    [m] is the month 1..12. *)
Definition daysFromCivil (y m d : Z) : Z :=
  let y' := if m <=? 2 then y - 1 else y in
  let era := y' / 400 in
  let yoe := y' - era * 400 in
  let mp := if 2 <? m then m - 3 else m + 9 in
  let doy := (153 * mp + 2) / 5 + d - 1 in
  let doe := yoe * 365 + yoe / 4 - yoe / 100 + doy in
  era * 146097 + doe - 719468.

(** The Gregorian date (year, month 1..12, day) of a day number. *)
Definition civilFromDays (z : Z) : Z * Z * Z :=
  let z' := z + 719468 in
  let era := z' / 146097 in
  let doe := z' - era * 146097 in
  let yoe := (doe - doe / 1460 + doe / 36524 - doe / 146096) / 365 in
  let doy := doe - (365 * yoe + yoe / 4 - yoe / 100) in
  let mp := (5 * doy + 2) / 153 in
  let d := doy - (153 * mp + 2) / 5 + 1 in
  let m := if mp <? 10 then mp + 3 else mp - 9 in
  let y := yoe + era * 400 in
  (if m <=? 2 then y + 1 else y, m, d).

Definition localDay (tz t : Z) : Z := (t + tz * 60000) / msPerDay.

(** [date.getDay()]: 0 is Sunday; day 0 of the epoch was a Thursday. *)
Definition getDay (tz t : Z) : nat := Z.to_nat ((localDay tz t + 4) mod 7).

Definition getFullYear (tz t : Z) : Z := fst (fst (civilFromDays (localDay tz t))).

(** [date.getMonth()]: 0 is January. *)
Definition getMonth (tz t : Z) : Z := snd (fst (civilFromDays (localDay tz t))) - 1.

Definition getDate (tz t : Z) : Z := snd (civilFromDays (localDay tz t)).

(** [d.setDate(d.getDate() + i)]: the same local time of day, [i] days
    later. *)
Definition addDays (t : Z) (i : Z) : Z := t + i * msPerDay.

Definition isLeapYear (y : Z) : bool :=
  ((y mod 4 =? 0) && negb (y mod 100 =? 0)) || (y mod 400 =? 0).

Definition daysInMonth (y m : Z) : Z :=
  if m =? 2 then (if isLeapYear y then 29 else 28)
  else if (m =? 4) || (m =? 6) || (m =? 9) || (m =? 11) then 30 else 31.

Definition digitsZ (s : list ascii) : Z := Z.of_nat (JS.parseIntDigits (string_of_list_ascii s)).

(** The fields of a string of the date-only form [YYYY-MM-DD] of the
    date-time string format. *)
Definition dateOnlyFields (s : string) : option (Z * Z * Z) :=
  match list_ascii_of_string s with
  | [y1; y2; y3; y4; sep1; m1; m2; sep2; d1; d2] =>
      if Ascii.eqb sep1 "-" && Ascii.eqb sep2 "-"
         && forallb JS.isDigit [y1; y2; y3; y4; m1; m2; d1; d2]
      then Some (digitsZ [y1; y2; y3; y4], digitsZ [m1; m2], digitsZ [d1; d2])
      else None
  | _ => None
  end.

Definition isCalendarDate (y m d : Z) : bool :=
  (1 <=? m) && (m <=? 12) && (1 <=? d) && (d <=? daysInMonth y m).

(** [new Date(s).getTime()] for a date-only string, which denotes midnight
    UTC of that day.  [None] is an invalid date.  Strings of another shape
    are outside this function (the store takes the parser as a
    parameter). *)
Definition parseDateOnly (s : string) : option Z :=
  match dateOnlyFields s with
  | Some (y, m, d) =>
      if isCalendarDate y m d then Some (daysFromCivil y m d * msPerDay) else None
  | None => None
  end.

(** Local midnight, as a time value, of the local calendar day that
    contains [t]. *)
Definition localMidnight (tz t : Z) : Z := localDay tz t * msPerDay - tz * 60000.

End JSDate.

(** ** utils/dateHelpers *)

Module DateHelpers.

Definition days : list string :=
  ["Sunday"; "Monday"; "Tuesday"; "Wednesday"; "Thursday"; "Friday"; "Saturday"].

(** [days[dayIndex]]; the index is below 7. *)
Definition getDayOfWeek (tz : Z) (date : Z) : string :=
  let dayIndex := JSDate.getDay tz date in
  nth dayIndex days EmptyString.

(** [String(n)] of an integer. *)
Definition stringOfZ (z : Z) : string :=
  if (z <? 0)%Z then "-" +++ JS.toString (Z.to_nat (- z)) else JS.toString (Z.to_nat z).

Definition formatDate (tz : Z) (date : Z) : string :=
  let year := JSDate.getFullYear tz date in
  let month := JS.padStart 2 "0" (stringOfZ (JSDate.getMonth tz date + 1)) in
  let day := JS.padStart 2 "0" (stringOfZ (JSDate.getDate tz date)) in
  stringOfZ year +++ "-" +++ month +++ "-" +++ day.

(** [getNextWeekDates()], with the value of [new Date()] as [today]. *)
Definition getNextWeekDates (today : Z) : list Z :=
  map (fun i => JSDate.addDays today (Z.of_nat i)) (seq 0 7).

End DateHelpers.

(** ** services/api *)

Module JSMap.

(** A [Map] with string keys: its entries in insertion order. *)
Definition t (V : Type) : Type := list (string * V).

Definition empty {V} : t V := [].

Fixpoint get {V} (m : t V) (k : string) : option V :=
  match m with
  | [] => None
  | (k', v) :: m' => if String.eqb k' k then Some v else get m' k
  end.

Definition has {V} (m : t V) (k : string) : bool :=
  match get m k with Some _ => true | None => false end.

(** [m.set(k, v)]: an existing key keeps its place, a new key goes last. *)
Fixpoint set {V} (m : t V) (k : string) (v : V) : t V :=
  match m with
  | [] => [(k, v)]
  | (k', v') :: m' =>
      if String.eqb k' k then (k', v) :: m' else (k', v') :: set m' k v
  end.

(** [Array.from(m.values())] *)
Definition values {V} (m : t V) : list V := map snd m.

End JSMap.

Module Api.

(** [doctor.schedules.push(w)] *)
Definition pushSchedule (doctor : Doctor) (w : DoctorSchedule) : Doctor :=
  {| name := name doctor; timezone := timezone doctor;
     schedules := schedules doctor ++ [w] |}.

(** The object literal pushed for a raw record. *)
Definition windowOf (schedule : DoctorScheduleRaw) : DoctorSchedule :=
  {| dayOfWeek := day_of_week schedule;
     availableAt := JS.trim (available_at schedule);
     availableUntil := JS.trim (available_until schedule) |}.

(** The body of the [forEach] callback.  [doctor] is the object held by
    the map, so the [push] changes the map's entry.  The [!] on the
    lookup is unchecked; a missing entry would raise a [TypeError]. *)
Definition groupStep (doctorMap : JSMap.t Doctor) (schedule : DoctorScheduleRaw)
  : outcome (JSMap.t Doctor) :=
  let doctorMap1 :=
    if negb (JSMap.has doctorMap (raw_name schedule)) then
      JSMap.set doctorMap (raw_name schedule)
        {| name := raw_name schedule; timezone := raw_timezone schedule;
           schedules := [] |}
    else doctorMap in
  match JSMap.get doctorMap1 (raw_name schedule) with
  | Some doctor =>
      Returns (JSMap.set doctorMap1 (raw_name schedule)
                 (pushSchedule doctor (windowOf schedule)))
  | None => Throws "TypeError: Cannot read properties of undefined"
  end.

Fixpoint forEachStep (doctorMap : JSMap.t Doctor) (schedules : list DoctorScheduleRaw)
  : outcome (JSMap.t Doctor) :=
  match schedules with
  | [] => Returns doctorMap
  | schedule :: rest =>
      let* doctorMap' := groupStep doctorMap schedule in
      forEachStep doctorMap' rest
  end.

Definition groupSchedulesByDoctor (schedules : list DoctorScheduleRaw)
  : outcome (list Doctor) :=
  let* doctorMap := forEachStep JSMap.empty schedules in
  Returns (JSMap.values doctorMap).

End Api.

(** ** stores/appointments *)

Module Store.

(** An action of the store runs on the [appointments] array and either
    returns or throws; in both cases it leaves an array behind.  The call
    of [saveAppointments] that ends a successful action writes a copy of
    the array to local storage and catches its own errors; it does not
    touch the array and is left out. *)
Definition action (A : Type) : Type := list Appointment -> outcome A * list Appointment.

(** [arr.findIndex(p)]; [None] stands for -1. *)
Fixpoint findIndex {A} (p : A -> bool) (l : list A) : option nat :=
  match l with
  | [] => None
  | x :: l' => if p x then Some 0 else option_map S (findIndex p l')
  end.

(** [arr.splice(index, 1)] for an index inside the array. *)
Definition splice1 {A} (index : nat) (l : list A) : list A :=
  firstn index l ++ skipn (S index) l.

Definition bookAppointment (appointment : Appointment) : action unit :=
  fun appointments =>
    let isAlreadyBooked :=
      existsb (fun appt =>
                 strictEq (doctorName appt) (doctorName appointment)
                 && strictEq (appt_date appt) (appt_date appointment)
                 && strictEq (appt_startTime appt) (appt_startTime appointment))
              appointments in
    if isAlreadyBooked then (Throws "This time slot is already booked", appointments)
    else (Returns tt, appointments ++ [appointment]).

Definition cancelAppointment (appointmentId : string) : action unit :=
  fun appointments =>
    match findIndex (fun appt => strictEq (id appt) appointmentId) appointments with
    | None => (Throws "Appointment not found", appointments)
    | Some index => (Returns tt, splice1 index appointments)
    end.

Definition getAppointmentsByDoctor (appointments : list Appointment) (doctorName : string)
  : list Appointment :=
  List.filter (fun appt => strictEq (Types.doctorName appt) doctorName) appointments.

(** [arr.sort(compare)], whose comparator returns a number or NaN
    ([None]); NaN counts as 0.  The built-in sort is stable, and for a
    consistent comparator its result is the one sorted arrangement that
    keeps equal elements in their order; insertion from the right
    computes it. *)
Definition comparesAfter {A} (compare : A -> A -> option Z) (x y : A) : bool :=
  match compare x y with
  | Some v => (0 <? v)%Z
  | None => false
  end.

Fixpoint insertSorted {A} (compare : A -> A -> option Z) (x : A) (l : list A) : list A :=
  match l with
  | [] => [x]
  | y :: l' =>
      if comparesAfter compare x y then y :: insertSorted compare x l'
      else x :: y :: l'
  end.

Definition sort {A} (compare : A -> A -> option Z) (l : list A) : list A :=
  fold_right (insertSorted compare) [] l.

Section Views.

(** [new Date(s).getTime()]: the time value, or [None] for an invalid
    date. *)
Variable parseDate : string -> option Z.

(** [a - b] on time values; NaN when one of them is NaN. *)
Definition timeDiff (a b : option Z) : option Z :=
  match a, b with
  | Some x, Some y => Some (x - y)%Z
  | _, _ => None
  end.

(** [apptDate >= now] and [apptDate < now]; both are false on an invalid
    date. *)
Definition dateGe (apptDate : option Z) (now : Z) : bool :=
  match apptDate with Some t => (now <=? t)%Z | None => false end.

Definition dateLt (apptDate : option Z) (now : Z) : bool :=
  match apptDate with Some t => (t <? now)%Z | None => false end.

Definition upcomingAppointments (now : Z) (appointments : list Appointment)
  : list Appointment :=
  sort (fun a b => timeDiff (parseDate (appt_date a)) (parseDate (appt_date b)))
       (List.filter (fun appt => dateGe (parseDate (appt_date appt)) now) appointments).

Definition pastAppointments (now : Z) (appointments : list Appointment)
  : list Appointment :=
  sort (fun a b => timeDiff (parseDate (appt_date b)) (parseDate (appt_date a)))
       (List.filter (fun appt => dateLt (parseDate (appt_date appt)) now) appointments).

End Views.

(** The calls made on a store. *)
Inductive Op :=
| Book (appointment : Appointment)
| Cancel (appointmentId : string).

Definition perform (op : Op) : action unit :=
  match op with
  | Book appointment => bookAppointment appointment
  | Cancel appointmentId => cancelAppointment appointmentId
  end.

(** The array after a sequence of calls, whether they return or throw
    (a caller that catches the error goes on with the same store). *)
Definition runOps (ops : list Op) (appointments : list Appointment) : list Appointment :=
  fold_left (fun appts op => snd (perform op appts)) ops appointments.

End Store.

(** ** components/TimeSlotGrid *)

Module TimeSlotGrid.

Record DayEntry := {
  entry_date : Z;
  dateString : string;
  dayName : string;
  displayDate : string;
  schedule : option DoctorSchedule;
  slots : list TimeSlot
}.

Section Grid.

(** The local time zone and [formatDisplayDate] (a call of
    [toLocaleDateString]). *)
Variable tz : Z.
Variable formatDisplayDate : Z -> string.

(** The body of the [forEach] callback of [slotsPerDay], for one date. *)
Definition dayEntry (doctor : Doctor) (appointments : list Appointment) (date : Z)
  : outcome DayEntry :=
  let dayName := DateHelpers.getDayOfWeek tz date in
  let dateString := DateHelpers.formatDate tz date in
  let schedule := List.find (fun s => strictEq (dayOfWeek s) dayName) (schedules doctor) in
  match schedule with
  | Some schedule =>
      let* slots := generateTimeSlots (availableAt schedule) (availableUntil schedule) in
      let markedSlots := markBookedSlots slots dateString (name doctor) appointments in
      Returns {| entry_date := date; dateString := dateString; dayName := dayName;
                 displayDate := formatDisplayDate date;
                 schedule := Some schedule; slots := markedSlots |}
  | None =>
      Returns {| entry_date := date; dateString := dateString; dayName := dayName;
                 displayDate := formatDisplayDate date;
                 schedule := None; slots := [] |}
  end.

Fixpoint forEachDate (doctor : Doctor) (appointments : list Appointment)
    (dates : list Z) (result : list DayEntry) : outcome (list DayEntry) :=
  match dates with
  | [] => Returns result
  | date :: rest =>
      let* entry := dayEntry doctor appointments date in
      forEachDate doctor appointments rest (result ++ [entry])
  end.

(** [slotsPerDay], with the value of [new Date()] as [today]. *)
Definition slotsPerDay (doctor : Doctor) (appointments : list Appointment) (today : Z)
  : outcome (list DayEntry) :=
  forEachDate doctor appointments (DateHelpers.getNextWeekDates today) [].

End Grid.

End TimeSlotGrid.

(** ** More of utils/dateHelpers *)

Module DateChecks.

(** [d.setHours(0, 0, 0, 0)]: local midnight of the local day of [d]; an
    invalid date stays invalid. *)
Definition setHoursZero (tz : Z) (d : option Z) : option Z :=
  option_map (JSDate.localMidnight tz) d.

(** [a < b] on dates; false when one of them is invalid. *)
Definition dateBefore (a b : option Z) : bool :=
  match a, b with
  | Some x, Some y => (x <? y)%Z
  | _, _ => false
  end.

(** [isPastDate(date)], with the value of [new Date()] as [now] and
    [new Date(s)] as [parseDate s].  The second component is the value of
    [dateObj] after the call: when a [Date] is passed, it is the argument
    itself that [setHours] changes. *)
Definition isPastDate (tz : Z) (parseDate : string -> option Z) (now : Z)
    (date : string + option Z) : bool * option Z :=
  let dateObj := match date with inl s => parseDate s | inr d => d end in
  let today := setHoursZero tz (Some now) in
  let dateObj' := setHoursZero tz dateObj in
  (dateBefore dateObj' today, dateObj').

(** [getWeekDatesMap()], with the value of [new Date()] as [today]. *)
Definition getWeekDatesMap (tz : Z) (today : Z) : JSMap.t Z :=
  fold_left
    (fun map date =>
       let dayName := DateHelpers.getDayOfWeek tz date in
       if negb (JSMap.has map dayName) then JSMap.set map dayName date else map)
    (DateHelpers.getNextWeekDates today) JSMap.empty.

End DateChecks.

(** ** The fetch of the catalog (services/api and the store) *)

Module Fetch.

(** A value that is thrown, or with which a promise is rejected: an
    [Error] (or a subclass) with its message, or something else. *)
Inductive thrown :=
| ErrorObject (message : string)
| OtherValue.

(** A settled promise: rejected ([inl]) or fulfilled ([inr]). *)
Definition settled (A : Type) : Type := (thrown + A)%type.

(** What [fetch] resolves to, as far as the code reads it; [json] is
    what [response.json()] settles to: a rejection, or a body of the
    declared type [DoctorScheduleResponse], an array of records. *)
Record Response := {
  ok : bool;
  status : nat;
  statusText : string;
  json : settled (list DoctorScheduleRaw)
}.

(** The [try] block of [fetchDoctorSchedules]. *)
Definition tryFetch (fetched : settled Response) : settled (list DoctorScheduleRaw) :=
  match fetched with
  | inl e => inl e
  | inr response =>
      if negb (ok response) then
        inl (ErrorObject ("Failed to fetch doctors: " +++ JS.toString (status response)
                          +++ " " +++ statusText response))
      else json response
  end.

(** [fetchDoctorSchedules()], given what [fetch(API_URL)] settles to. *)
Definition fetchDoctorSchedules (fetched : settled Response)
  : settled (list DoctorScheduleRaw) :=
  match tryFetch fetched with
  | inr data => inr data
  | inl (ErrorObject message) => inl (ErrorObject ("Error fetching doctors: " +++ message))
  | inl OtherValue => inl (ErrorObject "Unknown error occurred while fetching doctors")
  end.

(** [fetchDoctors()] of services/api. *)
Definition fetchDoctors (fetched : settled Response) : settled (list Doctor) :=
  match fetchDoctorSchedules fetched with
  | inl e => inl e
  | inr rawSchedules =>
      match Api.groupSchedulesByDoctor rawSchedules with
      | Returns doctors => inr doctors
      | Throws message => inl (ErrorObject message)
      end
  end.

(** The part of the store that the [fetchDoctors] action works on. *)
Record State := {
  doctors : list Doctor;
  loading : bool;
  error : option string
}.

(** The action up to its [await]. *)
Definition fetchDoctorsBegin (st : State) : State :=
  {| doctors := doctors st; loading := true; error := None |}.

(** The action from its [await] on: [try], [catch] and [finally]. *)
Definition fetchDoctorsSettle (st : State) (fetched : settled Response) : State :=
  let st1 :=
    match fetchDoctors fetched with
    | inr ds => {| doctors := ds; loading := loading st; error := error st |}
    | inl (ErrorObject message) =>
        {| doctors := doctors st; loading := loading st; error := Some message |}
    | inl OtherValue =>
        {| doctors := doctors st; loading := loading st;
           error := Some "Failed to fetch doctors" |}
    end in
  {| doctors := doctors st1; loading := false; error := error st1 |}.

(** The [fetchDoctors] action of the store, run to its end. *)
Definition storeFetchDoctors (st : State) (fetched : settled Response) : State :=
  fetchDoctorsSettle (fetchDoctorsBegin st) fetched.

End Fetch.

(** ** Getters of the store and of the doctor card *)

Module JSSet.

(** A [Set] of strings: its elements in insertion order. *)
Definition add (s : list string) (x : string) : list string :=
  if existsb (String.eqb x) s then s else s ++ [x].

(** [new Set(l)] *)
Definition fromList (l : list string) : list string := fold_left add l [].

End JSSet.

Module Getters.

(** [getDoctorByName] of the store. *)
Definition getDoctorByName (doctors : list Doctor) (name : string) : option Doctor :=
  List.find (fun doctor => strictEq (Types.name doctor) name) doctors.

(** [appointmentCount] of the store. *)
Definition appointmentCount (appointments : list Appointment) : nat :=
  length appointments.

(** [new Set(doctor.schedules.map(s => s.dayOfWeek))] of the doctor card
    and of the schedule view. *)
Definition uniqueDays (doctor : Doctor) : list string :=
  JSSet.fromList (map dayOfWeek (schedules doctor)).

Definition uniqueDayCount (doctor : Doctor) : nat := length (uniqueDays doctor).

(** [arr.join(sep)] *)
Fixpoint join (sep : string) (l : list string) : string :=
  match l with
  | [] => EmptyString
  | [x] => x
  | x :: rest => x +++ sep +++ join sep rest
  end.

(** [availableDays] of the doctor card. *)
Definition availableDays (doctor : Doctor) : string := join ", " (uniqueDays doctor).

End Getters.

(** ** The booking flow: grid, schedule view and appointment list *)

Module Booking.

(** The payload of the [book] event: a slot with its date and weekday. *)
Record SlotSelection := {
  sel_startTime : string;
  sel_endTime : string;
  sel_isAvailable : bool;
  sel_isBooked : bool;
  sel_date : string;
  sel_dayOfWeek : string
}.

(** [handleSlotClick] of the grid; [None] when nothing is emitted. *)
Definition handleSlotClick (dayInfo : TimeSlotGrid.DayEntry) (slot : TimeSlot)
  : option SlotSelection :=
  if negb (isAvailable slot) || isBooked slot then None
  else Some {| sel_startTime := startTime slot; sel_endTime := endTime slot;
               sel_isAvailable := isAvailable slot; sel_isBooked := isBooked slot;
               sel_date := TimeSlotGrid.dateString dayInfo;
               sel_dayOfWeek := TimeSlotGrid.dayName dayInfo |}.

(** The refs of the schedule view. *)
Record ViewState := {
  showDialog : bool;
  selectedSlot : option SlotSelection;
  bookingError : option string;
  bookingSuccess : bool;
  bookingRef : option string
}.

Definition handleSlotSelection (slot : SlotSelection) (st : ViewState) : ViewState :=
  {| showDialog := true; selectedSlot := Some slot; bookingError := None;
     bookingSuccess := false; bookingRef := bookingRef st |}.

(** The loop of [toRefCode]: [hash = (hash * 31 + code) >>> 0]. *)
Definition hashStep (hash : N) (c : ascii) : N :=
  ((hash * 31 + N_of_ascii c) mod 4294967296)%N.

Definition toRefCode (input : string) : string :=
  let hash := fold_left hashStep (list_ascii_of_string input) 0%N in
  let code := JS.padStart 6 "0" (JS.toString (N.to_nat (hash mod 1000000)%N)) in
  "DRW" +++ code.

(** The appointment that [confirmBooking] builds; [now] is the value of
    [Date.now()] and [isoNow] that of [new Date().toISOString()]. *)
Definition newAppointment (doctor : Doctor) (sel : SlotSelection) (now : Z)
    (isoNow : string) : Appointment :=
  {| id := name doctor +++ "-" +++ sel_date sel +++ "-" +++ sel_startTime sel
           +++ "-" +++ DateHelpers.stringOfZ now;
     doctorName := name doctor;
     doctorTimezone := timezone doctor;
     appt_date := sel_date sel;
     appt_dayOfWeek := sel_dayOfWeek sel;
     appt_startTime := sel_startTime sel;
     appt_endTime := sel_endTime sel;
     bookedAt := isoNow |}.

(** [confirmBooking] of the schedule view, on the refs of the view and the
    appointments of the store; [doctor] is the value of the computed
    [doctor] (the result of [getDoctorByName]). *)
Definition confirmBooking (doctor : option Doctor) (now : Z) (isoNow : string)
    (st : ViewState) (appointments : list Appointment)
  : ViewState * list Appointment :=
  match selectedSlot st, doctor with
  | Some sel, Some doc =>
      let appointment := newAppointment doc sel now isoNow in
      match Store.bookAppointment appointment appointments with
      | (Returns _, appointments') =>
          ({| showDialog := showDialog st; selectedSlot := selectedSlot st;
              bookingError := None; bookingSuccess := true;
              bookingRef := Some (toRefCode (id appointment)) |},
           appointments')
      | (Throws message, appointments') =>
          ({| showDialog := showDialog st; selectedSlot := selectedSlot st;
              bookingError := Some message; bookingSuccess := bookingSuccess st;
              bookingRef := bookingRef st |},
           appointments')
      end
  | _, _ => (st, appointments)
  end.

(** The refs of the appointment list. *)
Record CancelState := {
  showCancelDialog : bool;
  appointmentToCancel : option Appointment;
  cancelError : option string
}.

Definition openCancelDialog (appointment : Appointment) (st : CancelState) : CancelState :=
  {| showCancelDialog := true; appointmentToCancel := Some appointment;
     cancelError := None |}.

(** [confirmCancel] of the appointment list. *)
Definition confirmCancel (st : CancelState) (appointments : list Appointment)
  : CancelState * list Appointment :=
  match appointmentToCancel st with
  | None => (st, appointments)
  | Some appointment =>
      match Store.cancelAppointment (id appointment) appointments with
      | (Returns _, appointments') =>
          ({| showCancelDialog := false; appointmentToCancel := None;
              cancelError := cancelError st |},
           appointments')
      | (Throws message, appointments') =>
          ({| showCancelDialog := showCancelDialog st;
              appointmentToCancel := appointmentToCancel st;
              cancelError := Some message |},
           appointments')
      end
  end.

(** The [day] field of [dateParts(dateStr)] of the appointment list
    (and of [successDateParts] of the schedule view):
    [new Date(dateStr).getDate()], the local day of the month; [None] is
    NaN, for an invalid date.  The [month] field is a call of
    [toLocaleString] and is left out. *)
Definition dateParts_day (tz : Z) (parseDate : string -> option Z) (dateStr : string)
  : option Z :=
  option_map (JSDate.getDate tz) (parseDate dateStr).

End Booking.

(** * Properties *)

(** ** Shapes of time strings

    The text of a time the pattern accepts, piece by piece: one or two
    digits, a colon, two digits, and the marker in either case. *)

Definition isHourText (s : string) : bool :=
  match s with
  | String a EmptyString => JS.isDigit a
  | String a (String b EmptyString) => JS.isDigit a && JS.isDigit b
  | _ => false
  end.

Definition isMinuteText (s : string) : bool :=
  match s with
  | String a (String b EmptyString) => JS.isDigit a && JS.isDigit b
  | _ => false
  end.

Definition isMeridiemText (s : string) : bool :=
  match s with
  | String a (String b EmptyString) => isMeridiem a b
  | _ => false
  end.

Definition timeText (h mm p : string) : string := h +++ ":" +++ mm +++ p.

(** The canonical form [H:MM AM] / [H:MM PM] of such a text: the hour
    without a leading zero, the minute digits as written, one space, and
    the marker in upper case. *)
Definition canonicalText (h mm p : string) : string :=
  JS.toString (JS.parseIntDigits h) +++ ":" +++ mm +++ " " +++ JS.toUpperCase p.

(** The text as written once its white space is normalized: no white
    space but one space before the marker. *)
Definition spacedText (h mm p : string) : string := h +++ ":" +++ mm +++ " " +++ p.

(** An hour written without a leading zero and an upper-case marker. *)
Definition isPlainText (h p : string) : bool :=
  match h with
  | String a _ => negb (Ascii.eqb a "0")
  | EmptyString => false
  end && (String.eqb p "AM" || String.eqb p "PM").

(** An appointment books a slot of a doctor on a date when the four
    strings agree exactly. *)
Definition bookedBy (slot : TimeSlot) (date doctorName : string) (appt : Appointment) : Prop :=
  Types.doctorName appt = doctorName /\ appt_date appt = date
  /\ appt_startTime appt = startTime slot /\ appt_endTime appt = endTime slot.

(** The triple on which bookings must not collide. *)
Definition slotKey (appt : Appointment) : string * string * string :=
  (doctorName appt, appt_date appt, appt_startTime appt).

(** The windows of the records that carry exactly the name [n], in the
    order of the records. *)
Definition windowsOf (n : string) (records : list DoctorScheduleRaw) : list DoctorSchedule :=
  map Api.windowOf (List.filter (fun r => String.eqb (raw_name r) n) records).

(** What the map holds after the records [done] have been visited. *)
Definition grouped (m : JSMap.t Doctor) (done : list DoctorScheduleRaw) : Prop :=
  NoDup (map fst m)
  /\ (forall k d, JSMap.get m k = Some d ->
                  Types.name d = k /\ Types.schedules d = windowsOf k done)
  /\ (forall k, In k (map fst m) <-> In k (map raw_name done)).

(** [a] is dated no later than [b], for appointments with valid dates. *)
Definition notLater (parseDate : string -> option Z) (a b : Appointment) : Prop :=
  exists ta tb, parseDate (appt_date a) = Some ta /\ parseDate (appt_date b) = Some tb
                /\ (ta <= tb)%Z.

(** A comparator that subtracts a key, on the elements of a list. *)
Definition comparesByKey {A} (compare : A -> A -> option Z) (key : A -> Z) (l : list A) : Prop :=
  forall x y, In x l -> In y l -> compare x y = Some (key x - key y)%Z.

(** A doctor with two windows for Monday. *)
Definition twoMondaysDoctor : Doctor :=
  {| name := "Dr. Smith"; timezone := "America/New_York";
     schedules :=
       [ {| dayOfWeek := "Tuesday"; availableAt := "8:00 AM"; availableUntil := "9:00 AM" |};
         {| dayOfWeek := "Monday"; availableAt := "9:00 AM"; availableUntil := "10:00 AM" |};
         {| dayOfWeek := "Monday"; availableAt := "1:00 PM"; availableUntil := "5:00 PM" |} ] |}.

(** 2025-11-17T01:00 in a zone 8 hours east of UTC, as a time value. *)
Definition mondayOneAM : Z := 1763312400000.

(** A heap with an array of two slots at reference 0. *)
Definition sampleHeap : gmap nat Heap.object :=
  <[0 := Heap.ArrayObject [1; 2]]>
    (<[1 := Heap.SlotObject (mkSlot "9:00 AM" "9:30 AM")]>
       (<[2 := Heap.SlotObject (mkSlot "9:30 AM" "10:00 AM")]> ∅)).

(** Sample data of the test suite (tests/helpers/mockData). *)
Definition mockDoctorScheduleRaw : list DoctorScheduleRaw :=
  [ {| raw_name := "Dr. Smith"; raw_timezone := "America/New_York";
       day_of_week := "Monday"; available_at := "9:00 AM"; available_until := "5:00 PM" |};
    {| raw_name := "Dr. Smith"; raw_timezone := "America/New_York";
       day_of_week := "Tuesday"; available_at := "9:00 AM"; available_until := "5:00 PM" |};
    {| raw_name := "Dr. Johnson"; raw_timezone := "America/Los_Angeles";
       day_of_week := "Monday"; available_at := "10:00 AM"; available_until := "6:00 PM" |} ].

Definition mockSmith : Doctor :=
  {| name := "Dr. Smith"; timezone := "America/New_York";
     schedules :=
       [ {| dayOfWeek := "Monday"; availableAt := "9:00 AM"; availableUntil := "5:00 PM" |};
         {| dayOfWeek := "Tuesday"; availableAt := "9:00 AM"; availableUntil := "5:00 PM" |} ] |}.

Definition mockJohnson : Doctor :=
  {| name := "Dr. Johnson"; timezone := "America/Los_Angeles";
     schedules :=
       [ {| dayOfWeek := "Monday"; availableAt := "10:00 AM"; availableUntil := "6:00 PM" |} ] |}.

Definition mockDoctors : list Doctor := [mockSmith; mockJohnson].

Definition mockAppointment : Appointment :=
  {| id := "1"; doctorName := "Dr. Smith"; doctorTimezone := "America/New_York";
     appt_date := "2025-11-17"; appt_dayOfWeek := "Monday";
     appt_startTime := "9:00 AM"; appt_endTime := "9:30 AM";
     bookedAt := "2025-11-14T10:00:00.000Z" |}.

Definition mockAppointment2 : Appointment :=
  {| id := "2"; doctorName := "Dr. Smith"; doctorTimezone := "America/New_York";
     appt_date := "2025-11-17"; appt_dayOfWeek := "Monday";
     appt_startTime := "10:00 AM"; appt_endTime := "10:30 AM";
     bookedAt := "2025-11-14T10:30:00.000Z" |}.

Definition mockAppointments : list Appointment := [mockAppointment; mockAppointment2].

(** The text of [x] without its white space has the accepted shape. *)
Definition hasTimeShape (x : string) : Prop :=
  exists h mm p, isHourText h = true /\ isMinuteText mm = true
                 /\ isMeridiemText p = true
                 /\ JS.removeWhiteSpace x = timeText h mm p.

(** The slots of a window by position: slot [i] runs from minute
    [start + 30 i] to minute [start + 30 (i + 1)], each formatted from its
    hour and minute of the day. *)
Definition formatMinutes (total : nat) : string := formatTime (total / 60) (total mod 60).

Definition slotAt (start i : nat) : TimeSlot :=
  mkSlot (formatMinutes (start + 30 * i)) (formatMinutes (start + 30 * (i + 1))).

(** The slots the loop adds in [n] turns from a given state. *)
Fixpoint loopSlots (currentHours currentMinutes currentTotalMinutes n : nat)
  : list TimeSlot :=
  match n with
  | O => []
  | S n' =>
      let total' := currentTotalMinutes + 30 in
      mkSlot (formatTime currentHours currentMinutes) (formatMinutes total')
      :: loopSlots (total' / 60) (total' mod 60) total' n'
  end.

(** The date of an appointment parses, to the time value [t]. *)
Definition hasValidDate (parseDate : string -> option Z) (appt : Appointment) : bool :=
  match parseDate (appt_date appt) with Some _ => true | None => false end.

Definition isDatedAt (parseDate : string -> option Z) (t : Z) (appt : Appointment) : bool :=
  match parseDate (appt_date appt) with Some t' => (t' =? t)%Z | None => false end.

(** The doctor that grouping is to build for the name [n]: the time zone
    of the first record with that name, and the windows of all of them. *)
Definition firstTimezone (n : string) (records : list DoctorScheduleRaw) : string :=
  match List.find (fun r => String.eqb (raw_name r) n) records with
  | Some r => raw_timezone r
  | None => EmptyString
  end.

Definition doctorOf (records : list DoctorScheduleRaw) (n : string) : Doctor :=
  {| name := n; timezone := firstTimezone n records; schedules := windowsOf n records |}.

Definition entriesOf (records : list DoctorScheduleRaw) : JSMap.t Doctor :=
  map (fun n => (n, doctorOf records n)) (JSSet.fromList (map raw_name records)).

(** The integers [z], [z + 1], ..., [z + n - 1], for checks by
    evaluation over a range. *)
Fixpoint upto (n : nat) (z : Z) : list Z :=
  match n with
  | O => []
  | S n' => z :: upto n' (z + 1)%Z
  end.

(** [text] is [width] decimal digits that denote [value]. *)
Definition isFieldText (width : nat) (value : Z) (text : string) : bool :=
  (length (list_ascii_of_string text) =? width)
  && forallb JS.isDigit (list_ascii_of_string text)
  && (JSDate.digitsZ (list_ascii_of_string text) =? value)%Z.

(** ** Facts about the primitives *)

Example parseTime_9 : parseTime "  9:00   AM  " = Returns {| hours := 9; minutes := 0 |}.
Proof. reflexivity. Qed.

Example parseTime_noon : parseTime "12:30pm" = Returns {| hours := 12; minutes := 30 |}.
Proof. reflexivity. Qed.

Example parseTime_bad : parseTime "9:0AM" = Throws "Invalid time format: 9:0AM".
Proof. reflexivity. Qed.

Example parseTime_24h : parseTime "13:00" = Throws "Invalid time format: 13:00".
Proof. reflexivity. Qed.

Example formatTime_25 : formatTime 25 0 = "13:00 PM".
Proof. reflexivity. Qed.

Example formatTime_9_5 : formatTime 9 5 = "9:05 AM".
Proof. reflexivity. Qed.

(** Case analysis on a membership [H : In x [a; b; ...]] of a literal
    list. *)
Ltac each_member H :=
  simpl in H; repeat (destruct H as [<-|H]; [|]); try contradiction.

Lemma removeWhiteSpace_trimStart s :
  JS.removeWhiteSpace (JS.trimStart s) = JS.removeWhiteSpace s.
Proof.
  induction s as [|c s IH]; simpl; [reflexivity|].
  destruct (JS.isWhiteSpace c) eqn:E; [exact IH|].
  simpl. rewrite E. reflexivity.
Qed.

Lemma removeWhiteSpace_trimEnd s :
  JS.removeWhiteSpace (JS.trimEnd s) = JS.removeWhiteSpace s.
Proof.
  induction s as [|c s IH]; simpl; [reflexivity|].
  destruct (JS.trimEnd s) as [|c' r] eqn:E.
  - simpl in IH. rewrite <- IH.
    destruct (JS.isWhiteSpace c) eqn:Ec; simpl; rewrite ?Ec; reflexivity.
  - rewrite <- IH. simpl. reflexivity.
Qed.

(** Trimming first changes nothing once all white space is removed. *)
Lemma removeWhiteSpace_trim s :
  JS.removeWhiteSpace (JS.trim s) = JS.removeWhiteSpace s.
Proof.
  unfold JS.trim. rewrite removeWhiteSpace_trimEnd. apply removeWhiteSpace_trimStart.
Qed.

Lemma isDigit_cases c :
  JS.isDigit c = true ->
  In c ["0"; "1"; "2"; "3"; "4"; "5"; "6"; "7"; "8"; "9"]%char.
Proof.
  destruct c as [[] [] [] [] [] [] [] []]; intros H;
    try discriminate H; simpl; tauto.
Qed.

Lemma colon_not_digit : JS.isDigit ":" = false.
Proof. reflexivity. Qed.

Lemma isMeridiem_cases a b :
  isMeridiem a b = true ->
  In a ["A"; "a"; "P"; "p"]%char /\ In b ["M"; "m"]%char.
Proof.
  unfold isMeridiem. intros H. apply andb_prop in H as [Ha Hb]. split.
  - clear Hb. destruct a as [[] [] [] [] [] [] [] []];
      try discriminate Ha; simpl; tauto.
  - clear Ha. destruct b as [[] [] [] [] [] [] [] []];
      try discriminate Hb; simpl; tauto.
Qed.

Lemma isMinuteText_inv mm :
  isMinuteText mm = true ->
  exists a b, mm = String a (String b EmptyString)
              /\ JS.isDigit a = true /\ JS.isDigit b = true.
Proof.
  destruct mm as [|a [|b [|]]]; simpl; try discriminate.
  intros H. apply andb_prop in H as [Ha Hb]. eauto.
Qed.

Lemma isMeridiemText_inv p :
  isMeridiemText p = true ->
  exists a b, p = String a (String b EmptyString) /\ isMeridiem a b = true.
Proof.
  destruct p as [|a [|b [|]]]; simpl; try discriminate. eauto.
Qed.

Lemma matchTail_shape mm p :
  isMinuteText mm = true -> isMeridiemText p = true ->
  matchTail (":" +++ mm +++ p) = Some (mm, p).
Proof.
  intros Hm Hp.
  apply isMinuteText_inv in Hm as (a & b & -> & Ha & Hb).
  apply isMeridiemText_inv in Hp as (x & y & -> & Hxy).
  cbn [String.append matchTail]. rewrite Ha, Hb, Hxy. reflexivity.
Qed.

(** The pattern accepts every text of the shape, with the pieces as its
    groups. *)
Lemma matchTime_shape h mm p :
  isHourText h = true -> isMinuteText mm = true -> isMeridiemText p = true ->
  matchTime (timeText h mm p) = Some (h, mm, p).
Proof.
  intros Hh Hm Hp. unfold timeText.
  pose proof (matchTail_shape mm p Hm Hp) as Htail.
  destruct h as [|a [|b [|]]]; simpl in Hh; try discriminate.
  - (* one digit: the two-digit attempt stops at the colon *)
    cbn [String.append matchTime]. rewrite Hh.
    apply isMinuteText_inv in Hm as (m1 & m2 & -> & _ & _).
    cbn [String.append]. rewrite colon_not_digit.
    cbn [String.append] in Htail. rewrite Htail. reflexivity.
  - apply andb_prop in Hh as [Ha Hb].
    cbn [String.append matchTime]. rewrite Ha, Hb.
    cbn [String.append] in Htail. rewrite Htail. reflexivity.
Qed.

Lemma matchTail_inv s mm p :
  matchTail s = Some (mm, p) ->
  s = ":" +++ mm +++ p /\ isMinuteText mm = true /\ isMeridiemText p = true.
Proof.
  destruct s as [|c [|m1 [|m2 [|p1 [|p2 [|]]]]]]; simpl; try discriminate;
    try (destruct c as [[] [] [] [] [] [] [] []]; discriminate).
  destruct c as [[] [] [] [] [] [] [] []]; try discriminate.
  destruct (JS.isDigit m1) eqn:E1; try discriminate.
  destruct (JS.isDigit m2) eqn:E2; try discriminate.
  destruct (isMeridiem p1 p2) eqn:E3; try discriminate.
  simpl. intros [= <- <-]. simpl. rewrite E1, E2, E3. auto.
Qed.

(** Conversely, whatever the pattern accepts has that shape. *)
Lemma matchTime_inv s h mm p :
  matchTime s = Some (h, mm, p) ->
  s = timeText h mm p /\ isHourText h = true
  /\ isMinuteText mm = true /\ isMeridiemText p = true.
Proof.
  unfold timeText.
  destruct s as [|h1 s1]; simpl; try discriminate.
  destruct (JS.isDigit h1) eqn:E1; try discriminate.
  destruct s1 as [|h2 s2].
  - simpl. discriminate.
  - destruct (JS.isDigit h2) eqn:E2.
    + destruct (matchTail s2) as [[mm' p']|] eqn:Et.
      * intros [= <- <- <-]. apply matchTail_inv in Et as (-> & Hm & Hp).
        simpl. rewrite E1, E2. auto.
      * destruct (matchTail (String h2 s2)) as [[mm' p']|] eqn:Et'; try discriminate.
        apply matchTail_inv in Et' as (Hs & _). simpl in Hs.
        injection Hs as -> _. discriminate E2.
    + destruct (matchTail (String h2 s2)) as [[mm' p']|] eqn:Et'; try discriminate.
      intros [= <- <- <-]. apply matchTail_inv in Et' as (-> & Hm & Hp).
      simpl. rewrite E1. auto.
Qed.

(** What [parseTime] computes on a text of the shape. *)
Lemma parseTime_shape x h mm p :
  isHourText h = true -> isMinuteText mm = true -> isMeridiemText p = true ->
  JS.removeWhiteSpace x = timeText h mm p ->
  parseTime x =
    Returns {| hours :=
                 if String.eqb (JS.toUpperCase p) "PM" && negb (JS.parseIntDigits h =? 12)
                 then JS.parseIntDigits h + 12
                 else if String.eqb (JS.toUpperCase p) "AM" && (JS.parseIntDigits h =? 12)
                      then 0 else JS.parseIntDigits h;
               minutes := JS.parseIntDigits mm |}.
Proof.
  intros Hh Hm Hp Hx. unfold parseTime.
  rewrite removeWhiteSpace_trim, Hx, (matchTime_shape h mm p Hh Hm Hp).
  reflexivity.
Qed.

(** [parseTime] succeeds exactly on the texts of the shape, up to white
    space. *)
Lemma parseTime_Returns_inv x t :
  parseTime x = Returns t ->
  exists h mm p, isHourText h = true /\ isMinuteText mm = true
                 /\ isMeridiemText p = true
                 /\ JS.removeWhiteSpace x = timeText h mm p.
Proof.
  unfold parseTime. rewrite removeWhiteSpace_trim.
  destruct (matchTime (JS.removeWhiteSpace x)) as [[[h mm] p]|] eqn:E; try discriminate.
  intros _. apply matchTime_inv in E as (? & ? & ? & ?). eauto 8.
Qed.

(** ** Time parsing and formatting *)

Lemma padStart_minutes mm :
  isMinuteText mm = true ->
  JS.padStart 2 "0" (JS.toString (JS.parseIntDigits mm)) = mm.
Proof.
  intros H. apply isMinuteText_inv in H as (a & b & -> & Ha & Hb).
  apply isDigit_cases in Ha, Hb.
  each_member Ha; each_member Hb; reflexivity.
Qed.

Lemma isHourText_cases h :
  isHourText h = true -> 1 <= JS.parseIntDigits h <= 12 ->
  In h ["1"; "2"; "3"; "4"; "5"; "6"; "7"; "8"; "9"; "10"; "11"; "12";
        "01"; "02"; "03"; "04"; "05"; "06"; "07"; "08"; "09"].
Proof.
  destruct h as [|a [|b [|]]]; simpl; try discriminate.
  - intros Ha. apply isDigit_cases in Ha.
    each_member Ha; vm_compute; intros [? ?]; try lia; tauto.
  - intros H. apply andb_prop in H as [Ha Hb].
    apply isDigit_cases in Ha, Hb.
    each_member Ha; each_member Hb; vm_compute; intros [? ?]; try lia; tauto.
Qed.

Lemma isMeridiemText_cases p :
  isMeridiemText p = true ->
  In p ["AM"; "Am"; "aM"; "am"; "PM"; "Pm"; "pM"; "pm"].
Proof.
  intros H. apply isMeridiemText_inv in H as (a & b & -> & H).
  apply isMeridiem_cases in H as [Ha Hb].
  each_member Ha; each_member Hb; simpl; tauto.
Qed.

Lemma formatTime_unfold h m :
  formatTime h m =
    JS.toString (if h =? 0 then 12 else if 12 <? h then h - 12 else h)
    +++ ":" +++ JS.padStart 2 "0" (JS.toString m)
    +++ " " +++ (if 12 <=? h then "PM" else "AM").
Proof. reflexivity. Qed.

(** C3. [parseTime] puts no upper bound on the hour: ["13:00PM"] parses to
    hour 25, minute 0, and every text of the accepted shape with a PM
    marker and an hour [h] other than 12 parses to hour [h + 12], whatever
    [h] is. *)
Theorem parseTime_hour_unbounded :
  parseTime "13:00PM" = Returns {| hours := 25; minutes := 0 |}
  /\ forall x h mm p,
       isHourText h = true -> isMinuteText mm = true -> isMeridiemText p = true ->
       JS.removeWhiteSpace x = timeText h mm p ->
       JS.toUpperCase p = "PM" ->
       JS.parseIntDigits h <> 12 ->
       parseTime x = Returns {| hours := JS.parseIntDigits h + 12;
                                minutes := JS.parseIntDigits mm |}.
Proof.
  split; [reflexivity|].
  intros x h mm p Hh Hm Hp Hx Hpm Hne.
  rewrite (parseTime_shape x h mm p Hh Hm Hp Hx), Hpm.
  apply Nat.eqb_neq in Hne. rewrite Hne. reflexivity.
Qed.

Lemma parseTime_hour_unbounded_witness :
  JS.parseIntDigits "13" <> 12
  /\ parseTime " 13:00 pm" = Returns {| hours := JS.parseIntDigits "13" + 12;
                                        minutes := JS.parseIntDigits "00" |}.
Proof.
  split; [vm_compute; lia|].
  apply (proj2 parseTime_hour_unbounded " 13:00 pm" "13" "00" "pm");
    try reflexivity.
  vm_compute; lia.
Defined.

(** C10. [parseTime] puts no bound on the minute either: ["9:75AM"] parses
    to hour 9, minute 75, and every text of the accepted shape whose minute
    digits encode a value above 59 parses, with that value as its
    minutes. *)
Theorem parseTime_minute_unbounded :
  parseTime "9:75AM" = Returns {| hours := 9; minutes := 75 |}
  /\ forall x h mm p,
       isHourText h = true -> isMinuteText mm = true -> isMeridiemText p = true ->
       JS.removeWhiteSpace x = timeText h mm p ->
       59 < JS.parseIntDigits mm ->
       exists t, parseTime x = Returns t /\ minutes t = JS.parseIntDigits mm.
Proof.
  split; [reflexivity|].
  intros x h mm p Hh Hm Hp Hx _.
  rewrite (parseTime_shape x h mm p Hh Hm Hp Hx).
  eexists. split; reflexivity.
Qed.

Lemma parseTime_minute_unbounded_witness :
  59 < JS.parseIntDigits "99"
  /\ exists t, parseTime "11:99 PM" = Returns t /\ minutes t = JS.parseIntDigits "99".
Proof.
  split; [vm_compute; lia|].
  apply (proj2 parseTime_minute_unbounded "11:99 PM" "11" "99" "PM");
    try reflexivity.
  vm_compute; lia.
Defined.

(** C4. Round trip: for every text of the accepted shape whose hour is
    between 1 and 12, formatting the parsed hour and minute gives the
    canonical form of the text; when the hour is written without a leading
    zero and the marker in upper case, that is the text itself with its
    white space normalized. *)
Theorem formatTime_parseTime_roundtrip x h mm p :
  isHourText h = true -> isMinuteText mm = true -> isMeridiemText p = true ->
  1 <= JS.parseIntDigits h <= 12 ->
  JS.removeWhiteSpace x = timeText h mm p ->
  exists t,
    parseTime x = Returns t
    /\ formatTime (hours t) (minutes t) = canonicalText h mm p
    /\ (isPlainText h p = true -> canonicalText h mm p = spacedText h mm p).
Proof.
  intros Hh Hm Hp Hrange Hx.
  rewrite (parseTime_shape x h mm p Hh Hm Hp Hx).
  eexists. split; [reflexivity|].
  cbn [hours minutes]. rewrite formatTime_unfold, (padStart_minutes mm Hm).
  unfold canonicalText, spacedText, isPlainText.
  pose proof (isHourText_cases h Hh Hrange) as Hcases.
  pose proof (isMeridiemText_cases p Hp) as Pcases.
  each_member Hcases; each_member Pcases;
    (split; [vm_compute; reflexivity
            | vm_compute; intros H; try discriminate H; reflexivity]).
Qed.

Lemma formatTime_parseTime_roundtrip_witness :
  exists t,
    parseTime "  12:05   AM " = Returns t
    /\ formatTime (hours t) (minutes t) = canonicalText "12" "05" "AM"
    /\ (isPlainText "12" "AM" = true ->
        canonicalText "12" "05" "AM" = spacedText "12" "05" "AM").
Proof.
  apply (formatTime_parseTime_roundtrip "  12:05   AM " "12" "05" "AM");
    try reflexivity.
  vm_compute; lia.
Defined.

(** ** Slot generation *)

Lemma ceil30_step d :
  0 < d -> (d + 29) / 30 = S ((d - 30 + 29) / 30).
Proof.
  intros Hd.
  pose proof (Nat.div_mod_eq (d + 29) 30) as H1.
  pose proof (Nat.mod_upper_bound (d + 29) 30 ltac:(lia)) as H2.
  pose proof (Nat.div_mod_eq (d - 30 + 29) 30) as H3.
  pose proof (Nat.mod_upper_bound (d - 30 + 29) 30 ltac:(lia)) as H4.
  lia.
Qed.

(** The loop adds one slot per started half hour between the current
    minute and the end. *)
Lemma slotLoop_length e h m cur acc :
  length (slotLoop e h m cur acc) = length acc + (e - cur + 29) / 30.
Proof.
  funelim (slotLoop e h m cur acc).
  - match goal with IH : length (slotLoop _ _ _ _ _) = _ + _ |- _ => rewrite IH end.
    rewrite length_app. cbn [length].
    rewrite (ceil30_step (endTotalMinutes - currentTotalMinutes)) by lia.
    replace (endTotalMinutes - (currentTotalMinutes + 30))
      with (endTotalMinutes - currentTotalMinutes - 30) by lia.
    lia.
  - replace (endTotalMinutes - currentTotalMinutes) with 0 by lia.
    cbn. lia.
Qed.

Lemma slotLoop_Forall (P : TimeSlot -> Prop) e h m cur acc :
  (forall a b, P (mkSlot a b)) -> Forall P acc -> Forall P (slotLoop e h m cur acc).
Proof.
  intros Hmk. funelim (slotLoop e h m cur acc); intros Hacc.
  - match goal with IH : forall Q : TimeSlot -> Prop, _ |- _ => apply IH end;
      [exact Hmk|].
    apply Forall_app. split; [exact Hacc|]. constructor; [apply Hmk | constructor].
  - exact Hacc.
Qed.

Lemma floor30_of_multiple d :
  d mod 30 = 0 -> (d + 29) / 30 = d / 30.
Proof.
  intros Hd.
  pose proof (Nat.div_mod_eq d 30) as H1.
  pose proof (Nat.div_mod_eq (d + 29) 30) as H3.
  pose proof (Nat.mod_upper_bound (d + 29) 30 ltac:(lia)) as H4.
  lia.
Qed.

(** The claim C2 as the specification words it (the floor of the window
    length over 30) fails on a window that is not a whole number of half
    hours: from 9:00 AM to 9:15 AM the code emits the slot 9:00 AM - 9:30 AM,
    while the floor of 15/30 is 0. *)
Lemma generateTimeSlots_floor_counterexample :
  parseTime "9:00 AM" = Returns {| hours := 9; minutes := 0 |}
  /\ parseTime "9:15 AM" = Returns {| hours := 9; minutes := 15 |}
  /\ generateTimeSlots "9:00 AM" "9:15 AM" = Returns [mkSlot "9:00 AM" "9:30 AM"]
  /\ ~ (forall startText endText s e slots,
          parseTime startText = Returns s -> parseTime endText = Returns e ->
          totalMinutes s < totalMinutes e ->
          generateTimeSlots startText endText = Returns slots ->
          length slots = (totalMinutes e - totalMinutes s) / 30).
Proof.
  split; [reflexivity|]. split; [reflexivity|]. split; [reflexivity|].
  intros H.
  specialize (H "9:00 AM" "9:15 AM" _ _ _ eq_refl eq_refl ltac:(vm_compute; lia) eq_refl).
  vm_compute in H. discriminate H.
Qed.

(** C2, amended. For every pair of time strings [parseTime] accepts,
    [generateTimeSlots] returns; the sequence has one slot per started half
    hour, i.e. the ceiling of [(end - start) / 30] slots, when [end > start]
    (which is the floor when the window is a whole number of half hours),
    and is empty when [end <= start]; every slot is available and not
    booked; and from 9:00 AM to 5:00 PM there are exactly 16 slots, from
    9:00 AM - 9:30 AM to 4:30 PM - 5:00 PM; from 11:30 PM to 12:30 AM there
    are none. *)
Theorem generateTimeSlots_length startText endText s e :
  parseTime startText = Returns s -> parseTime endText = Returns e ->
  exists slots,
    generateTimeSlots startText endText = Returns slots
    /\ (totalMinutes s < totalMinutes e ->
        length slots = (totalMinutes e - totalMinutes s + 29) / 30
        /\ 30 * (length slots - 1) < totalMinutes e - totalMinutes s <= 30 * length slots)
    /\ ((totalMinutes e - totalMinutes s) mod 30 = 0 ->
        length slots = (totalMinutes e - totalMinutes s) / 30)
    /\ (totalMinutes e <= totalMinutes s -> slots = [])
    /\ Forall (fun slot => isAvailable slot = true /\ isBooked slot = false) slots
    /\ (exists l, generateTimeSlots "9:00 AM" "5:00 PM" = Returns l
                  /\ length l = 16
                  /\ head l = Some (mkSlot "9:00 AM" "9:30 AM")
                  /\ last l = Some (mkSlot "4:30 PM" "5:00 PM"))
    /\ generateTimeSlots "11:30 PM" "12:30 AM" = Returns [].
Proof.
  intros Hs He. unfold generateTimeSlots. rewrite Hs, He. cbn [obind].
  eexists. split; [reflexivity|].
  pose proof (slotLoop_length (totalMinutes e) (hours s) (minutes s) (totalMinutes s) []) as Hlen.
  cbn [length plus] in Hlen.
  split; [|split; [|split; [|split; [|split]]]].
  - intros Hlt. split; [exact Hlen|]. rewrite Hlen.
    pose proof (Nat.div_mod_eq (totalMinutes e - totalMinutes s + 29) 30) as H1.
    pose proof (Nat.mod_upper_bound (totalMinutes e - totalMinutes s + 29) 30 ltac:(lia)) as H2.
    lia.
  - intros Hmod. rewrite Hlen. apply floor30_of_multiple, Hmod.
  - intros Hle. apply length_zero_iff_nil. rewrite Hlen.
    replace (totalMinutes e - totalMinutes s) with 0 by lia. reflexivity.
  - apply slotLoop_Forall; [intros; split; reflexivity | constructor].
  - eexists. split; [reflexivity|]. repeat split; reflexivity.
  - reflexivity.
Qed.

Lemma generateTimeSlots_length_witness :
  exists slots,
    generateTimeSlots " 9:10am" "10:45 AM" = Returns slots
    /\ length slots = 4
    /\ 30 * (length slots - 1) < 645 - 550 <= 30 * length slots.
Proof.
  destruct (generateTimeSlots_length " 9:10am" "10:45 AM"
              {| hours := 9; minutes := 10 |} {| hours := 10; minutes := 45 |})
    as (slots & Hret & Hlen & _).
  - reflexivity.
  - reflexivity.
  - exists slots. split; [exact Hret|]. apply Hlen. vm_compute. lia.
Defined.

(** ** Reconciliation of slots with appointments *)

Lemma strictEq_eq a b : strictEq a b = true <-> a = b.
Proof. unfold strictEq. apply String.eqb_eq. Qed.

Lemma isSlotBooked_iff slot date doctorName appointments :
  isSlotBooked slot date doctorName appointments = true
  <-> exists appt, In appt appointments /\ bookedBy slot date doctorName appt.
Proof.
  unfold isSlotBooked, bookedBy. rewrite existsb_exists.
  split; intros (appt & Hin & H); exists appt; (split; [exact Hin|]).
  - rewrite !andb_true_iff, !strictEq_eq in H. tauto.
  - rewrite !andb_true_iff, !strictEq_eq. tauto.
Qed.

(** Marking looks at the two time strings of a slot only, which it keeps. *)
Lemma isSlotBooked_times slot slot' date doctorName appointments :
  startTime slot' = startTime slot -> endTime slot' = endTime slot ->
  isSlotBooked slot' date doctorName appointments
  = isSlotBooked slot date doctorName appointments.
Proof. intros Hs He. unfold isSlotBooked. rewrite Hs, He. reflexivity. Qed.

(** On values: the result has the length of the input; the slot at each
    index is booked iff some appointment books the input slot at that
    index, it is available iff it is not booked, and its other fields are
    those of the input slot; marking twice gives what marking once
    gives. *)
Lemma markBookedSlots_values slots date doctorName appointments :
  length (markBookedSlots slots date doctorName appointments) = length slots
  /\ (forall i slot,
        slots !! i = Some slot ->
        exists slot',
          markBookedSlots slots date doctorName appointments !! i = Some slot'
          /\ (isBooked slot' = true
              <-> exists appt, In appt appointments /\ bookedBy slot date doctorName appt)
          /\ isAvailable slot' = negb (isBooked slot')
          /\ startTime slot' = startTime slot
          /\ endTime slot' = endTime slot
          /\ Types.date slot' = Types.date slot)
  /\ markBookedSlots (markBookedSlots slots date doctorName appointments)
       date doctorName appointments
     = markBookedSlots slots date doctorName appointments.
Proof.
  split; [|split].
  - unfold markBookedSlots. apply length_map.
  - intros i slot Hi. unfold markBookedSlots.
    eexists. split.
    + change (map ?f slots) with (f <$> slots). rewrite list_lookup_fmap, Hi.
      reflexivity.
    + cbn. split; [apply isSlotBooked_iff|]. repeat split; reflexivity.
  - unfold markBookedSlots. rewrite map_map. apply map_ext. intros slot.
    unfold markSlot. cbn.
    rewrite (isSlotBooked_times slot) by reflexivity. reflexivity.
Qed.

Lemma readSlot_weaken (h h' : gmap nat Heap.object) r slot :
  h ⊆ h' -> Heap.readSlot h r = Some slot -> Heap.readSlot h' r = Some slot.
Proof.
  intros Hsub. unfold Heap.readSlot.
  destruct (h !! r) as [o|] eqn:E; [|discriminate].
  rewrite (lookup_weaken h h' r o E Hsub). auto.
Qed.

Lemma readAll_weaken (h h' : gmap nat Heap.object) elements slots :
  h ⊆ h' -> Heap.readAll h elements = Some slots -> Heap.readAll h' elements = Some slots.
Proof.
  intros Hsub. revert slots. induction elements as [|e rest IH]; intros slots; simpl.
  - auto.
  - destruct (Heap.readSlot h e) as [slot|] eqn:Es; [|discriminate].
    destruct (Heap.readAll h rest) as [ss|] eqn:Er; [|discriminate].
    intros [= <-]. rewrite (readSlot_weaken h h' e slot Hsub Es), (IH ss eq_refl).
    reflexivity.
Qed.

Lemma alloc_fresh o (h : gmap nat Heap.object) :
  h !! fst (Heap.alloc o h) = None
  /\ h ⊆ snd (Heap.alloc o h)
  /\ snd (Heap.alloc o h) !! fst (Heap.alloc o h) = Some o.
Proof.
  unfold Heap.alloc. cbn.
  assert (h !! fresh (dom h) = None) as Hnew
    by (apply not_elem_of_dom, is_fresh).
  split; [exact Hnew|]. split.
  - apply insert_subseteq, Hnew.
  - apply lookup_insert_eq.
Qed.

(** The loop of [map] allocates and never writes to an object that
    exists. *)
Lemma mapElements_spec callback elements : forall (h : gmap nat Heap.object) slots,
  Heap.readAll h elements = Some slots ->
  exists results h',
    Heap.mapElements callback elements h = Some (results, h')
    /\ h ⊆ h'
    /\ Heap.readAll h' results = Some (map callback slots).
Proof.
  induction elements as [|e rest IH]; intros h slots;
    cbn [Heap.mapElements Heap.readAll].
  - intros [= <-]. exists [], h. auto.
  - destruct (Heap.readSlot h e) as [slot|] eqn:Es; [|discriminate].
    destruct (Heap.readAll h rest) as [ss|] eqn:Er; [|discriminate].
    intros [= <-].
    destruct (alloc_fresh (Heap.SlotObject (callback slot)) h) as (Hnew & Hsub & Hget).
    destruct (Heap.alloc (Heap.SlotObject (callback slot)) h) as [r h1]. cbn in *.
    destruct (IH h1 ss (readAll_weaken h h1 rest ss Hsub Er))
      as (results & h2 & -> & Hsub2 & Hread).
    exists (r :: results), h2. split; [reflexivity|]. split.
    + etransitivity; eassumption.
    + simpl. unfold Heap.readSlot at 1.
      rewrite (lookup_weaken h1 h2 r _ Hget Hsub2), Hread. reflexivity.
Qed.

Lemma markBookedSlots_heap (h : gmap nat Heap.object) slotsRef slots date doctorName appointments :
  Heap.readSlots h slotsRef = Some slots ->
  exists result h',
    Heap.markBookedSlots slotsRef date doctorName appointments h = Some (result, h')
    /\ h !! result = None
    /\ h ⊆ h'
    /\ Heap.readSlots h' result
       = Some (markBookedSlots slots date doctorName appointments).
Proof.
  unfold Heap.readSlots, Heap.markBookedSlots.
  destruct (Heap.readElements h slotsRef) as [elements|] eqn:Ee; [|discriminate].
  intros Hread.
  destruct (mapElements_spec (markSlot date doctorName appointments) elements h slots Hread)
    as (results & h1 & -> & Hsub & Hres).
  destruct (alloc_fresh (Heap.ArrayObject results) h1) as (Hnew & Hsub2 & Hget).
  destruct (Heap.alloc (Heap.ArrayObject results) h1) as [r h2]. cbn in *.
  exists r, h2. split; [reflexivity|]. split; [|split].
  - destruct (h !! r) as [o|] eqn:E; [|reflexivity].
    rewrite (lookup_weaken h h1 r o E Hsub) in Hnew. discriminate.
  - etransitivity; eassumption.
  - unfold Heap.readElements. rewrite Hget.
    apply (readAll_weaken h1 h2 results _ Hsub2 Hres).
Qed.

Lemma readSlots_weaken (h h' : gmap nat Heap.object) r slots :
  h ⊆ h' -> Heap.readSlots h r = Some slots -> Heap.readSlots h' r = Some slots.
Proof.
  intros Hsub. unfold Heap.readSlots, Heap.readElements.
  destruct (h !! r) as [o|] eqn:E; [|discriminate].
  rewrite (lookup_weaken h h' r o E Hsub).
  destruct o; [discriminate|]. apply readAll_weaken, Hsub.
Qed.

(** C5. [markBookedSlots] returns a new array and leaves every object
    that existed before the call as it was, the input array and its slots
    among them.  The new array has the length of the input; its slot at
    each index is booked iff some appointment has exactly the doctor name,
    the date and the two time strings of the input slot at that index, it
    is available iff it is not booked, and its other fields are those of
    the input slot.  Marking the result again with the same date, doctor
    and appointments gives an array with the same slots. *)
Theorem markBookedSlots_spec (h : gmap nat Heap.object) slotsRef slots date doctorName appointments :
  Heap.readSlots h slotsRef = Some slots ->
  exists result h',
    Heap.markBookedSlots slotsRef date doctorName appointments h = Some (result, h')
    /\ h !! result = None
    /\ (forall r o, h !! r = Some o -> h' !! r = Some o)
    /\ Heap.readSlots h' slotsRef = Some slots
    /\ Heap.readSlots h' result
       = Some (markBookedSlots slots date doctorName appointments)
    /\ length (markBookedSlots slots date doctorName appointments) = length slots
    /\ (forall i slot,
          slots !! i = Some slot ->
          exists slot',
            markBookedSlots slots date doctorName appointments !! i = Some slot'
            /\ (isBooked slot' = true
                <-> exists appt, In appt appointments /\ bookedBy slot date doctorName appt)
            /\ isAvailable slot' = negb (isBooked slot')
            /\ startTime slot' = startTime slot
            /\ endTime slot' = endTime slot
            /\ Types.date slot' = Types.date slot)
    /\ markBookedSlots (markBookedSlots slots date doctorName appointments)
         date doctorName appointments
       = markBookedSlots slots date doctorName appointments
    /\ exists result2 h'',
         Heap.markBookedSlots result date doctorName appointments h' = Some (result2, h'')
         /\ Heap.readSlots h'' result2 = Heap.readSlots h' result.
Proof.
  intros Hread.
  destruct (markBookedSlots_heap h slotsRef slots date doctorName appointments Hread)
    as (result & h' & Hcall & Hnew & Hsub & Hres).
  destruct (markBookedSlots_values slots date doctorName appointments)
    as (Hlen & Hidx & Hidem).
  exists result, h'. split; [exact Hcall|]. split; [exact Hnew|].
  split; [intros r o Hr; exact (lookup_weaken h h' r o Hr Hsub)|].
  split; [exact (readSlots_weaken h h' slotsRef slots Hsub Hread)|].
  split; [exact Hres|]. split; [exact Hlen|]. split; [exact Hidx|].
  split; [exact Hidem|].
  destruct (markBookedSlots_heap h' result _ date doctorName appointments Hres)
    as (result2 & h'' & Hcall2 & _ & _ & Hres2).
  exists result2, h''. split; [exact Hcall2|].
  rewrite Hres2, Hres, Hidem. reflexivity.
Qed.

Lemma markBookedSlots_spec_witness :
  exists result h',
    Heap.markBookedSlots 0 "2025-11-17" "Dr. Smith" mockAppointments sampleHeap
    = Some (result, h')
    /\ sampleHeap !! result = None
    /\ Heap.readSlots h' 0 = Some [mkSlot "9:00 AM" "9:30 AM"; mkSlot "9:30 AM" "10:00 AM"]
    /\ Heap.readSlots h' result
       = Some (markBookedSlots [mkSlot "9:00 AM" "9:30 AM"; mkSlot "9:30 AM" "10:00 AM"]
                 "2025-11-17" "Dr. Smith" mockAppointments).
Proof.
  destruct (markBookedSlots_spec sampleHeap 0
              [mkSlot "9:00 AM" "9:30 AM"; mkSlot "9:30 AM" "10:00 AM"]
              "2025-11-17" "Dr. Smith" mockAppointments)
    as (result & h' & Hcall & Hnew & _ & Hin & Hout & _).
  - vm_compute. reflexivity.
  - exists result, h'. auto.
Defined.

Example markBookedSlots_mock :
  markBookedSlots [mkSlot "9:00 AM" "9:30 AM"; mkSlot "9:30 AM" "10:00 AM";
                   mkSlot "10:00 AM" "10:30 AM"]
    "2025-11-17" "Dr. Smith" mockAppointments
  = [ {| startTime := "9:00 AM"; endTime := "9:30 AM";
         isAvailable := false; isBooked := true; date := None |};
      {| startTime := "9:30 AM"; endTime := "10:00 AM";
         isAvailable := true; isBooked := false; date := None |};
      {| startTime := "10:00 AM"; endTime := "10:30 AM";
         isAvailable := false; isBooked := true; date := None |} ].
Proof. reflexivity. Qed.

(** ** The ledger: booking and cancelling *)

Import Store.

Lemma slotKey_eqb appt appointment :
  strictEq (doctorName appt) (doctorName appointment)
  && strictEq (appt_date appt) (appt_date appointment)
  && strictEq (appt_startTime appt) (appt_startTime appointment) = true
  <-> slotKey appt = slotKey appointment.
Proof.
  unfold slotKey. rewrite !andb_true_iff, !strictEq_eq. split.
  - intros [[-> ->] ->]. reflexivity.
  - intros [= -> -> ->]. auto.
Qed.

Lemma bookAppointment_duplicate appointment appointments :
  (exists appt, In appt appointments /\ slotKey appt = slotKey appointment) ->
  bookAppointment appointment appointments
  = (Throws "This time slot is already booked", appointments).
Proof.
  intros (appt & Hin & Hkey). unfold bookAppointment.
  assert (existsb (fun appt =>
            strictEq (doctorName appt) (doctorName appointment)
            && strictEq (appt_date appt) (appt_date appointment)
            && strictEq (appt_startTime appt) (appt_startTime appointment))
          appointments = true) as ->; [|reflexivity].
  apply existsb_exists. exists appt. split; [exact Hin|].
  apply slotKey_eqb, Hkey.
Qed.

Lemma bookAppointment_fresh appointment appointments :
  (forall appt, In appt appointments -> slotKey appt <> slotKey appointment) ->
  bookAppointment appointment appointments
  = (Returns tt, appointments ++ [appointment]).
Proof.
  intros Hfresh. unfold bookAppointment.
  assert (existsb (fun appt =>
            strictEq (doctorName appt) (doctorName appointment)
            && strictEq (appt_date appt) (appt_date appointment)
            && strictEq (appt_startTime appt) (appt_startTime appointment))
          appointments = false) as ->; [|reflexivity].
  apply not_true_is_false. intros H. apply existsb_exists in H as (appt & Hin & H).
  apply slotKey_eqb in H. exact (Hfresh appt Hin H).
Qed.

(** A booking either fails and changes nothing or appends at the end. *)
Lemma bookAppointment_cases appointment appointments :
  ((exists appt, In appt appointments /\ slotKey appt = slotKey appointment)
   /\ bookAppointment appointment appointments
      = (Throws "This time slot is already booked", appointments))
  \/ ((forall appt, In appt appointments -> slotKey appt <> slotKey appointment)
      /\ bookAppointment appointment appointments
         = (Returns tt, appointments ++ [appointment])).
Proof.
  destruct (existsb (fun appt =>
              strictEq (doctorName appt) (doctorName appointment)
              && strictEq (appt_date appt) (appt_date appointment)
              && strictEq (appt_startTime appt) (appt_startTime appointment))
            appointments) eqn:E.
  - left. apply existsb_exists in E as (appt & Hin & H). apply slotKey_eqb in H.
    split; [eauto|]. apply bookAppointment_duplicate. eauto.
  - right.
    assert (forall appt, In appt appointments -> slotKey appt <> slotKey appointment) as Hfresh.
    { intros appt Hin Hkey.
      assert (true = false) as Habs; [|discriminate Habs].
      rewrite <- E. symmetry. apply existsb_exists. exists appt.
      split; [exact Hin|]. apply slotKey_eqb, Hkey. }
    split; [exact Hfresh|]. apply bookAppointment_fresh, Hfresh.
Qed.

Lemma findIndex_None {A} (p : A -> bool) l :
  findIndex p l = None <-> forall x, In x l -> p x = false.
Proof.
  induction l as [|y l IH]; simpl.
  - split; [intros _ x []|reflexivity].
  - destruct (p y) eqn:Ey.
    + split; [discriminate|]. intros H. rewrite (H y) in Ey by auto. discriminate.
    + destruct (findIndex p l) as [i|]; simpl.
      * split; [discriminate|]. intros H.
        assert (Some i = None) as Habs; [|discriminate Habs].
        apply IH. intros x Hx. apply H. auto.
      * split; [|reflexivity]. intros _ x [<-|Hx]; [exact Ey|].
        apply IH; [reflexivity | exact Hx].
Qed.

(** [findIndex] returns the position of the first element that satisfies
    the test. *)
Lemma findIndex_Some {A} (p : A -> bool) l i :
  findIndex p l = Some i ->
  exists before x after,
    l = before ++ x :: after /\ length before = i /\ p x = true
    /\ (forall y, In y before -> p y = false).
Proof.
  revert i. induction l as [|y l IH]; simpl; intros i; [discriminate|].
  destruct (p y) eqn:Ey.
  - intros [= <-]. exists [], y, l. repeat split; auto. intros ? [].
  - destruct (findIndex p l) as [j|]; simpl; [|discriminate].
    intros [= <-]. destruct (IH j eq_refl) as (before & x & after & -> & Hlen & Hx & Hb).
    exists (y :: before), x, after. repeat split; simpl; auto.
    intros z [<-|Hz]; auto.
Qed.

Lemma splice1_middle {A} (before : list A) x after :
  splice1 (length before) (before ++ x :: after) = before ++ after.
Proof.
  unfold splice1.
  rewrite firstn_app, Nat.sub_diag, firstn_all. simpl. rewrite app_nil_r.
  change (x :: after) with ([x] ++ after).
  rewrite app_assoc.
  replace (S (length before)) with (length (before ++ [x]))
    by (rewrite length_app; simpl; lia).
  rewrite skipn_app, Nat.sub_diag, skipn_all. reflexivity.
Qed.

Lemma first_split_unique {A} (P : A -> Prop) before x after before' x' after' :
  before ++ x :: after = before' ++ x' :: after' ->
  P x -> P x' ->
  (forall y, In y before -> ~ P y) -> (forall y, In y before' -> ~ P y) ->
  before = before' /\ x = x' /\ after = after'.
Proof.
  revert before'. induction before as [|b before IH];
    intros [|b' before'] Heq Hx Hx' Hb Hb'; simpl in Heq.
  - injection Heq as Hxx Haa. auto.
  - injection Heq as Hxb _. subst b'. exfalso. apply (Hb' x); simpl; auto.
  - injection Heq as Hbx _. subst b. exfalso. apply (Hb x'); simpl; auto.
  - injection Heq as Hbb Heq. subst b'.
    destruct (IH before' Heq Hx Hx') as (-> & -> & ->); auto.
    + intros y Hy. apply Hb. simpl. auto.
    + intros y Hy. apply Hb'. simpl. auto.
Qed.

Lemma cancelAppointment_missing appointmentId appointments :
  (forall appt, In appt appointments -> id appt <> appointmentId) ->
  cancelAppointment appointmentId appointments
  = (Throws "Appointment not found", appointments).
Proof.
  intros Hnone. unfold cancelAppointment.
  assert (findIndex (fun appt => strictEq (id appt) appointmentId) appointments = None)
    as ->; [|reflexivity].
  apply findIndex_None. intros appt Hin. apply not_true_is_false.
  rewrite strictEq_eq. apply Hnone, Hin.
Qed.

Lemma cancelAppointment_first appointmentId before appt after :
  id appt = appointmentId ->
  (forall b, In b before -> id b <> appointmentId) ->
  cancelAppointment appointmentId (before ++ appt :: after)
  = (Returns tt, before ++ after).
Proof.
  intros Hid Hbefore. unfold cancelAppointment.
  destruct (findIndex (fun a => strictEq (id a) appointmentId) (before ++ appt :: after))
    as [i|] eqn:E.
  - apply findIndex_Some in E as (before' & x & after' & Heq & Hlen & Hx & Hb').
    apply strictEq_eq in Hx.
    assert (before = before' /\ appt = x /\ after = after') as (<- & <- & <-).
    { apply (first_split_unique (fun a => id a = appointmentId)); auto.
      intros y Hy. specialize (Hb' y Hy). apply not_true_iff_false in Hb'.
      rewrite strictEq_eq in Hb'. exact Hb'. }
    rewrite <- Hlen, splice1_middle. reflexivity.
  - exfalso. rewrite findIndex_None in E.
    specialize (E appt ltac:(apply in_or_app; simpl; auto)).
    apply not_true_iff_false in E. rewrite strictEq_eq in E. contradiction.
Qed.

(** Splitting a list at the first element with a given id. *)
Lemma first_with_id appointmentId appointments :
  (exists appt, In appt appointments /\ id appt = appointmentId) ->
  exists before appt after,
    appointments = before ++ appt :: after /\ id appt = appointmentId
    /\ (forall b, In b before -> id b <> appointmentId).
Proof.
  intros (a & Hin & Hid).
  destruct (findIndex (fun appt => strictEq (id appt) appointmentId) appointments)
    as [i|] eqn:E.
  - apply findIndex_Some in E as (before & x & after & -> & _ & Hx & Hb).
    apply strictEq_eq in Hx. exists before, x, after. repeat split; auto.
    intros b Hb'. specialize (Hb b Hb'). apply not_true_iff_false in Hb.
    rewrite strictEq_eq in Hb. exact Hb.
  - rewrite findIndex_None in E. specialize (E a Hin).
    apply not_true_iff_false in E. rewrite strictEq_eq in E. contradiction.
Qed.

(** C7. [cancelAppointment] throws the not-found error and leaves the
    ledger as it is when no appointment has exactly the given id (string
    equality, so a difference of case counts); otherwise it removes one
    entry, the first one with that id, and keeps the others in order; so
    with a unique id, the first of two cancellations in a row succeeds and
    the second throws the not-found error. *)
Theorem cancelAppointment_spec :
  (forall appointmentId appointments,
     (forall appt, In appt appointments -> id appt <> appointmentId) ->
     cancelAppointment appointmentId appointments
     = (Throws "Appointment not found", appointments))
  /\ (forall appointmentId appointments,
        (exists appt, In appt appointments /\ id appt = appointmentId) ->
        exists before appt after,
          appointments = before ++ appt :: after
          /\ id appt = appointmentId
          /\ (forall b, In b before -> id b <> appointmentId)
          /\ cancelAppointment appointmentId appointments
             = (Returns tt, before ++ after)
          /\ length (before ++ after) + 1 = length appointments)
  /\ (forall appointmentId before appt after,
        id appt = appointmentId ->
        (forall b, In b (before ++ after) -> id b <> appointmentId) ->
        cancelAppointment appointmentId (before ++ appt :: after)
        = (Returns tt, before ++ after)
        /\ cancelAppointment appointmentId (before ++ after)
           = (Throws "Appointment not found", before ++ after)).
Proof.
  split; [|split].
  - apply cancelAppointment_missing.
  - intros appointmentId appointments Hex.
    destruct (first_with_id appointmentId appointments Hex)
      as (before & appt & after & -> & Hid & Hb).
    exists before, appt, after. repeat split; auto.
    + apply cancelAppointment_first; assumption.
    + rewrite !length_app. simpl. lia.
  - intros appointmentId before appt after Hid Hothers. split.
    + apply cancelAppointment_first; [exact Hid|].
      intros b Hb. apply Hothers, in_or_app. auto.
    + apply cancelAppointment_missing, Hothers.
Qed.

Lemma cancelAppointment_spec_witness :
  cancelAppointment "1" ([] ++ mockAppointment :: [mockAppointment2])
  = (Returns tt, [] ++ [mockAppointment2])
  /\ cancelAppointment "1" ([] ++ [mockAppointment2])
     = (Throws "Appointment not found", [] ++ [mockAppointment2]).
Proof.
  apply (proj2 (proj2 cancelAppointment_spec) "1" [] mockAppointment [mockAppointment2]).
  - reflexivity.
  - intros b [<-|[]]. vm_compute. discriminate.
Defined.

Lemma NoDup_splice1 {A} (l : list A) i : NoDup l -> NoDup (splice1 i l).
Proof.
  intros Hnd. unfold splice1.
  change (firstn i l ++ skipn (S i) l) with (take i l ++ drop (S i) l).
  rewrite <- delete_take_drop.
  eapply sublist_NoDup; [exact Hnd | apply sublist_delete].
Qed.

Lemma map_splice1 {A B} (f : A -> B) (l : list A) i :
  map f (splice1 i l) = splice1 i (map f l).
Proof.
  unfold splice1. rewrite map_app, firstn_map, skipn_map. reflexivity.
Qed.

(** Every call on the store keeps the slot keys of the ledger distinct. *)
Lemma perform_unique op appointments :
  NoDup (map slotKey appointments) ->
  NoDup (map slotKey (snd (perform op appointments))).
Proof.
  intros Hnd. destruct op as [appointment|appointmentId]; simpl.
  - destruct (bookAppointment_cases appointment appointments) as [[_ ->]|[Hfresh ->]];
      simpl; [exact Hnd|].
    rewrite map_app. simpl. apply NoDup_app. split; [exact Hnd|]. split.
    + intros k Hk Hk'. apply list_elem_of_In, in_map_iff in Hk as (appt & <- & Hin).
      apply list_elem_of_singleton in Hk'. exact (Hfresh appt Hin Hk').
    + apply NoDup_singleton.
  - unfold cancelAppointment.
    destruct (findIndex _ appointments) as [i|]; simpl; [|exact Hnd].
    rewrite map_splice1. apply NoDup_splice1, Hnd.
Qed.

Lemma runOps_unique ops appointments :
  NoDup (map slotKey appointments) ->
  NoDup (map slotKey (runOps ops appointments)).
Proof.
  unfold runOps. revert appointments.
  induction ops as [|op ops IH]; intros appointments Hnd; simpl; [exact Hnd|].
  apply IH, perform_unique, Hnd.
Qed.

(** C1. Starting from an empty ledger, after any sequence of book and
    cancel calls no two entries of the ledger have the same doctor name,
    date and start time; a booking that collides with an entry on that
    triple throws the duplicate-slot error and leaves the ledger as it
    is; a booking that does not collide appends the appointment at the
    end. *)
Theorem ledger_slots_unique :
  (forall ops i j a b,
     runOps ops [] !! i = Some a -> runOps ops [] !! j = Some b ->
     slotKey a = slotKey b -> i = j)
  /\ (forall appointment appointments,
        (exists appt, In appt appointments /\ slotKey appt = slotKey appointment) ->
        bookAppointment appointment appointments
        = (Throws "This time slot is already booked", appointments))
  /\ (forall appointment appointments,
        (forall appt, In appt appointments -> slotKey appt <> slotKey appointment) ->
        bookAppointment appointment appointments
        = (Returns tt, appointments ++ [appointment])).
Proof.
  split; [|split].
  - intros ops i j a b Hi Hj Hkey.
    pose proof (runOps_unique ops [] (NoDup_nil_2 (A:=_))) as Hnd.
    rewrite NoDup_alt in Hnd. apply (Hnd i j (slotKey a)).
    + change (map slotKey ?l) with (slotKey <$> l).
      rewrite list_lookup_fmap, Hi. reflexivity.
    + change (map slotKey ?l) with (slotKey <$> l).
      rewrite list_lookup_fmap, Hj, Hkey. reflexivity.
  - apply bookAppointment_duplicate.
  - apply bookAppointment_fresh.
Qed.

Lemma ledger_slots_unique_witness :
  runOps [Book mockAppointment; Book mockAppointment2; Cancel "1";
          Book mockAppointment2; Book mockAppointment] [] !! 1
  = Some mockAppointment
  /\ 1 = 1
  /\ bookAppointment mockAppointment [mockAppointment2; mockAppointment]
     = (Throws "This time slot is already booked", [mockAppointment2; mockAppointment])
  /\ bookAppointment mockAppointment [mockAppointment2]
     = (Returns tt, [mockAppointment2] ++ [mockAppointment]).
Proof.
  split; [reflexivity|]. split; [|split].
  - apply (proj1 ledger_slots_unique
             [Book mockAppointment; Book mockAppointment2; Cancel "1";
              Book mockAppointment2; Book mockAppointment]
             1 1 mockAppointment mockAppointment); reflexivity.
  - apply (proj1 (proj2 ledger_slots_unique)).
    exists mockAppointment. split; [simpl; auto | reflexivity].
  - apply (proj2 (proj2 ledger_slots_unique)).
    intros appt [<-|[]]. vm_compute. discriminate.
Defined.

(** ** Grouping raw records by doctor *)

Import Api.

Lemma JSMap_get_In {V} (m : JSMap.t V) k v : JSMap.get m k = Some v -> In (k, v) m.
Proof.
  induction m as [|[k' v'] m IH]; simpl; [discriminate|].
  destruct (String.eqb_spec k' k) as [->|Hne].
  - intros [= ->]. auto.
  - intros H. right. apply IH, H.
Qed.

Lemma JSMap_get_None {V} (m : JSMap.t V) k :
  JSMap.get m k = None <-> ~ In k (map fst m).
Proof.
  induction m as [|[k' v'] m IH]; simpl; [tauto|].
  destruct (String.eqb_spec k' k) as [->|Hne].
  - split; [discriminate|]. intros H. exfalso. apply H. auto.
  - rewrite IH. tauto.
Qed.

Lemma JSMap_In_get {V} (m : JSMap.t V) k v :
  NoDup (map fst m) -> In (k, v) m -> JSMap.get m k = Some v.
Proof.
  induction m as [|[k' v'] m IH]; simpl; [intros _ []|].
  intros Hnd [Heq|Hin]; apply NoDup_cons in Hnd as [Hk' Hnd].
  - injection Heq as -> ->. rewrite String.eqb_refl. reflexivity.
  - destruct (String.eqb_spec k' k) as [->|Hne]; [|apply IH; assumption].
    exfalso. apply Hk'. apply list_elem_of_In, in_map_iff. exists (k, v). auto.
Qed.

Lemma JSMap_has_true {V} (m : JSMap.t V) k :
  JSMap.has m k = true <-> In k (map fst m).
Proof.
  unfold JSMap.has. destruct (JSMap.get m k) as [v|] eqn:E.
  - split; [|reflexivity]. intros _. apply JSMap_get_In in E.
    apply in_map_iff. exists (k, v). auto.
  - split; [discriminate|]. intros H. apply JSMap_get_None in E. contradiction.
Qed.

Lemma JSMap_get_set {V} (m : JSMap.t V) k v k' :
  JSMap.get (JSMap.set m k v) k' = if String.eqb k k' then Some v else JSMap.get m k'.
Proof.
  induction m as [|[k0 v0] m IH]; simpl.
  - reflexivity.
  - destruct (String.eqb_spec k0 k) as [->|Hne]; simpl.
    + destruct (String.eqb_spec k k'); reflexivity.
    + destruct (String.eqb_spec k0 k') as [->|Hne'].
      * destruct (String.eqb_spec k k') as [->|_]; [contradiction|reflexivity].
      * exact IH.
Qed.

(** Setting a key keeps the order of the keys; a new key goes last. *)
Lemma JSMap_keys_set {V} (m : JSMap.t V) k v :
  map fst (JSMap.set m k v)
  = if JSMap.has m k then map fst m else map fst m ++ [k].
Proof.
  unfold JSMap.has. induction m as [|[k0 v0] m IH]; simpl; [reflexivity|].
  destruct (String.eqb_spec k0 k) as [->|Hne]; simpl; [reflexivity|].
  rewrite IH. destruct (JSMap.get m k); reflexivity.
Qed.

Lemma windowsOf_snoc n records r :
  windowsOf n (records ++ [r])
  = windowsOf n records ++ (if String.eqb (raw_name r) n then [windowOf r] else []).
Proof.
  unfold windowsOf. rewrite List.filter_app, map_app. simpl.
  destruct (String.eqb (raw_name r) n); reflexivity.
Qed.

Lemma windowsOf_absent n records :
  ~ In n (map raw_name records) -> windowsOf n records = [].
Proof.
  unfold windowsOf. induction records as [|r records IH]; simpl; [reflexivity|].
  intros H. destruct (String.eqb_spec (raw_name r) n) as [Heq|_].
  - exfalso. apply H. auto.
  - apply IH. intros Hin. apply H. auto.
Qed.

Lemma groupStep_grouped m done r :
  grouped m done ->
  exists m', groupStep m r = Returns m' /\ grouped m' (done ++ [r]).
Proof.
  intros (Hnd & Hget & Hkeys). unfold groupStep.
  set (k := raw_name r).
  set (fresh := {| name := k; timezone := raw_timezone r; schedules := [] |}).
  set (m1 := if negb (JSMap.has m k) then JSMap.set m k fresh else m).
  assert (exists d0, JSMap.get m1 k = Some d0 /\ name d0 = k
                     /\ schedules d0 = windowsOf k done) as (d0 & Hd0 & Hname & Hsched).
  { subst m1. unfold JSMap.has. destruct (JSMap.get m k) as [d|] eqn:E; simpl.
    - exists d. destruct (Hget k d E). auto.
    - exists fresh. rewrite JSMap_get_set, String.eqb_refl. repeat split.
      symmetry. apply windowsOf_absent. rewrite <- Hkeys.
      apply JSMap_get_None, E. }
  assert (map fst m1 = if JSMap.has m k then map fst m else map fst m ++ [k]) as Hkeys1.
  { subst m1. destruct (JSMap.has m k) eqn:E; simpl; [reflexivity|].
    rewrite JSMap_keys_set, E. reflexivity. }
  assert (JSMap.has m1 k = true) as Hhas1.
  { unfold JSMap.has. rewrite Hd0. reflexivity. }
  assert (forall k', k <> k' -> JSMap.get m1 k' = JSMap.get m k') as Hother.
  { intros k' Hne. subst m1. destruct (JSMap.has m k); simpl; [reflexivity|].
    rewrite JSMap_get_set. apply String.eqb_neq in Hne. rewrite Hne. reflexivity. }
  rewrite Hd0. eexists. split; [reflexivity|]. split; [|split].
  - rewrite JSMap_keys_set, Hhas1, Hkeys1.
    destruct (JSMap.has m k) eqn:E; [exact Hnd|].
    apply NoDup_app. split; [exact Hnd|]. split; [|apply NoDup_singleton].
    intros x Hx Hx'. apply list_elem_of_singleton in Hx'. subst x.
    apply list_elem_of_In, JSMap_has_true in Hx. rewrite E in Hx. discriminate.
  - intros k' d. rewrite JSMap_get_set, windowsOf_snoc. fold k.
    destruct (String.eqb_spec k k') as [<-|Hne].
    + intros [= <-]. simpl. rewrite Hname, Hsched. auto.
    + rewrite (Hother k' Hne), app_nil_r. apply Hget.
  - intros k'. rewrite JSMap_keys_set, Hhas1, Hkeys1, map_app, in_app_iff. simpl.
    fold k. destruct (JSMap.has m k) eqn:E.
    + rewrite Hkeys. split; [auto|]. intros [H|[<-|[]]]; [exact H|].
      apply Hkeys, JSMap_has_true, E.
    + rewrite in_app_iff, Hkeys. simpl. tauto.
Qed.

Lemma forEachStep_grouped rest : forall m done,
  grouped m done ->
  exists m', forEachStep m rest = Returns m' /\ grouped m' (done ++ rest).
Proof.
  induction rest as [|r rest IH]; intros m done Hg; simpl.
  - exists m. rewrite app_nil_r. auto.
  - destruct (groupStep_grouped m done r Hg) as (m1 & -> & Hg1). simpl.
    destruct (IH m1 (done ++ [r]) Hg1) as (m' & Hm' & Hg').
    exists m'. rewrite <- app_assoc in Hg'. auto.
Qed.

(** C8. [groupSchedulesByDoctor] returns, for every list of raw records,
    one doctor per distinct name (names that differ in any character, case
    included, are distinct), and the schedules of each doctor are the
    windows of the records with exactly that name, in the order of the
    records. *)
Theorem groupSchedulesByDoctor_spec records :
  exists doctors,
    groupSchedulesByDoctor records = Returns doctors
    /\ NoDup (map name doctors)
    /\ (forall n, In n (map name doctors) <-> In n (map raw_name records))
    /\ (forall doctor, In doctor doctors ->
          schedules doctor = windowsOf (name doctor) records)
    /\ groupSchedulesByDoctor
         [ {| raw_name := "Dr. Smith"; raw_timezone := "America/New_York";
              day_of_week := "Monday"; available_at := "9:00 AM";
              available_until := "5:00 PM" |};
           {| raw_name := "dr. smith"; raw_timezone := "America/New_York";
              day_of_week := "Friday"; available_at := "1:00 PM";
              available_until := "2:00 PM" |};
           {| raw_name := "Dr. Smith"; raw_timezone := "America/New_York";
              day_of_week := "Tuesday"; available_at := " 8:00 AM ";
              available_until := "9:00 AM" |} ]
       = Returns
           [ {| name := "Dr. Smith"; timezone := "America/New_York";
                schedules :=
                  [ {| dayOfWeek := "Monday"; availableAt := "9:00 AM";
                       availableUntil := "5:00 PM" |};
                    {| dayOfWeek := "Tuesday"; availableAt := "8:00 AM";
                       availableUntil := "9:00 AM" |} ] |};
             {| name := "dr. smith"; timezone := "America/New_York";
                schedules :=
                  [ {| dayOfWeek := "Friday"; availableAt := "1:00 PM";
                       availableUntil := "2:00 PM" |} ] |} ].
Proof.
  assert (grouped JSMap.empty []) as Hg0.
  { split; [constructor|]. split; [discriminate|]. simpl. tauto. }
  destruct (forEachStep_grouped records JSMap.empty [] Hg0) as (m & Hm & Hnd & Hget & Hkeys).
  simpl in Hget, Hkeys.
  assert (forall k d, In (k, d) m -> name d = k) as Hname.
  { intros k d Hin. apply (Hget k d), JSMap_In_get; assumption. }
  assert (map name (JSMap.values m) = map fst m) as Hnames.
  { unfold JSMap.values. rewrite map_map. apply map_ext_in.
    intros [k d] Hin. simpl. apply Hname, Hin. }
  exists (JSMap.values m). unfold groupSchedulesByDoctor. rewrite Hm. simpl.
  split; [reflexivity|]. rewrite Hnames.
  split; [exact Hnd|]. split; [exact Hkeys|]. split; [|reflexivity].
  intros doctor Hin. unfold JSMap.values in Hin.
  apply in_map_iff in Hin as ([k d] & <- & Hin). simpl.
  pose proof (JSMap_In_get m k d Hnd Hin) as Hd.
  destruct (Hget k d Hd) as [-> Hs]. exact Hs.
Qed.

Lemma groupSchedulesByDoctor_spec_witness :
  In mockSmith mockDoctors
  /\ schedules mockSmith = windowsOf (name mockSmith) mockDoctorScheduleRaw.
Proof.
  split; [simpl; auto|].
  destruct (groupSchedulesByDoctor_spec mockDoctorScheduleRaw)
    as (doctors & Hret & _ & _ & Hsched & _).
  vm_compute in Hret. injection Hret as <-.
  apply (Hsched mockSmith). simpl. auto.
Defined.

(** ** The weekly projection *)

Import TimeSlotGrid.

Lemma find_first {A} (p : A -> bool) l x :
  List.find p l = Some x ->
  exists before after,
    l = before ++ x :: after /\ p x = true /\ (forall b, In b before -> p b = false).
Proof.
  induction l as [|y l IH]; simpl; [discriminate|].
  destruct (p y) eqn:Ey.
  - intros [= ->]. exists [], l. repeat split; auto. intros b [].
  - intros H. destruct (IH H) as (before & after & -> & Hx & Hb).
    exists (y :: before), after. repeat split; auto.
    intros b [<-|Hin]; auto.
Qed.

Lemma find_nothing {A} (p : A -> bool) l :
  List.find p l = None -> forall x, In x l -> p x = false.
Proof. intros H x Hx. exact (List.find_none p l H x Hx). Qed.

Lemma getNextWeekDates_lookup today i date :
  DateHelpers.getNextWeekDates today !! i = Some date ->
  i < 7 /\ date = JSDate.addDays today (Z.of_nat i).
Proof.
  unfold DateHelpers.getNextWeekDates.
  change (map ?f ?l) with (f <$> l). rewrite list_lookup_fmap.
  destruct (seq 0 7 !! i) as [j|] eqn:E; simpl; [|discriminate].
  apply lookup_seq in E as [-> Hlt]. intros [= <-]. auto.
Qed.

Lemma forEachDate_Returns tz fdd doctor appointments dates : forall result entries,
  forEachDate tz fdd doctor appointments dates result = Returns entries ->
  exists new,
    entries = result ++ new
    /\ Forall2 (fun date entry => dayEntry tz fdd doctor appointments date = Returns entry)
         dates new.
Proof.
  induction dates as [|date dates IH]; intros result entries; simpl.
  - intros [= <-]. exists []. rewrite app_nil_r. split; [reflexivity|constructor].
  - destruct (dayEntry tz fdd doctor appointments date) as [entry|msg] eqn:E;
      simpl; [|discriminate].
    intros H. destruct (IH _ _ H) as (new & -> & Hall).
    exists (entry :: new). rewrite <- app_assoc. split; [reflexivity|].
    constructor; assumption.
Qed.

Lemma forEachDate_total tz fdd doctor appointments dates : forall result,
  (forall date, In date dates ->
     exists entry, dayEntry tz fdd doctor appointments date = Returns entry) ->
  exists entries, forEachDate tz fdd doctor appointments dates result = Returns entries.
Proof.
  induction dates as [|date dates IH]; intros result Hall; simpl.
  - eauto.
  - destruct (Hall date (or_introl eq_refl)) as (entry & ->). simpl.
    apply IH. intros d Hd. apply Hall. right. exact Hd.
Qed.

Lemma generateTimeSlots_total startText endText s e :
  parseTime startText = Returns s -> parseTime endText = Returns e ->
  exists slots, generateTimeSlots startText endText = Returns slots.
Proof.
  intros Hs He. unfold generateTimeSlots. rewrite Hs, He. simpl. eauto.
Qed.

(** One day of the projection: the entry is built from the first window
    of the doctor for the weekday of the date, or is empty when there is
    none. *)
Lemma dayEntry_Returns tz fdd doctor appointments date entry :
  dayEntry tz fdd doctor appointments date = Returns entry ->
  entry_date entry = date
  /\ dayName entry = DateHelpers.getDayOfWeek tz date
  /\ dateString entry = DateHelpers.formatDate tz date
  /\ ((schedule entry = None /\ slots entry = []
       /\ forall w, In w (schedules doctor) -> dayOfWeek w <> dayName entry)
      \/ (exists before w after generated,
            schedules doctor = before ++ w :: after
            /\ dayOfWeek w = dayName entry
            /\ (forall b, In b before -> dayOfWeek b <> dayName entry)
            /\ schedule entry = Some w
            /\ generateTimeSlots (availableAt w) (availableUntil w) = Returns generated
            /\ slots entry
               = markBookedSlots generated (dateString entry) (name doctor) appointments)).
Proof.
  unfold dayEntry.
  destruct (List.find _ (schedules doctor)) as [w|] eqn:Efind.
  - destruct (generateTimeSlots (availableAt w) (availableUntil w)) as [generated|msg] eqn:Egen;
      simpl; [|discriminate].
    intros [= <-]. cbn. repeat split.
    right. apply find_first in Efind as (before & after & Hsplit & Hw & Hb).
    apply strictEq_eq in Hw.
    exists before, w, after, generated. repeat split; auto.
    intros b Hin. specialize (Hb b Hin). apply not_true_iff_false in Hb.
    rewrite strictEq_eq in Hb. exact Hb.
  - intros [= <-]. cbn. repeat split.
    left. repeat split. intros w Hin.
    pose proof (find_nothing _ _ Efind w Hin) as Hw. cbn in Hw.
    apply not_true_iff_false in Hw. rewrite strictEq_eq in Hw. exact Hw.
Qed.

(** C9. The weekly projection has 7 entries, for today and the 6 days
    after it.  The entry of a day is resolved to the first window in the
    doctor's schedules whose [dayOfWeek] is the weekday name of that day:
    its slots are the generated slots of that window, marked against the
    appointments, whatever windows for the same weekday come later; when
    no window matches, the entry has no schedule and an empty slot list.
    The projection returns whenever the times of the doctor's windows are
    strings [parseTime] accepts. *)
Theorem slotsPerDay_first_window tz formatDisplayDate doctor appointments today :
  (forall entries,
     slotsPerDay tz formatDisplayDate doctor appointments today = Returns entries ->
     length entries = 7
     /\ forall i entry,
          entries !! i = Some entry ->
          entry_date entry = JSDate.addDays today (Z.of_nat i)
          /\ dayName entry = DateHelpers.getDayOfWeek tz (entry_date entry)
          /\ dateString entry = DateHelpers.formatDate tz (entry_date entry)
          /\ ((schedule entry = None /\ slots entry = []
               /\ forall w, In w (schedules doctor) -> dayOfWeek w <> dayName entry)
              \/ (exists before w after generated,
                    schedules doctor = before ++ w :: after
                    /\ dayOfWeek w = dayName entry
                    /\ (forall b, In b before -> dayOfWeek b <> dayName entry)
                    /\ schedule entry = Some w
                    /\ generateTimeSlots (availableAt w) (availableUntil w)
                       = Returns generated
                    /\ slots entry
                       = markBookedSlots generated (dateString entry) (name doctor)
                           appointments)))
  /\ ((forall w, In w (schedules doctor) ->
         exists s e, parseTime (availableAt w) = Returns s
                     /\ parseTime (availableUntil w) = Returns e) ->
      exists entries,
        slotsPerDay tz formatDisplayDate doctor appointments today = Returns entries).
Proof.
  split.
  - intros entries Hret. unfold slotsPerDay in Hret.
    apply forEachDate_Returns in Hret as (new & -> & Hall). simpl.
    split.
    + apply Forall2_length in Hall. rewrite <- Hall.
      unfold DateHelpers.getNextWeekDates. rewrite length_map, length_seq. reflexivity.
    + intros i entry Hi.
      destruct (Forall2_lookup_r _ _ _ _ _ Hall Hi) as (date & Hdate & Hentry).
      apply getNextWeekDates_lookup in Hdate as [_ ->].
      apply dayEntry_Returns in Hentry as (Hd & Hn & Hs & Hcases).
      rewrite Hd. auto.
  - intros Hvalid. unfold slotsPerDay. apply forEachDate_total.
    intros date _. unfold dayEntry.
    destruct (List.find _ (schedules doctor)) as [w|] eqn:Efind; [|eauto].
    apply List.find_some in Efind as [Hin _].
    destruct (Hvalid w Hin) as (s & e & Hs & He).
    destruct (generateTimeSlots_total _ _ _ _ Hs He) as (generated & ->).
    simpl. eauto.
Qed.

Lemma slotsPerDay_first_window_witness :
  exists entries,
    slotsPerDay 480 (DateHelpers.formatDate 480) twoMondaysDoctor mockAppointments
      mondayOneAM = Returns entries
    /\ length entries = 7.
Proof.
  destruct (proj2 (slotsPerDay_first_window 480 (DateHelpers.formatDate 480)
                     twoMondaysDoctor mockAppointments mondayOneAM))
    as (entries & Hret).
  { intros w [<-|[<-|[<-|[]]]]; eexists; eexists; split; reflexivity. }
  exists entries. split; [exact Hret|].
  apply (proj1 (slotsPerDay_first_window 480 (DateHelpers.formatDate 480)
                  twoMondaysDoctor mockAppointments mondayOneAM) entries Hret).
Defined.

(** The first entry of the projection for that doctor on Monday
    2025-11-17: the 9:00 AM window is used, its first slot is booked by
    the sample appointment, and the later Monday window is not
    projected. *)
Example slotsPerDay_monday :
  exists entries,
    slotsPerDay 480 (DateHelpers.formatDate 480) twoMondaysDoctor [mockAppointment]
      mondayOneAM = Returns entries
    /\ head entries
       = Some {| entry_date := mondayOneAM; dateString := "2025-11-17";
                 dayName := "Monday"; displayDate := "2025-11-17";
                 schedule := Some {| dayOfWeek := "Monday"; availableAt := "9:00 AM";
                                     availableUntil := "10:00 AM" |};
                 slots :=
                   [ {| startTime := "9:00 AM"; endTime := "9:30 AM";
                        isAvailable := false; isBooked := true; date := None |};
                     {| startTime := "9:30 AM"; endTime := "10:00 AM";
                        isAvailable := true; isBooked := false; date := None |} ] |}.
Proof. eexists. split; [vm_compute; reflexivity|]. reflexivity. Qed.

(** ** The derived views *)

Section SortFacts.

Context {A : Type} (compare : A -> A -> option Z) (key : A -> Z).

Lemma insertSorted_Permutation x l : Permutation (insertSorted compare x l) (x :: l).
Proof.
  induction l as [|y l IH]; simpl; [reflexivity|].
  destruct (comparesAfter compare x y); [|reflexivity].
  rewrite IH. apply perm_swap.
Qed.

Lemma sort_Permutation l : Permutation (sort compare l) l.
Proof.
  unfold sort. induction l as [|x l IH]; simpl; [reflexivity|].
  rewrite insertSorted_Permutation, IH. reflexivity.
Qed.

Lemma insertSorted_StronglySorted x l :
  comparesByKey compare key (x :: l) ->
  StronglySorted (fun a b => (key a <= key b)%Z) l ->
  StronglySorted (fun a b => (key a <= key b)%Z) (insertSorted compare x l).
Proof.
  intros Hcmp Hs. induction Hs as [|y l Hs IH Hy]; simpl.
  - repeat constructor.
  - unfold comparesAfter. rewrite (Hcmp x y) by (simpl; auto).
    destruct (Z.ltb_spec 0 (key x - key y)) as [Hlt|Hge].
    + constructor.
      * apply IH. intros a b Ha Hb. apply Hcmp; simpl in *; tauto.
      * rewrite Forall_forall. intros z Hz.
        apply list_elem_of_In in Hz.
        apply (Permutation_in _ (insertSorted_Permutation x l)) in Hz.
        destruct Hz as [<-|Hz]; [lia|].
        rewrite Forall_forall in Hy. apply Hy, list_elem_of_In, Hz.
    + constructor; [constructor; assumption|].
      constructor; [lia|].
      rewrite Forall_forall in Hy |- *. intros z Hz. specialize (Hy z Hz). lia.
Qed.

Lemma sort_StronglySorted l :
  comparesByKey compare key l ->
  StronglySorted (fun a b => (key a <= key b)%Z) (sort compare l).
Proof.
  unfold sort. induction l as [|x l IH]; intros Hcmp; simpl; [constructor|].
  apply insertSorted_StronglySorted.
  - intros a b Ha Hb. apply Hcmp.
    + destruct Ha as [<-|Ha]; [simpl; auto|].
      right. apply (Permutation_in _ (sort_Permutation l)), Ha.
    + destruct Hb as [<-|Hb]; [simpl; auto|].
      right. apply (Permutation_in _ (sort_Permutation l)), Hb.
  - apply IH. intros a b Ha Hb. apply Hcmp; simpl; auto.
Qed.

(** The sort is stable: the elements with a given key keep their
    order. *)
Lemma insertSorted_stable k x l :
  comparesByKey compare key (x :: l) ->
  List.filter (fun a => (key a =? k)%Z) (insertSorted compare x l)
  = List.filter (fun a => (key a =? k)%Z) (x :: l).
Proof.
  intros Hcmp. induction l as [|y l IH]; [reflexivity|].
  cbn [insertSorted]. unfold comparesAfter. rewrite (Hcmp x y) by (simpl; auto).
  destruct (Z.ltb_spec 0 (key x - key y)) as [Hlt|Hge]; [|reflexivity].
  cbn [List.filter]. rewrite IH.
  - cbn [List.filter].
    destruct (Z.eqb_spec (key x) k), (Z.eqb_spec (key y) k); try reflexivity. lia.
  - intros a b Ha Hb. apply Hcmp; simpl in *; tauto.
Qed.

Lemma sort_stable k l :
  comparesByKey compare key l ->
  List.filter (fun a => (key a =? k)%Z) (sort compare l)
  = List.filter (fun a => (key a =? k)%Z) l.
Proof.
  unfold sort. induction l as [|x l IH]; intros Hcmp; [reflexivity|].
  cbn [fold_right]. rewrite insertSorted_stable.
  - cbn [List.filter]. rewrite IH; [reflexivity|].
    intros a b Ha Hb. apply Hcmp; simpl; auto.
  - intros a b Ha Hb. apply Hcmp.
    + destruct Ha as [<-|Ha]; [simpl; auto|].
      right. apply (Permutation_in _ (sort_Permutation l)), Ha.
    + destruct Hb as [<-|Hb]; [simpl; auto|].
      right. apply (Permutation_in _ (sort_Permutation l)), Hb.
Qed.

End SortFacts.

Lemma StronglySorted_weaken {A} (R R' : A -> A -> Prop) l :
  (forall a b, In a l -> In b l -> R a b -> R' a b) ->
  StronglySorted R l -> StronglySorted R' l.
Proof.
  intros Himp Hs. induction Hs as [|x l Hs IH Hx]; constructor.
  - apply IH. intros a b Ha Hb. apply Himp; simpl; auto.
  - rewrite Forall_forall in Hx |- *. intros y Hy.
    apply Himp; [simpl; auto | right; apply list_elem_of_In, Hy | apply Hx, Hy].
Qed.

Lemma dateGe_iff d now :
  dateGe d now = true <-> exists t, d = Some t /\ (now <= t)%Z.
Proof.
  unfold dateGe. destruct d as [t|].
  - rewrite Z.leb_le. split; [eauto|]. intros (t' & [= <-] & H). exact H.
  - split; [discriminate|]. intros (t' & [=] & _).
Qed.

Lemma dateLt_iff d now :
  dateLt d now = true <-> exists t, d = Some t /\ (t < now)%Z.
Proof.
  unfold dateLt. destruct d as [t|].
  - rewrite Z.ltb_lt. split; [eauto|]. intros (t' & [= <-] & H). exact H.
  - split; [discriminate|]. intros (t' & [=] & _).
Qed.

Section ViewFacts.

Variable parseDate : string -> option Z.

Lemma upcomingAppointments_In now appointments a :
  In a (upcomingAppointments parseDate now appointments)
  <-> In a appointments /\ exists t, parseDate (appt_date a) = Some t /\ (now <= t)%Z.
Proof.
  unfold upcomingAppointments. rewrite <- dateGe_iff. split.
  - intros H. apply (Permutation_in _ (sort_Permutation _ _)) in H.
    apply filter_In in H. exact H.
  - intros H. apply (Permutation_in _ (Permutation_sym (sort_Permutation _ _))).
    apply filter_In. exact H.
Qed.

Lemma pastAppointments_In now appointments a :
  In a (pastAppointments parseDate now appointments)
  <-> In a appointments /\ exists t, parseDate (appt_date a) = Some t /\ (t < now)%Z.
Proof.
  unfold pastAppointments. rewrite <- dateLt_iff. split.
  - intros H. apply (Permutation_in _ (sort_Permutation _ _)) in H.
    apply filter_In in H. exact H.
  - intros H. apply (Permutation_in _ (Permutation_sym (sort_Permutation _ _))).
    apply filter_In. exact H.
Qed.

Lemma upcomingAppointments_sorted now appointments :
  StronglySorted (notLater parseDate) (upcomingAppointments parseDate now appointments).
Proof.
  set (key := fun a => default 0%Z (parseDate (appt_date a))).
  apply (StronglySorted_weaken (fun a b => (key a <= key b)%Z)).
  - intros a b Ha Hb Hle.
    apply upcomingAppointments_In in Ha as (_ & ta & Hta & _).
    apply upcomingAppointments_In in Hb as (_ & tb & Htb & _).
    subst key. cbn in Hle. rewrite Hta, Htb in Hle. exists ta, tb. auto.
  - apply sort_StronglySorted. intros a b Ha Hb.
    apply filter_In in Ha as [_ Ha]. apply filter_In in Hb as [_ Hb].
    apply dateGe_iff in Ha as (ta & Hta & _). apply dateGe_iff in Hb as (tb & Htb & _).
    subst key. cbn. rewrite Hta, Htb. reflexivity.
Qed.

Lemma pastAppointments_sorted now appointments :
  StronglySorted (fun a b => notLater parseDate b a)
    (pastAppointments parseDate now appointments).
Proof.
  set (key := fun a => (- default 0 (parseDate (appt_date a)))%Z).
  apply (StronglySorted_weaken (fun a b => (key a <= key b)%Z)).
  - intros a b Ha Hb Hle.
    apply pastAppointments_In in Ha as (_ & ta & Hta & _).
    apply pastAppointments_In in Hb as (_ & tb & Htb & _).
    subst key. cbn in Hle. rewrite Hta, Htb in Hle. cbn in Hle.
    exists tb, ta. repeat split; auto. lia.
  - apply sort_StronglySorted. intros a b Ha Hb.
    apply filter_In in Ha as [_ Ha]. apply filter_In in Hb as [_ Hb].
    apply dateLt_iff in Ha as (ta & Hta & _). apply dateLt_iff in Hb as (tb & Htb & _).
    subst key. cbn. rewrite Hta, Htb. cbn. f_equal. lia.
Qed.

End ViewFacts.

(** The claim C6 as the specification words it fails at its last part:
    the date of an appointment is parsed as midnight UTC, not as local
    midnight.  In a zone 8 hours east of UTC, at 01:00 local time on
    2025-11-17, an appointment dated that day (the local date of "now")
    is one hour past local midnight of its day and is classified as
    upcoming, not as past. *)
Lemma same_day_upcoming_counterexample :
  DateHelpers.formatDate 480 mondayOneAM = appt_date mockAppointment
  /\ (JSDate.localMidnight 480 mondayOneAM < mondayOneAM)%Z
  /\ JSDate.parseDateOnly (appt_date mockAppointment) = Some 1763337600000%Z
  /\ upcomingAppointments JSDate.parseDateOnly mondayOneAM [mockAppointment]
     = [mockAppointment]
  /\ pastAppointments JSDate.parseDateOnly mondayOneAM [mockAppointment] = []
  /\ ~ (forall tz now appointments appt,
          In appt appointments ->
          appt_date appt = DateHelpers.formatDate tz now ->
          (JSDate.localMidnight tz now < now)%Z ->
          In appt (pastAppointments JSDate.parseDateOnly now appointments)).
Proof.
  split; [reflexivity|]. split; [reflexivity|]. split; [reflexivity|].
  split; [reflexivity|]. split; [reflexivity|].
  intros H.
  exact (H 480%Z mondayOneAM [mockAppointment] mockAppointment
           (or_introl eq_refl) eq_refl eq_refl).
Qed.

(** C6, amended. For every ledger and every time value [now], whatever
    the date parser: [upcomingAppointments] holds exactly the appointments
    whose date parses to a time value [>= now], in ascending order of that
    value, and [pastAppointments] exactly those whose date parses to a time
    value [< now], in descending order (an appointment whose date is
    invalid is in neither).  Consequently an appointment is past for every
    [now] later than the time value its date parses to, and upcoming until
    then; for a date-only string that value is midnight UTC of the day. *)
Theorem views_by_parsed_date parseDate now appointments :
  Permutation (upcomingAppointments parseDate now appointments)
    (List.filter (fun appt => dateGe (parseDate (appt_date appt)) now) appointments)
  /\ (forall a, In a (upcomingAppointments parseDate now appointments)
                <-> In a appointments
                    /\ exists t, parseDate (appt_date a) = Some t /\ (now <= t)%Z)
  /\ StronglySorted (notLater parseDate) (upcomingAppointments parseDate now appointments)
  /\ Permutation (pastAppointments parseDate now appointments)
       (List.filter (fun appt => dateLt (parseDate (appt_date appt)) now) appointments)
  /\ (forall a, In a (pastAppointments parseDate now appointments)
                <-> In a appointments
                    /\ exists t, parseDate (appt_date a) = Some t /\ (t < now)%Z)
  /\ StronglySorted (fun a b => notLater parseDate b a)
       (pastAppointments parseDate now appointments)
  /\ (forall a y m d,
        In a appointments ->
        JSDate.dateOnlyFields (appt_date a) = Some (y, m, d) ->
        JSDate.isCalendarDate y m d = true ->
        (In a (pastAppointments JSDate.parseDateOnly now appointments)
         <-> (JSDate.daysFromCivil y m d * JSDate.msPerDay < now)%Z)
        /\ (In a (upcomingAppointments JSDate.parseDateOnly now appointments)
            <-> (now <= JSDate.daysFromCivil y m d * JSDate.msPerDay)%Z)).
Proof.
  split; [apply sort_Permutation|].
  split; [apply upcomingAppointments_In|].
  split; [apply upcomingAppointments_sorted|].
  split; [apply sort_Permutation|].
  split; [apply pastAppointments_In|].
  split; [apply pastAppointments_sorted|].
  intros a y m d Hin Hfields Hvalid.
  assert (JSDate.parseDateOnly (appt_date a)
          = Some (JSDate.daysFromCivil y m d * JSDate.msPerDay)%Z) as Hparse.
  { unfold JSDate.parseDateOnly. rewrite Hfields, Hvalid. reflexivity. }
  rewrite pastAppointments_In, upcomingAppointments_In, Hparse. split; split.
  - intros (_ & t & [= <-] & H). exact H.
  - eauto.
  - intros (_ & t & [= <-] & H). exact H.
  - eauto.
Qed.

Lemma views_by_parsed_date_witness :
  (In mockAppointment (pastAppointments JSDate.parseDateOnly 1763337600001 mockAppointments)
   <-> (JSDate.daysFromCivil 2025 11 17 * JSDate.msPerDay < 1763337600001)%Z)
  /\ (In mockAppointment
        (upcomingAppointments JSDate.parseDateOnly 1763337600001 mockAppointments)
      <-> (1763337600001 <= JSDate.daysFromCivil 2025 11 17 * JSDate.msPerDay)%Z).
Proof.
  apply (proj2 (proj2 (proj2 (proj2 (proj2 (proj2
           (views_by_parsed_date JSDate.parseDateOnly 1763337600001 mockAppointments))))))
           mockAppointment 2025%Z 11%Z 17%Z).
  - simpl. auto.
  - reflexivity.
  - reflexivity.
Defined.

(** * Further properties of the code *)

(** ** Time strings *)

(** X1. [parseTime] returns exactly on the inputs whose text without white
    space is one or two digits, a colon, two digits and AM or PM in either
    case; on every other input it throws, and the message carries the
    input as given, white space included. *)
Theorem parseTime_accepts_exactly x :
  ((exists t, parseTime x = Returns t) <-> hasTimeShape x)
  /\ (~ hasTimeShape x -> parseTime x = Throws ("Invalid time format: " +++ x)).
Proof.
  split; [split|].
  - intros [t Ht]. exact (parseTime_Returns_inv x t Ht).
  - intros (h & mm & p & Hh & Hm & Hp & Hx).
    rewrite (parseTime_shape x h mm p Hh Hm Hp Hx). eauto.
  - intros Hno. unfold parseTime. rewrite removeWhiteSpace_trim.
    destruct (matchTime (JS.removeWhiteSpace x)) as [[[h mm] p]|] eqn:E; [|reflexivity].
    exfalso. apply Hno. apply matchTime_inv in E as (? & ? & ? & ?).
    exists h, mm, p. auto.
Qed.

Lemma parseTime_accepts_exactly_witness :
  parseTime " 9.00 AM" = Throws ("Invalid time format: " +++ " 9.00 AM").
Proof.
  apply (proj2 (parseTime_accepts_exactly " 9.00 AM")).
  intros (h & mm & p & Hh & Hm & Hp & Hx).
  destruct h as [|a [|b [|]]]; try discriminate Hh;
    destruct mm as [|c [|d [|]]]; try discriminate Hm;
    destruct p as [|e [|f [|]]]; try discriminate Hp;
    vm_compute in Hx; discriminate Hx.
Defined.

(** X2. White space anywhere in the input is ignored: two inputs with the
    same text once white space is removed parse to the same time. *)
Theorem parseTime_ignores_white_space x y t :
  JS.removeWhiteSpace x = JS.removeWhiteSpace y ->
  parseTime x = Returns t -> parseTime y = Returns t.
Proof.
  intros Hxy. unfold parseTime. rewrite !removeWhiteSpace_trim, Hxy.
  destruct (matchTime (JS.removeWhiteSpace y)) as [[[h mm] p]|]; [|discriminate].
  auto.
Qed.

Lemma parseTime_ignores_white_space_witness :
  parseTime "1 0 : 3 0 p m" = Returns {| hours := 22; minutes := 30 |}.
Proof.
  apply (parseTime_ignores_white_space "10:30pm" "1 0 : 3 0 p m"); reflexivity.
Defined.

Lemma parse_format_table :
  forallb (fun h =>
    forallb (fun m =>
      match parseTime (formatTime h m) with
      | Returns t => (hours t =? h) && (minutes t =? m)
      | Throws _ => false
      end) (seq 0 60)) (seq 0 24) = true.
Proof. vm_compute. reflexivity. Qed.

Lemma parse_format_entry h m :
  h < 24 -> m < 60 ->
  match parseTime (formatTime h m) with
  | Returns t => (hours t =? h) && (minutes t =? m)
  | Throws _ => false
  end = true.
Proof.
  intros Hh Hm. pose proof parse_format_table as Htab.
  rewrite forallb_forall in Htab. specialize (Htab h).
  rewrite in_seq in Htab. specialize (Htab ltac:(lia)).
  rewrite forallb_forall in Htab. apply Htab. apply in_seq. lia.
Qed.

(** The string of a minute of the day parses back to that minute. *)
Lemma parseTime_formatMinutes total :
  total < 1440 ->
  parseTime (formatMinutes total)
  = Returns {| hours := total / 60; minutes := total mod 60 |}.
Proof.
  intros Ht. unfold formatMinutes.
  assert (total / 60 < 24) as Hh by (apply Nat.Div0.div_lt_upper_bound; lia).
  assert (total mod 60 < 60) as Hm by (apply Nat.mod_upper_bound; lia).
  pose proof (parse_format_entry _ _ Hh Hm) as H.
  destruct (parseTime (formatTime (total / 60) (total mod 60))) as [[h' m']|];
    [|discriminate].
  cbn in H. apply andb_prop in H as [H1 H2].
  apply Nat.eqb_eq in H1, H2. subst. reflexivity.
Qed.

(** X3. Round trip from numbers: for an hour below 24 and a minute below
    60, [parseTime] of the string [formatTime] builds gives the hour and
    the minute back. *)
Theorem parseTime_formatTime_roundtrip h m :
  h < 24 -> m < 60 -> parseTime (formatTime h m) = Returns {| hours := h; minutes := m |}.
Proof.
  intros Hh Hm. pose proof (parse_format_entry h m Hh Hm) as H.
  destruct (parseTime (formatTime h m)) as [[h' m']|]; [|discriminate].
  cbn in H. apply andb_prop in H as [H1 H2].
  apply Nat.eqb_eq in H1, H2. subst. reflexivity.
Qed.

Lemma parseTime_formatTime_roundtrip_witness :
  parseTime (formatTime 23 59) = Returns {| hours := 23; minutes := 59 |}.
Proof. apply parseTime_formatTime_roundtrip; lia. Defined.

Lemma toUpperCase_meridiem p :
  isMeridiemText p = true ->
  JS.toUpperCase p = "AM" \/ JS.toUpperCase p = "PM".
Proof.
  intros H. apply isMeridiemText_cases in H.
  each_member H; vm_compute; auto.
Qed.

(** X4. For an input of the accepted shape whose hour is between 1 and 12
    and whose minute is at most 59, the parsed time is a time of the day:
    the hour is below 12 for AM and from 12 to 23 for PM, and the minute
    is below 60. *)
Theorem parseTime_in_range x h mm p t :
  isHourText h = true -> isMinuteText mm = true -> isMeridiemText p = true ->
  JS.removeWhiteSpace x = timeText h mm p ->
  1 <= JS.parseIntDigits h <= 12 -> JS.parseIntDigits mm <= 59 ->
  parseTime x = Returns t ->
  minutes t < 60
  /\ (JS.toUpperCase p = "AM" -> hours t < 12)
  /\ (JS.toUpperCase p = "PM" -> 12 <= hours t < 24)
  /\ totalMinutes t < 1440.
Proof.
  intros Hh Hm Hp Hx Hrange Hmin.
  rewrite (parseTime_shape x h mm p Hh Hm Hp Hx). intros [= <-]. cbn [hours minutes].
  unfold totalMinutes. cbn [hours minutes].
  destruct (toUpperCase_meridiem p Hp) as [-> | ->];
    destruct (Nat.eqb_spec (JS.parseIntDigits h) 12) as [E|E]; cbn;
    repeat split; intros; try discriminate; lia.
Qed.

Lemma parseTime_in_range_witness :
  minutes {| hours := 0; minutes := 59 |} < 60
  /\ (JS.toUpperCase "am" = "AM" -> hours {| hours := 0; minutes := 59 |} < 12)
  /\ (JS.toUpperCase "am" = "PM" -> 12 <= hours {| hours := 0; minutes := 59 |} < 24)
  /\ totalMinutes {| hours := 0; minutes := 59 |} < 1440.
Proof.
  apply (parseTime_in_range "12:59 am" "12" "59" "am"); try reflexivity;
    vm_compute; lia.
Defined.

(** ** The generated slots, by position *)

Lemma slotLoop_loopSlots e h m cur acc :
  slotLoop e h m cur acc = acc ++ loopSlots h m cur ((e - cur + 29) / 30).
Proof.
  funelim (slotLoop e h m cur acc).
  - match goal with IH : slotLoop _ _ _ _ _ = _ ++ _ |- _ => rewrite IH end.
    rewrite (ceil30_step (endTotalMinutes - currentTotalMinutes)) by lia.
    replace (endTotalMinutes - (currentTotalMinutes + 30))
      with (endTotalMinutes - currentTotalMinutes - 30) by lia.
    cbn [loopSlots]. rewrite <- app_assoc. reflexivity.
  - replace (endTotalMinutes - currentTotalMinutes) with 0 by lia.
    cbn. rewrite app_nil_r. reflexivity.
Qed.

Lemma slotAt_shift start i : slotAt (start + 30) i = slotAt start (S i).
Proof.
  unfold slotAt. f_equal; f_equal; lia.
Qed.

Lemma loopSlots_normal cur n :
  loopSlots (cur / 60) (cur mod 60) cur n = map (slotAt cur) (seq 0 n).
Proof.
  revert cur. induction n as [|n IH]; intros cur; [reflexivity|].
  cbn [loopSlots seq map]. rewrite IH. f_equal.
  - unfold slotAt, formatMinutes. f_equal; f_equal; f_equal; lia.
  - rewrite <- seq_shift, map_map. apply map_ext. intros i. apply slotAt_shift.
Qed.

(** The slots of a window: the first one starts at the formatted start of
    the window, the others are the slots by position. *)
Lemma loopSlots_first h m cur n :
  loopSlots h m cur (S n)
  = mkSlot (formatTime h m) (formatMinutes (cur + 30))
    :: map (slotAt cur) (seq 1 n).
Proof.
  cbn [loopSlots]. rewrite loopSlots_normal. f_equal.
  rewrite <- seq_shift, map_map. apply map_ext. intros i. apply slotAt_shift.
Qed.

Lemma loopSlots_length h m cur n : length (loopSlots h m cur n) = n.
Proof.
  revert h m cur. induction n as [|n IH]; intros h m cur; [reflexivity|].
  cbn [loopSlots length]. rewrite IH. reflexivity.
Qed.

Lemma loopSlots_lookup h m cur n i slot :
  loopSlots h m cur n !! i = Some slot ->
  i < n
  /\ startTime slot = (if i =? 0 then formatTime h m else formatMinutes (cur + 30 * i))
  /\ endTime slot = formatMinutes (cur + 30 * (i + 1)).
Proof.
  destruct n as [|n]; [discriminate|].
  rewrite loopSlots_first, lookup_cons. destruct i as [|i].
  - intros [= <-]. unfold mkSlot. cbn [startTime endTime Nat.eqb].
    split; [lia|]. split; reflexivity.
  - change (map ?f ?l) with (f <$> l). rewrite list_lookup_fmap.
    destruct (seq 1 n !! i) as [j|] eqn:E; [|discriminate].
    apply lookup_seq in E as [-> Hi]. cbn [fmap option_fmap option_map].
    intros [= <-]. unfold slotAt, mkSlot. cbn [startTime endTime Nat.eqb].
    split; [lia|]. split; reflexivity.
Qed.

Lemma generateTimeSlots_loopSlots startText endText s e :
  parseTime startText = Returns s -> parseTime endText = Returns e ->
  generateTimeSlots startText endText
  = Returns (loopSlots (hours s) (minutes s) (totalMinutes s)
               ((totalMinutes e - totalMinutes s + 29) / 30)).
Proof.
  intros Hs He. unfold generateTimeSlots. rewrite Hs, He. cbn [obind].
  rewrite slotLoop_loopSlots. reflexivity.
Qed.

(** X5. The slots by position: in the sequence [generateTimeSlots]
    returns, the slot at index [i] ends at minute [start + 30 (i + 1)] of
    the day, formatted from its hour and minute; it starts at minute
    [start + 30 i] formatted the same way, except that the first slot
    starts at the start of the window formatted from the parsed hour and
    minute as they are.  So each slot starts with the string the slot
    before it ends with. *)
Theorem generateTimeSlots_by_position startText endText s e :
  parseTime startText = Returns s -> parseTime endText = Returns e ->
  exists slots,
    generateTimeSlots startText endText = Returns slots
    /\ (forall i slot,
          slots !! i = Some slot ->
          startTime slot
          = (if i =? 0 then formatTime (hours s) (minutes s)
             else formatMinutes (totalMinutes s + 30 * i))
          /\ endTime slot = formatMinutes (totalMinutes s + 30 * (i + 1)))
    /\ (forall i a b,
          slots !! i = Some a -> slots !! (S i) = Some b ->
          endTime a = startTime b).
Proof.
  intros Hs He. rewrite (generateTimeSlots_loopSlots _ _ s e Hs He).
  eexists. split; [reflexivity|]. split.
  - intros i slot Hi. apply loopSlots_lookup in Hi as (_ & H1 & H2). auto.
  - intros i a b Ha Hb.
    apply loopSlots_lookup in Ha as (_ & _ & Ha).
    apply loopSlots_lookup in Hb as (_ & Hb & _).
    rewrite Ha, Hb. cbn. f_equal. lia.
Qed.

Lemma generateTimeSlots_by_position_witness :
  exists slots,
    generateTimeSlots "9:75 AM" "11:15 AM" = Returns slots
    /\ slots !! 0 = Some (mkSlot "9:75 AM" "10:45 AM")
    /\ slots !! 1 = Some (mkSlot "10:45 AM" "11:15 AM").
Proof.
  destruct (generateTimeSlots_by_position "9:75 AM" "11:15 AM"
              {| hours := 9; minutes := 75 |} {| hours := 11; minutes := 15 |})
    as (slots & Hret & _ & _).
  - reflexivity.
  - reflexivity.
  - exists slots. split; [exact Hret|].
    vm_compute in Hret. injection Hret as <-. split; reflexivity.
Defined.

(** X6. The slots cover the window and may overrun it: when the end is
    after the start, the first slot starts at the start of the window and
    the last slot ends at or after the end of the window, less than 30
    minutes after it. *)
Theorem generateTimeSlots_covers startText endText s e :
  parseTime startText = Returns s -> parseTime endText = Returns e ->
  totalMinutes s < totalMinutes e ->
  exists slots first final,
    generateTimeSlots startText endText = Returns slots
    /\ head slots = Some first
    /\ startTime first = formatTime (hours s) (minutes s)
    /\ last slots = Some final
    /\ endTime final = formatMinutes (totalMinutes s + 30 * length slots)
    /\ totalMinutes e <= totalMinutes s + 30 * length slots < totalMinutes e + 30.
Proof.
  intros Hs He Hlt. rewrite (generateTimeSlots_loopSlots _ _ s e Hs He).
  set (n := (totalMinutes e - totalMinutes s + 29) / 30).
  assert (30 * (n - 1) < totalMinutes e - totalMinutes s <= 30 * n) as Hn.
  { subst n.
    pose proof (Nat.div_mod_eq (totalMinutes e - totalMinutes s + 29) 30) as H1.
    pose proof (Nat.mod_upper_bound (totalMinutes e - totalMinutes s + 29) 30
                  ltac:(lia)) as H2.
    lia. }
  destruct n as [|k]; [lia|].
  set (slots := loopSlots (hours s) (minutes s) (totalMinutes s) (S k)).
  assert (length slots = S k) as Hlen by apply loopSlots_length.
  destruct (slots !! k) as [final|] eqn:Efinal.
  2:{ apply lookup_ge_None in Efinal. lia. }
  destruct (slots !! 0) as [first|] eqn:Efirst.
  2:{ apply lookup_ge_None in Efirst. lia. }
  exists slots, first, final. split; [reflexivity|].
  pose proof (loopSlots_lookup _ _ _ _ _ _ Efirst) as (_ & Hfs & _).
  pose proof (loopSlots_lookup _ _ _ _ _ _ Efinal) as (_ & _ & Hfe).
  split; [rewrite head_lookup; exact Efirst|].
  split; [exact Hfs|].
  split; [rewrite last_lookup, Hlen; exact Efinal|].
  split; [rewrite Hfe, Hlen; f_equal; lia|].
  rewrite Hlen. lia.
Qed.

Lemma generateTimeSlots_covers_witness :
  exists slots first final,
    generateTimeSlots "9:00 AM" "9:45 AM" = Returns slots
    /\ head slots = Some first
    /\ startTime first = formatTime 9 0
    /\ last slots = Some final
    /\ endTime final = formatMinutes (540 + 30 * length slots)
    /\ 585 <= 540 + 30 * length slots < 585 + 30.
Proof.
  apply (generateTimeSlots_covers "9:00 AM" "9:45 AM"
           {| hours := 9; minutes := 0 |} {| hours := 9; minutes := 45 |});
    try reflexivity.
  vm_compute. lia.
Defined.

(** X7. Distinct start times: for a window that starts at a minute below
    60 of its hour and ends by the end of the day, the start time of the
    slot at index [i] parses back to minute [start + 30 i] of the day, so
    no two slots of the sequence have the same start time. *)
Theorem generateTimeSlots_start_times_distinct startText endText s e :
  parseTime startText = Returns s -> parseTime endText = Returns e ->
  minutes s < 60 -> totalMinutes e <= 1440 ->
  exists slots,
    generateTimeSlots startText endText = Returns slots
    /\ (forall i slot,
          slots !! i = Some slot ->
          exists t, parseTime (startTime slot) = Returns t
                    /\ totalMinutes t = totalMinutes s + 30 * i)
    /\ NoDup (map startTime slots).
Proof.
  intros Hs He Hmin Hend. rewrite (generateTimeSlots_loopSlots _ _ s e Hs He).
  set (n := (totalMinutes e - totalMinutes s + 29) / 30).
  set (slots := loopSlots (hours s) (minutes s) (totalMinutes s) n).
  assert (hours s = totalMinutes s / 60 /\ minutes s = totalMinutes s mod 60)
    as [Hh Hm].
  { unfold totalMinutes. split.
    - apply Nat.div_unique with (r := minutes s); lia.
    - apply Nat.mod_unique with (q := hours s); lia. }
  assert (forall i slot, slots !! i = Some slot ->
            startTime slot = formatMinutes (totalMinutes s + 30 * i)
            /\ totalMinutes s + 30 * i < 1440) as Hstart.
  { intros i slot Hi. apply loopSlots_lookup in Hi as (Hlt & Hst & _).
    split.
    - rewrite Hst. destruct i as [|i]; cbn [Nat.eqb]; [|reflexivity].
      unfold formatMinutes. rewrite Nat.mul_0_r, Nat.add_0_r, <- Hh, <- Hm.
      reflexivity.
    - subst n.
      pose proof (Nat.div_mod_eq (totalMinutes e - totalMinutes s + 29) 30) as H1.
      pose proof (Nat.mod_upper_bound (totalMinutes e - totalMinutes s + 29) 30
                    ltac:(lia)) as H2.
      lia. }
  assert (forall i slot, slots !! i = Some slot ->
            exists t, parseTime (startTime slot) = Returns t
                      /\ totalMinutes t = totalMinutes s + 30 * i) as Hparse.
  { intros i slot Hi. destruct (Hstart i slot Hi) as [-> Hlt].
    rewrite (parseTime_formatMinutes _ Hlt). eexists. split; [reflexivity|].
    unfold totalMinutes. cbn [hours minutes].
    pose proof (Nat.div_mod_eq (totalMinutes s + 30 * i) 60). unfold totalMinutes in *.
    lia. }
  exists slots. split; [reflexivity|]. split; [exact Hparse|].
  apply NoDup_alt. intros i j x Hi Hj.
  change (map startTime slots) with (startTime <$> slots) in Hi, Hj.
  rewrite list_lookup_fmap in Hi, Hj.
  destruct (slots !! i) as [a|] eqn:Ea; [|discriminate].
  destruct (slots !! j) as [b|] eqn:Eb; [|discriminate].
  cbn in Hi, Hj. injection Hi as Hi. injection Hj as Hj.
  destruct (Hparse i a Ea) as (ta & Hta & Hia).
  destruct (Hparse j b Eb) as (tb & Htb & Hjb).
  rewrite Hi in Hta. rewrite Hj in Htb. rewrite Hta in Htb.
  injection Htb as <-. lia.
Qed.

Lemma generateTimeSlots_start_times_distinct_witness :
  exists slots,
    generateTimeSlots "8:30 PM" "11:59 PM" = Returns slots
    /\ NoDup (map startTime slots).
Proof.
  destruct (generateTimeSlots_start_times_distinct "8:30 PM" "11:59 PM"
              {| hours := 20; minutes := 30 |} {| hours := 23; minutes := 59 |})
    as (slots & Hret & _ & Hnd).
  - reflexivity.
  - reflexivity.
  - vm_compute. lia.
  - vm_compute. lia.
  - exists slots. auto.
Defined.

(** ** Marking, booking and cancelling together *)

Lemma isSlotBooked_false_iff slot date doctorName appointments :
  isSlotBooked slot date doctorName appointments = false
  <-> forall appt, In appt appointments -> ~ bookedBy slot date doctorName appt.
Proof.
  rewrite <- not_true_iff_false, isSlotBooked_iff. split.
  - intros H appt Hin Hb. apply H. eauto.
  - intros H (appt & Hin & Hb). exact (H appt Hin Hb).
Qed.

Lemma isSlotBooked_app slot date doctorName l1 l2 :
  isSlotBooked slot date doctorName (l1 ++ l2)
  = isSlotBooked slot date doctorName l1 || isSlotBooked slot date doctorName l2.
Proof. unfold isSlotBooked. apply existsb_app. Qed.

(** X8. Appointments of other doctors or other dates do not touch a day:
    when no appointment has both the doctor name and the date, marking
    gives back the generated slots of a window unchanged, all available
    and none booked. *)
Theorem markBookedSlots_unrelated startText endText slots date doctorName appointments :
  generateTimeSlots startText endText = Returns slots ->
  (forall appt, In appt appointments ->
     Types.doctorName appt <> doctorName \/ appt_date appt <> date) ->
  markBookedSlots slots date doctorName appointments = slots.
Proof.
  intros Hgen Hother.
  assert (Forall (fun slot => isAvailable slot = true /\ isBooked slot = false
                              /\ Types.date slot = None) slots) as Hfresh.
  { unfold generateTimeSlots in Hgen.
    destruct (parseTime startText) as [s|]; [|discriminate].
    destruct (parseTime endText) as [e|]; [|discriminate].
    cbn [obind] in Hgen. injection Hgen as <-.
    apply slotLoop_Forall; [intros; repeat split | constructor]. }
  unfold markBookedSlots. rewrite <- (map_id slots) at 2.
  apply map_ext_in. intros slot Hin.
  rewrite Forall_forall in Hfresh.
  destruct (Hfresh slot (proj2 (list_elem_of_In _ _) Hin)) as (Ha & Hb & Hd).
  assert (isSlotBooked slot date doctorName appointments = false) as Hno.
  { apply isSlotBooked_false_iff. intros appt Happt (Hn & Hdt & _).
    destruct (Hother appt Happt); contradiction. }
  unfold markSlot. rewrite Hno. destruct slot; cbn in *. subst. reflexivity.
Qed.

Lemma markBookedSlots_unrelated_witness :
  markBookedSlots [mkSlot "9:00 AM" "9:30 AM"; mkSlot "9:30 AM" "10:00 AM"]
    "2025-11-18" "Dr. Smith" mockAppointments
  = [mkSlot "9:00 AM" "9:30 AM"; mkSlot "9:30 AM" "10:00 AM"].
Proof.
  apply (markBookedSlots_unrelated "9:00 AM" "10:00 AM").
  - reflexivity.
  - intros appt [<-|[<-|[]]]; right; vm_compute; discriminate.
Defined.

Lemma bookedBy_newAppointment slot doctor sel now isoNow :
  bookedBy slot (Booking.sel_date sel) (name doctor)
    (Booking.newAppointment doctor sel now isoNow)
  <-> startTime slot = Booking.sel_startTime sel
      /\ endTime slot = Booking.sel_endTime sel.
Proof.
  unfold bookedBy, Booking.newAppointment. cbn. split.
  - intros (_ & _ & H1 & H2). auto.
  - intros [H1 H2]. auto.
Qed.

(** X9. A confirmed booking shows in the grid: when no appointment of the
    ledger has the doctor, the date and the start time of the selected
    slot, [confirmBooking] appends one appointment built from the
    selection, reports success with a reference code and no error, and
    from then on a slot of that doctor and date is marked booked iff it
    was booked before or has the start and end time of the selection. *)
Theorem confirmBooking_books doctor sel now isoNow st appointments :
  Booking.selectedSlot st = Some sel ->
  (forall appt, In appt appointments ->
     slotKey appt <> (name doctor, Booking.sel_date sel, Booking.sel_startTime sel)) ->
  exists st',
    Booking.confirmBooking (Some doctor) now isoNow st appointments
    = (st', appointments ++ [Booking.newAppointment doctor sel now isoNow])
    /\ Booking.bookingSuccess st' = true
    /\ Booking.bookingError st' = None
    /\ Booking.bookingRef st'
       = Some (Booking.toRefCode (id (Booking.newAppointment doctor sel now isoNow)))
    /\ forall slot,
         isSlotBooked slot (Booking.sel_date sel) (name doctor)
           (appointments ++ [Booking.newAppointment doctor sel now isoNow]) = true
         <-> isSlotBooked slot (Booking.sel_date sel) (name doctor) appointments = true
             \/ (startTime slot = Booking.sel_startTime sel
                 /\ endTime slot = Booking.sel_endTime sel).
Proof.
  intros Hsel Hfree. unfold Booking.confirmBooking. rewrite Hsel.
  rewrite bookAppointment_fresh by exact Hfree.
  eexists. split; [reflexivity|]. cbn.
  split; [reflexivity|]. split; [reflexivity|]. split; [reflexivity|].
  intros slot. rewrite isSlotBooked_app, orb_true_iff.
  apply or_iff_compat_l.
  rewrite isSlotBooked_iff. split.
  - intros (appt & [<-|[]] & Hb). apply bookedBy_newAppointment in Hb. exact Hb.
  - intros H. eexists. split; [left; reflexivity|].
    apply bookedBy_newAppointment, H.
Qed.

Lemma confirmBooking_books_witness :
  exists st',
    Booking.confirmBooking (Some mockSmith) 1763312400000 "2025-11-16T17:00:00.000Z"
      {| Booking.showDialog := true;
         Booking.selectedSlot :=
           Some {| Booking.sel_startTime := "9:30 AM"; Booking.sel_endTime := "10:00 AM";
                   Booking.sel_isAvailable := true; Booking.sel_isBooked := false;
                   Booking.sel_date := "2025-11-17"; Booking.sel_dayOfWeek := "Monday" |};
         Booking.bookingError := None; Booking.bookingSuccess := false;
         Booking.bookingRef := None |}
      mockAppointments
    = (st', mockAppointments
            ++ [Booking.newAppointment mockSmith
                  {| Booking.sel_startTime := "9:30 AM"; Booking.sel_endTime := "10:00 AM";
                     Booking.sel_isAvailable := true; Booking.sel_isBooked := false;
                     Booking.sel_date := "2025-11-17"; Booking.sel_dayOfWeek := "Monday" |}
                  1763312400000 "2025-11-16T17:00:00.000Z"])
    /\ Booking.bookingSuccess st' = true.
Proof.
  destruct (confirmBooking_books mockSmith
              {| Booking.sel_startTime := "9:30 AM"; Booking.sel_endTime := "10:00 AM";
                 Booking.sel_isAvailable := true; Booking.sel_isBooked := false;
                 Booking.sel_date := "2025-11-17"; Booking.sel_dayOfWeek := "Monday" |}
              1763312400000 "2025-11-16T17:00:00.000Z"
              {| Booking.showDialog := true;
                 Booking.selectedSlot :=
                   Some {| Booking.sel_startTime := "9:30 AM";
                           Booking.sel_endTime := "10:00 AM";
                           Booking.sel_isAvailable := true; Booking.sel_isBooked := false;
                           Booking.sel_date := "2025-11-17";
                           Booking.sel_dayOfWeek := "Monday" |};
                 Booking.bookingError := None; Booking.bookingSuccess := false;
                 Booking.bookingRef := None |}
              mockAppointments) as (st' & Hret & Hok & _).
  - reflexivity.
  - intros appt [<-|[<-|[]]]; vm_compute; discriminate.
  - exists st'. auto.
Defined.

(** X10. A slot the grid marks as booked cannot be selected or booked: the
    grid emits a selection for a marked slot iff no appointment books it,
    and whenever an appointment books a slot, a booking for that doctor,
    date and start time throws the duplicate-slot error and leaves the
    ledger as it is. *)
Theorem booked_slot_is_closed slot date doctorName appointments :
  (forall dayInfo,
     Booking.handleSlotClick dayInfo (markSlot date doctorName appointments slot) <> None
     <-> isSlotBooked slot date doctorName appointments = false)
  /\ (isSlotBooked slot date doctorName appointments = true ->
      forall appointment,
        slotKey appointment = (doctorName, date, startTime slot) ->
        Store.bookAppointment appointment appointments
        = (Throws "This time slot is already booked", appointments)).
Proof.
  split.
  - intros dayInfo. unfold Booking.handleSlotClick, markSlot. cbn.
    destruct (isSlotBooked slot date doctorName appointments); cbn; split;
      congruence.
  - intros Hbooked appointment Hkey.
    apply isSlotBooked_iff in Hbooked as (appt & Hin & Hn & Hd & Hs & _).
    apply bookAppointment_duplicate. exists appt. split; [exact Hin|].
    rewrite Hkey. unfold slotKey. rewrite Hn, Hd, Hs. reflexivity.
Qed.

Lemma booked_slot_is_closed_witness :
  Store.bookAppointment mockAppointment mockAppointments
  = (Throws "This time slot is already booked", mockAppointments).
Proof.
  apply (proj2 (booked_slot_is_closed (mkSlot "9:00 AM" "9:30 AM")
                  "2025-11-17" "Dr. Smith" mockAppointments)); reflexivity.
Defined.

(** X11. Cancelling frees the slot: when the cancelled appointment is the
    only one of the ledger that books a slot, the slot is no longer marked
    as booked afterwards, and every slot it did not book is marked as
    before. *)
Theorem cancelAppointment_frees_slot appointmentId before appt after slot date doctorName :
  id appt = appointmentId ->
  (forall b, In b before -> id b <> appointmentId) ->
  bookedBy slot date doctorName appt ->
  (forall other, In other (before ++ after) -> ~ bookedBy slot date doctorName other) ->
  Store.cancelAppointment appointmentId (before ++ appt :: after)
  = (Returns tt, before ++ after)
  /\ isSlotBooked slot date doctorName (before ++ appt :: after) = true
  /\ isSlotBooked slot date doctorName (before ++ after) = false
  /\ forall slot' date' doctorName',
       ~ bookedBy slot' date' doctorName' appt ->
       isSlotBooked slot' date' doctorName' (before ++ after)
       = isSlotBooked slot' date' doctorName' (before ++ appt :: after).
Proof.
  intros Hid Hbefore Hbooks Honly.
  split; [apply cancelAppointment_first; assumption|].
  split; [|split].
  - apply isSlotBooked_iff. exists appt. split; [|exact Hbooks].
    apply in_or_app. simpl. auto.
  - apply isSlotBooked_false_iff. exact Honly.
  - intros slot' date' doctorName' Hnot.
    change (appt :: after) with ([appt] ++ after).
    rewrite !isSlotBooked_app.
    assert (isSlotBooked slot' date' doctorName' [appt] = false) as ->.
    { apply isSlotBooked_false_iff. intros a [<-|[]]. exact Hnot. }
    reflexivity.
Qed.

Lemma cancelAppointment_frees_slot_witness :
  Store.cancelAppointment "1" ([] ++ mockAppointment :: [mockAppointment2])
  = (Returns tt, [] ++ [mockAppointment2])
  /\ isSlotBooked (mkSlot "9:00 AM" "9:30 AM") "2025-11-17" "Dr. Smith"
       ([] ++ [mockAppointment2]) = false.
Proof.
  destruct (cancelAppointment_frees_slot "1" [] mockAppointment [mockAppointment2]
              (mkSlot "9:00 AM" "9:30 AM") "2025-11-17" "Dr. Smith")
    as (Hc & _ & Hfree & _).
  - reflexivity.
  - intros b [].
  - vm_compute. auto.
  - intros other [<-|[]]. vm_compute. intros (_ & _ & H & _). discriminate H.
  - auto.
Defined.

(** X12. Booking and then cancelling the new appointment restores the
    ledger, provided its id is not the id of an appointment already in the
    ledger and its slot is free. *)
Theorem book_then_cancel appointment appointments :
  (forall appt, In appt appointments -> slotKey appt <> slotKey appointment) ->
  (forall appt, In appt appointments -> id appt <> id appointment) ->
  exists appointments',
    Store.bookAppointment appointment appointments = (Returns tt, appointments')
    /\ Store.cancelAppointment (id appointment) appointments'
       = (Returns tt, appointments).
Proof.
  intros Hfree Hid. exists (appointments ++ [appointment]).
  split; [apply bookAppointment_fresh, Hfree|].
  rewrite <- (app_nil_r appointments) at 2.
  apply cancelAppointment_first; [reflexivity | exact Hid].
Qed.

Lemma book_then_cancel_witness :
  exists appointments',
    Store.bookAppointment mockAppointment2 [mockAppointment]
    = (Returns tt, appointments')
    /\ Store.cancelAppointment (id mockAppointment2) appointments'
       = (Returns tt, [mockAppointment]).
Proof.
  apply (book_then_cancel mockAppointment2 [mockAppointment]);
    intros appt [<-|[]]; vm_compute; discriminate.
Defined.

Lemma getAppointmentsByDoctor_app l1 l2 doctorName :
  Store.getAppointmentsByDoctor (l1 ++ l2) doctorName
  = Store.getAppointmentsByDoctor l1 doctorName
    ++ Store.getAppointmentsByDoctor l2 doctorName.
Proof. unfold Store.getAppointmentsByDoctor. apply List.filter_app. Qed.

Lemma NoDup_map_filter {A B} (f : A -> B) (p : A -> bool) l :
  NoDup (map f l) -> NoDup (map f (List.filter p l)).
Proof.
  induction l as [|x l IH]; simpl; [auto|].
  intros Hnd. apply NoDup_cons in Hnd as [Hx Hnd].
  destruct (p x); simpl; [|auto].
  apply NoDup_cons. split; [|auto].
  intros Hin. apply Hx. apply list_elem_of_In in Hin.
  apply list_elem_of_In. apply in_map_iff in Hin as (y & Hy & Hin).
  apply filter_In in Hin as [Hin _]. apply in_map_iff. eauto.
Qed.

(** X13. The appointments of one doctor: a successful booking adds the
    appointment at the end of that doctor's list and leaves the list of
    every other doctor as it is; and in a ledger reached from the empty
    one, no two appointments of a doctor's list have the same date and
    start time. *)
Theorem getAppointmentsByDoctor_booking :
  (forall appointment appointments appointments' doctorName,
     Store.bookAppointment appointment appointments = (Returns tt, appointments') ->
     Store.getAppointmentsByDoctor appointments' doctorName
     = Store.getAppointmentsByDoctor appointments doctorName
       ++ (if String.eqb (Types.doctorName appointment) doctorName
           then [appointment] else []))
  /\ (forall ops doctorName,
        NoDup (map (fun appt => (appt_date appt, appt_startTime appt))
                 (Store.getAppointmentsByDoctor (Store.runOps ops []) doctorName))).
Proof.
  split.
  - intros appointment appointments appointments' doctorName Hbook.
    destruct (bookAppointment_cases appointment appointments) as [[_ H]|[_ H]];
      rewrite H in Hbook; [discriminate|].
    injection Hbook as <-. rewrite getAppointmentsByDoctor_app.
    unfold Store.getAppointmentsByDoctor at 3. cbn. unfold strictEq.
    destruct (String.eqb (Types.doctorName appointment) doctorName); reflexivity.
  - intros ops doctorName.
    pose proof (runOps_unique ops [] (NoDup_nil_2 (A:=_))) as Hnd.
    apply (NoDup_map_filter slotKey
             (fun appt => strictEq (Types.doctorName appt) doctorName)) in Hnd.
    fold (Store.getAppointmentsByDoctor (Store.runOps ops []) doctorName) in Hnd.
    set (l := Store.getAppointmentsByDoctor (Store.runOps ops []) doctorName) in *.
    assert (forall a, In a l -> Types.doctorName a = doctorName) as Hname.
    { intros a Ha. apply filter_In in Ha as [_ Ha]. apply strictEq_eq, Ha. }
    clearbody l. induction l as [|a l IH]; [constructor|].
    cbn [map] in *. apply NoDup_cons in Hnd as [Ha Hnd].
    apply NoDup_cons. split.
    + intros Hin. apply Ha. apply list_elem_of_In in Hin.
      apply list_elem_of_In. apply in_map_iff in Hin as (b & Hb & Hin).
      apply in_map_iff. exists b. split; [|exact Hin].
      unfold slotKey. injection Hb as Hd Hs.
      rewrite (Hname a), (Hname b), Hd, Hs by (simpl; auto). reflexivity.
    + apply IH; [exact Hnd|]. intros b Hb. apply Hname. simpl. auto.
Qed.

Lemma getAppointmentsByDoctor_booking_witness :
  Store.getAppointmentsByDoctor ([mockAppointment] ++ [mockAppointment2]) "Dr. Smith"
  = Store.getAppointmentsByDoctor [mockAppointment] "Dr. Smith"
    ++ (if String.eqb (doctorName mockAppointment2) "Dr. Smith"
        then [mockAppointment2] else []).
Proof.
  apply (proj1 getAppointmentsByDoctor_booking mockAppointment2 [mockAppointment]).
  reflexivity.
Defined.

(** ** The two views of the ledger *)

Lemma filter_split {A} (p q r : A -> bool) l :
  (forall x, r x = p x || q x) -> (forall x, p x && q x = false) ->
  Permutation (List.filter p l ++ List.filter q l) (List.filter r l).
Proof.
  intros Hr Hpq. induction l as [|x l IH]; simpl; [constructor|].
  rewrite (Hr x). specialize (Hpq x).
  destruct (p x), (q x); try discriminate; simpl.
  - constructor. exact IH.
  - rewrite <- Permutation_middle. constructor. exact IH.
  - exact IH.
Qed.

Lemma filter_all {A} (l : list A) : List.filter (fun _ => true) l = l.
Proof. induction l as [|x l IH]; simpl; [reflexivity|]. rewrite IH. reflexivity. Qed.

(** X14. The two views split the appointments with a valid date: taken
    together, [upcomingAppointments] and [pastAppointments] hold each
    appointment whose date parses exactly once, and no appointment whose
    date does not parse; so [appointmentCount] is the sum of the two
    lengths plus the number of appointments with an invalid date. *)
Theorem views_partition parseDate now appointments :
  Permutation
    (Store.upcomingAppointments parseDate now appointments
     ++ Store.pastAppointments parseDate now appointments)
    (List.filter (hasValidDate parseDate) appointments)
  /\ Getters.appointmentCount appointments
     = length (Store.upcomingAppointments parseDate now appointments)
       + length (Store.pastAppointments parseDate now appointments)
       + length (List.filter (fun appt => negb (hasValidDate parseDate appt))
                   appointments).
Proof.
  assert (Permutation
            (Store.upcomingAppointments parseDate now appointments
             ++ Store.pastAppointments parseDate now appointments)
            (List.filter (hasValidDate parseDate) appointments)) as Hperm.
  { unfold Store.upcomingAppointments, Store.pastAppointments.
    rewrite !sort_Permutation. apply filter_split.
    - intros a. unfold hasValidDate, Store.dateGe, Store.dateLt.
      destruct (parseDate (appt_date a)) as [t|]; [|reflexivity].
      destruct (Z.leb_spec now t), (Z.ltb_spec t now); try reflexivity; lia.
    - intros a. unfold Store.dateGe, Store.dateLt.
      destruct (parseDate (appt_date a)) as [t|]; [|reflexivity].
      destruct (Z.leb_spec now t), (Z.ltb_spec t now); try reflexivity; lia. }
  split; [exact Hperm|].
  unfold Getters.appointmentCount.
  rewrite <- length_app, (Permutation_length Hperm).
  rewrite <- length_app.
  apply Permutation_length. symmetry.
  rewrite <- (filter_all appointments) at 3.
  apply (filter_split _ _ (fun _ => true)).
  - intros a. destruct (hasValidDate parseDate a); reflexivity.
  - intros a. destruct (hasValidDate parseDate a); reflexivity.
Qed.

Lemma filter_filter {A} (p q : A -> bool) l :
  List.filter p (List.filter q l) = List.filter (fun x => p x && q x) l.
Proof.
  induction l as [|x l IH]; simpl; [reflexivity|].
  destruct (q x); simpl; rewrite ?andb_true_r, ?andb_false_r.
  - destruct (p x); rewrite IH; reflexivity.
  - exact IH.
Qed.

Lemma filter_none {A} (p : A -> bool) l :
  (forall x, In x l -> p x = false) -> List.filter p l = [].
Proof.
  induction l as [|x l IH]; simpl; [reflexivity|]. intros H.
  rewrite (H x) by auto. apply IH. intros y Hy. apply H. auto.
Qed.

Lemma filter_dated_upcoming parseDate now t appointments :
  List.filter (isDatedAt parseDate t)
    (List.filter (fun appt => Store.dateGe (parseDate (appt_date appt)) now) appointments)
  = if (now <=? t)%Z then List.filter (isDatedAt parseDate t) appointments else [].
Proof.
  rewrite filter_filter. destruct (Z.leb_spec now t) as [Hle|Hgt].
  - apply filter_ext. intros a. unfold isDatedAt, Store.dateGe.
    destruct (parseDate (appt_date a)) as [t'|]; [|reflexivity].
    destruct (Z.eqb_spec t' t) as [->|_]; [|reflexivity].
    cbn. apply Z.leb_le, Hle.
  - apply filter_none. intros a _. unfold isDatedAt, Store.dateGe.
    destruct (parseDate (appt_date a)) as [t'|]; [|reflexivity].
    destruct (Z.eqb_spec t' t) as [->|_]; [|reflexivity].
    cbn. apply Z.leb_gt, Hgt.
Qed.

Lemma filter_dated_past parseDate now t appointments :
  List.filter (isDatedAt parseDate t)
    (List.filter (fun appt => Store.dateLt (parseDate (appt_date appt)) now) appointments)
  = if (t <? now)%Z then List.filter (isDatedAt parseDate t) appointments else [].
Proof.
  rewrite filter_filter. destruct (Z.ltb_spec t now) as [Hlt|Hge].
  - apply filter_ext. intros a. unfold isDatedAt, Store.dateLt.
    destruct (parseDate (appt_date a)) as [t'|]; [|reflexivity].
    destruct (Z.eqb_spec t' t) as [->|_]; [|reflexivity].
    cbn. apply Z.ltb_lt, Hlt.
  - apply filter_none. intros a _. unfold isDatedAt, Store.dateLt.
    destruct (parseDate (appt_date a)) as [t'|]; [|reflexivity].
    destruct (Z.eqb_spec t' t) as [->|_]; [|reflexivity].
    cbn. apply Z.ltb_ge, Hge.
Qed.

(** X15. Within one date the views keep the booking order: the
    appointments of a view whose date parses to a given time value are the
    appointments of the ledger with that date, in the order of the ledger,
    whatever their start times (and they are all in the upcoming view or
    all in the past view). *)
Theorem views_keep_booking_order parseDate now appointments t :
  List.filter (isDatedAt parseDate t)
    (Store.upcomingAppointments parseDate now appointments)
  = (if (now <=? t)%Z then List.filter (isDatedAt parseDate t) appointments else [])
  /\ List.filter (isDatedAt parseDate t)
       (Store.pastAppointments parseDate now appointments)
     = (if (t <? now)%Z then List.filter (isDatedAt parseDate t) appointments else []).
Proof.
  split.
  - rewrite <- filter_dated_upcoming. unfold Store.upcomingAppointments.
    set (l := List.filter _ appointments).
    set (key := fun a => default 0%Z (parseDate (appt_date a))).
    assert (forall a, In a l -> exists ta, parseDate (appt_date a) = Some ta) as Hvalid.
    { intros a Ha. apply filter_In in Ha as [_ Ha].
      apply dateGe_iff in Ha as (ta & Hta & _). eauto. }
    assert (forall (l' : list Appointment),
              (forall a, In a l' -> In a l) ->
              List.filter (isDatedAt parseDate t) l'
              = List.filter (fun a => (key a =? t)%Z) l') as Hsame.
    { intros l' Hsub. apply filter_ext_in. intros a Ha.
      destruct (Hvalid a (Hsub a Ha)) as (ta & Hta).
      unfold isDatedAt, key. rewrite Hta. reflexivity. }
    rewrite (Hsame l) by auto.
    rewrite Hsame
      by (intros a; apply Permutation_in, sort_Permutation).
    apply sort_stable. intros a b Ha Hb.
    destruct (Hvalid a Ha) as (ta & Hta). destruct (Hvalid b Hb) as (tb & Htb).
    unfold key. rewrite Hta, Htb. reflexivity.
  - rewrite <- filter_dated_past. unfold Store.pastAppointments.
    set (l := List.filter _ appointments).
    set (key := fun a => (- default 0 (parseDate (appt_date a)))%Z).
    assert (forall a, In a l -> exists ta, parseDate (appt_date a) = Some ta) as Hvalid.
    { intros a Ha. apply filter_In in Ha as [_ Ha].
      apply dateLt_iff in Ha as (ta & Hta & _). eauto. }
    assert (forall (l' : list Appointment),
              (forall a, In a l' -> In a l) ->
              List.filter (isDatedAt parseDate t) l'
              = List.filter (fun a => (key a =? - t)%Z) l') as Hsame.
    { intros l' Hsub. apply filter_ext_in. intros a Ha.
      destruct (Hvalid a (Hsub a Ha)) as (ta & Hta).
      unfold isDatedAt, key. rewrite Hta. cbn.
      destruct (Z.eqb_spec ta t), (Z.eqb_spec (- ta) (- t)); try reflexivity; lia. }
    rewrite (Hsame l) by auto.
    rewrite Hsame
      by (intros a; apply Permutation_in, sort_Permutation).
    apply sort_stable. intros a b Ha Hb.
    destruct (Hvalid a Ha) as (ta & Hta). destruct (Hvalid b Hb) as (tb & Htb).
    unfold key. rewrite Hta, Htb. cbn. f_equal. lia.
Qed.

(** X16. Every appointment a view shows can be cancelled from the list:
    for an appointment of the upcoming or of the past view, [confirmCancel]
    reports no error, closes the dialog and removes one entry of the
    ledger, the first one with the id of that appointment. *)
Theorem confirmCancel_from_view parseDate now appointments appointment st :
  In appointment (Store.upcomingAppointments parseDate now appointments
                  ++ Store.pastAppointments parseDate now appointments) ->
  Booking.appointmentToCancel st = Some appointment ->
  exists before first after,
    appointments = before ++ first :: after
    /\ id first = id appointment
    /\ (forall b, In b before -> id b <> id appointment)
    /\ Booking.confirmCancel st appointments
       = ({| Booking.showCancelDialog := false; Booking.appointmentToCancel := None;
             Booking.cancelError := Booking.cancelError st |},
          before ++ after).
Proof.
  intros Hshown Hst.
  assert (In appointment appointments) as Hin.
  { apply in_app_or in Hshown as [H|H].
    - apply upcomingAppointments_In in H. tauto.
    - apply pastAppointments_In in H. tauto. }
  destruct (first_with_id (id appointment) appointments)
    as (before & first & after & -> & Hid & Hbefore); [eauto|].
  exists before, first, after. repeat split; auto.
  unfold Booking.confirmCancel. rewrite Hst.
  rewrite (cancelAppointment_first (id appointment) before first after Hid Hbefore).
  reflexivity.
Qed.

Lemma confirmCancel_from_view_witness :
  exists before first after,
    mockAppointments = before ++ first :: after
    /\ id first = id mockAppointment2
    /\ (forall b, In b before -> id b <> id mockAppointment2)
    /\ Booking.confirmCancel
         (Booking.openCancelDialog mockAppointment2
            {| Booking.showCancelDialog := false; Booking.appointmentToCancel := None;
               Booking.cancelError := None |})
         mockAppointments
       = ({| Booking.showCancelDialog := false; Booking.appointmentToCancel := None;
             Booking.cancelError := None |},
          before ++ after).
Proof.
  apply (confirmCancel_from_view JSDate.parseDateOnly 0 mockAppointments mockAppointment2).
  - vm_compute. auto.
  - reflexivity.
Defined.

(** ** Grouping, in closed form *)

Lemma existsb_eqb_In x (l : list string) : existsb (String.eqb x) l = true <-> In x l.
Proof.
  rewrite existsb_exists. split.
  - intros (y & Hy & Heq). apply String.eqb_eq in Heq. subst. exact Hy.
  - intros H. exists x. split; [exact H | apply String.eqb_refl].
Qed.

Lemma JSSet_add_In s x y : In y (JSSet.add s x) <-> In y s \/ y = x.
Proof.
  unfold JSSet.add. destruct (existsb (String.eqb x) s) eqn:E.
  - apply existsb_eqb_In in E. split; [auto|]. intros [H| ->]; assumption.
  - rewrite in_app_iff. simpl. split; intros [H|H]; auto.
    + destruct H as [<-|[]]. auto.
Qed.

Lemma JSSet_add_NoDup s x : NoDup s -> NoDup (JSSet.add s x).
Proof.
  intros Hnd. unfold JSSet.add. destruct (existsb (String.eqb x) s) eqn:E; [exact Hnd|].
  apply NoDup_app. split; [exact Hnd|]. split; [|apply NoDup_singleton].
  intros y Hy Hy'. apply list_elem_of_singleton in Hy'. subst y.
  apply list_elem_of_In, existsb_eqb_In in Hy. rewrite Hy in E. discriminate.
Qed.

Lemma JSSet_fromList_snoc l x :
  JSSet.fromList (l ++ [x]) = JSSet.add (JSSet.fromList l) x.
Proof. unfold JSSet.fromList. rewrite fold_left_app. reflexivity. Qed.

(** A set built from a list has the elements of the list, each once. *)
Lemma JSSet_fromList_spec l :
  NoDup (JSSet.fromList l) /\ forall x, In x (JSSet.fromList l) <-> In x l.
Proof.
  induction l as [|y l IH] using rev_ind.
  - split; [constructor|]. intros x. reflexivity.
  - destruct IH as [Hnd Hin]. rewrite JSSet_fromList_snoc. split.
    + apply JSSet_add_NoDup, Hnd.
    + intros x. rewrite JSSet_add_In, Hin, in_app_iff. simpl. intuition.
Qed.

Lemma JSMap_set_present {V} (f : string -> V) keys k v :
  NoDup keys -> In k keys ->
  JSMap.set (map (fun n => (n, f n)) keys) k v
  = map (fun n => (n, if String.eqb n k then v else f n)) keys.
Proof.
  induction keys as [|n keys IH]; [intros _ []|].
  intros Hnd Hin. apply NoDup_cons in Hnd as [Hn Hnd]. cbn [map JSMap.set].
  destruct (String.eqb_spec n k) as [->|Hne].
  - f_equal. apply map_ext_in. intros n Hn'.
    destruct (String.eqb_spec n k) as [->|_]; [|reflexivity].
    exfalso. apply Hn, list_elem_of_In, Hn'.
  - destruct Hin as [->|Hin]; [contradiction|].
    rewrite (IH Hnd Hin). reflexivity.
Qed.

Lemma JSMap_set_absent {V} (f : string -> V) keys k v :
  ~ In k keys ->
  JSMap.set (map (fun n => (n, f n)) keys) k v
  = map (fun n => (n, f n)) keys ++ [(k, v)].
Proof.
  induction keys as [|n keys IH]; [reflexivity|].
  intros Hnot. cbn [map JSMap.set].
  destruct (String.eqb_spec n k) as [->|Hne].
  - exfalso. apply Hnot. simpl. auto.
  - rewrite IH by (intros H; apply Hnot; simpl; auto). reflexivity.
Qed.

Lemma JSMap_get_keys {V} (f : string -> V) keys k :
  JSMap.get (map (fun n => (n, f n)) keys) k
  = if existsb (String.eqb k) keys then Some (f k) else None.
Proof.
  induction keys as [|n keys IH]; [reflexivity|].
  cbn [map JSMap.get existsb]. rewrite (String.eqb_sym k n).
  destruct (String.eqb_spec n k) as [->|Hne]; [reflexivity|]. exact IH.
Qed.

Lemma firstTimezone_snoc n records r :
  firstTimezone n (records ++ [r])
  = if existsb (String.eqb n) (map raw_name records) then firstTimezone n records
    else if String.eqb (raw_name r) n then raw_timezone r else EmptyString.
Proof.
  unfold firstTimezone. induction records as [|r0 records IH]; cbn.
  - destruct (String.eqb (raw_name r) n); reflexivity.
  - rewrite (String.eqb_sym n (raw_name r0)).
    destruct (String.eqb (raw_name r0) n); [reflexivity|]. exact IH.
Qed.

Lemma doctorOf_snoc records r n :
  doctorOf (records ++ [r]) n
  = if String.eqb (raw_name r) n
    then pushSchedule
           (if existsb (String.eqb n) (map raw_name records) then doctorOf records n
            else {| name := n; timezone := raw_timezone r; schedules := [] |})
           (windowOf r)
    else doctorOf records n.
Proof.
  unfold doctorOf, pushSchedule. rewrite windowsOf_snoc, firstTimezone_snoc.
  destruct (String.eqb (raw_name r) n) eqn:E.
  - destruct (existsb (String.eqb n) (map raw_name records)) eqn:Ex; cbn.
    + reflexivity.
    + rewrite windowsOf_absent; [reflexivity|].
      intros H. apply existsb_eqb_In in H. rewrite H in Ex. discriminate.
  - rewrite app_nil_r.
    destruct (existsb (String.eqb n) (map raw_name records)) eqn:Ex; [reflexivity|].
    f_equal. unfold firstTimezone.
    destruct (List.find _ records) as [r0|] eqn:F; [|reflexivity].
    apply List.find_some in F as [Hin Heq]. apply String.eqb_eq in Heq.
    exfalso. assert (existsb (String.eqb n) (map raw_name records) = true) as Habs.
    { apply existsb_eqb_In, in_map_iff. eauto. }
    rewrite Habs in Ex. discriminate.
Qed.

(** One step of the grouping on the entries in closed form. *)
Lemma groupStep_entriesOf done r :
  groupStep (entriesOf done) r = Returns (entriesOf (done ++ [r])).
Proof.
  destruct (JSSet_fromList_spec (map raw_name done)) as [Hnd Hin].
  unfold groupStep, entriesOf.
  rewrite map_app. cbn [map]. rewrite JSSet_fromList_snoc.
  set (keys := JSSet.fromList (map raw_name done)) in *.
  set (k := raw_name r).
  unfold JSMap.has. rewrite JSMap_get_keys. unfold JSSet.add.
  destruct (existsb (String.eqb k) keys) eqn:Ex; cbn [negb].
  - (* the name is known *)
    rewrite JSMap_get_keys, Ex.
    apply existsb_eqb_In in Ex as Hk.
    rewrite JSMap_set_present by assumption.
    f_equal. apply map_ext_in. intros n Hn. f_equal.
    rewrite doctorOf_snoc. fold k. rewrite (String.eqb_sym k n).
    destruct (String.eqb_spec n k) as [->|_]; [|reflexivity].
    assert (existsb (String.eqb k) (map raw_name done) = true) as ->
      by (apply existsb_eqb_In, Hin, Hk).
    reflexivity.
  - (* a new name *)
    assert (~ In k keys) as Hk.
    { intros H. apply existsb_eqb_In in H. rewrite H in Ex. discriminate. }
    rewrite JSMap_set_absent by exact Hk.
    assert (forall (m : JSMap.t Doctor) v,
              ~ In k (map fst m) -> JSMap.get (m ++ [(k, v)]) k = Some v) as Hlast.
    { intros m v. induction m as [|[k0 v0] m IHm]; cbn; intros Hno.
      - rewrite String.eqb_refl. reflexivity.
      - destruct (String.eqb_spec k0 k) as [->|_]; [exfalso; auto|].
        apply IHm. auto. }
    assert (forall (m : JSMap.t Doctor) v v',
              ~ In k (map fst m) ->
              JSMap.set (m ++ [(k, v)]) k v' = m ++ [(k, v')]) as Hset.
    { intros m v v'. induction m as [|[k0 v0] m IHm]; cbn; intros Hno.
      - rewrite String.eqb_refl. reflexivity.
      - destruct (String.eqb_spec k0 k) as [->|_]; [exfalso; auto|].
        rewrite IHm by auto. reflexivity. }
    assert (~ In k (map fst (map (fun n => (n, doctorOf done n)) keys))) as Hk'.
    { rewrite map_map. cbn. rewrite map_id. exact Hk. }
    rewrite Hlast, Hset by exact Hk'.
    rewrite map_app. cbn [map]. f_equal. f_equal.
    + apply map_ext_in. intros n Hn. f_equal. rewrite doctorOf_snoc. fold k.
      destruct (String.eqb_spec k n) as [<-|_]; [contradiction|reflexivity].
    + f_equal. f_equal. rewrite doctorOf_snoc. fold k. rewrite String.eqb_refl.
      assert (existsb (String.eqb k) (map raw_name done) = false) as ->.
      { apply not_true_is_false. intros H. apply existsb_eqb_In in H.
        apply Hk, Hin, H. }
      reflexivity.
Qed.

Lemma forEachStep_entriesOf rest : forall done,
  forEachStep (entriesOf done) rest = Returns (entriesOf (done ++ rest)).
Proof.
  induction rest as [|r rest IH]; intros done; cbn [forEachStep].
  - rewrite app_nil_r. reflexivity.
  - rewrite groupStep_entriesOf. cbn [obind]. rewrite IH, <- app_assoc. reflexivity.
Qed.

Lemma groupSchedulesByDoctor_closed records :
  groupSchedulesByDoctor records
  = Returns (map (doctorOf records) (JSSet.fromList (map raw_name records))).
Proof.
  unfold groupSchedulesByDoctor.
  change JSMap.empty with (entriesOf []).
  rewrite forEachStep_entriesOf. cbn [obind app].
  unfold JSMap.values, entriesOf. rewrite map_map. reflexivity.
Qed.

Lemma find_first_record before r after :
  (forall b, In b before -> raw_name b <> raw_name r) ->
  List.find (fun r0 => String.eqb (raw_name r0) (raw_name r)) (before ++ r :: after)
  = Some r.
Proof.
  intros Hfirst. induction before as [|b before IH]; cbn.
  - rewrite String.eqb_refl. reflexivity.
  - destruct (String.eqb_spec (raw_name b) (raw_name r)) as [Heq|_].
    + exfalso. apply (Hfirst b); simpl; auto.
    + apply IH. intros b' Hb'. apply Hfirst. simpl. auto.
Qed.

(** X17. Grouping in closed form: [groupSchedulesByDoctor] returns one
    doctor per name, the names in the order in which a [Set] would collect
    them from the records (a record with a new name adds a doctor at the
    end, a record with a known name moves nothing); each doctor has the
    time zone of the first record with that name, whatever the later
    records say, and the trimmed windows of all the records with that name,
    in order. *)
Theorem groupSchedulesByDoctor_first_appearance records :
  groupSchedulesByDoctor records
  = Returns (map (doctorOf records) (JSSet.fromList (map raw_name records)))
  /\ NoDup (JSSet.fromList (map raw_name records))
  /\ (forall n, In n (JSSet.fromList (map raw_name records))
                <-> In n (map raw_name records))
  /\ (forall r,
        JSSet.fromList (map raw_name (records ++ [r]))
        = if existsb (String.eqb (raw_name r)) (map raw_name records)
          then JSSet.fromList (map raw_name records)
          else JSSet.fromList (map raw_name records) ++ [raw_name r])
  /\ (forall before r after,
        records = before ++ r :: after ->
        (forall b, In b before -> raw_name b <> raw_name r) ->
        timezone (doctorOf records (raw_name r)) = raw_timezone r).
Proof.
  split; [apply groupSchedulesByDoctor_closed|].
  destruct (JSSet_fromList_spec (map raw_name records)) as [Hnd Hin].
  split; [exact Hnd|]. split; [exact Hin|]. split.
  - intros r. rewrite map_app. cbn [map]. rewrite JSSet_fromList_snoc.
    unfold JSSet.add.
    destruct (existsb (String.eqb (raw_name r)) (JSSet.fromList (map raw_name records)))
      eqn:E.
    + apply existsb_eqb_In, Hin, existsb_eqb_In in E. rewrite E. reflexivity.
    + destruct (existsb (String.eqb (raw_name r)) (map raw_name records)) eqn:E';
        [|reflexivity].
      apply existsb_eqb_In, Hin, existsb_eqb_In in E'. rewrite E' in E. discriminate.
  - intros before r after -> Hfirst.
    unfold doctorOf, firstTimezone. cbn [timezone].
    rewrite (find_first_record before r after Hfirst). reflexivity.
Qed.

Lemma groupSchedulesByDoctor_first_appearance_witness :
  timezone (doctorOf mockDoctorScheduleRaw "Dr. Johnson") = "America/Los_Angeles".
Proof.
  apply (proj2 (proj2 (proj2 (proj2
           (groupSchedulesByDoctor_first_appearance mockDoctorScheduleRaw))))
           (firstn 2 mockDoctorScheduleRaw)
           {| raw_name := "Dr. Johnson"; raw_timezone := "America/Los_Angeles";
              day_of_week := "Monday"; available_at := "10:00 AM";
              available_until := "6:00 PM" |}
           []).
  - reflexivity.
  - intros b [<-|[<-|[]]]; vm_compute; discriminate.
Defined.

Lemma find_doctorOf records keys n :
  List.find (fun doctor => strictEq (name doctor) n) (map (doctorOf records) keys)
  = if existsb (String.eqb n) keys then Some (doctorOf records n) else None.
Proof.
  induction keys as [|k keys IH]; [reflexivity|].
  cbn [map List.find existsb]. unfold strictEq at 1. cbn [doctorOf name].
  rewrite (String.eqb_sym n k).
  destruct (String.eqb_spec k n) as [->|_]; [reflexivity|]. exact IH.
Qed.

(** X18. Looking a doctor up after grouping: [getDoctorByName] on the
    grouped records finds, for a name that some record carries exactly,
    the doctor with that name, its first time zone and all its windows,
    and finds nothing for any other name. *)
Theorem getDoctorByName_grouped records n :
  exists doctors,
    groupSchedulesByDoctor records = Returns doctors
    /\ (In n (map raw_name records) ->
        Getters.getDoctorByName doctors n = Some (doctorOf records n))
    /\ (~ In n (map raw_name records) -> Getters.getDoctorByName doctors n = None).
Proof.
  rewrite groupSchedulesByDoctor_closed. eexists. split; [reflexivity|].
  unfold Getters.getDoctorByName. rewrite find_doctorOf.
  destruct (JSSet_fromList_spec (map raw_name records)) as [_ Hin].
  destruct (existsb (String.eqb n) (JSSet.fromList (map raw_name records))) eqn:E.
  - split; [reflexivity|]. intros Hno. exfalso.
    apply Hno, Hin, existsb_eqb_In, E.
  - split; [|reflexivity]. intros Hyes. exfalso.
    apply Hin, existsb_eqb_In in Hyes. rewrite Hyes in E. discriminate.
Qed.

Lemma getDoctorByName_grouped_witness :
  Getters.getDoctorByName mockDoctors "Dr. Smith" = Some mockSmith
  /\ Getters.getDoctorByName mockDoctors "dr. smith" = None.
Proof.
  destruct (getDoctorByName_grouped mockDoctorScheduleRaw "Dr. Smith")
    as (doctors & Hret & Hyes & _).
  destruct (getDoctorByName_grouped mockDoctorScheduleRaw "dr. smith")
    as (doctors' & Hret' & _ & Hno).
  vm_compute in Hret, Hret'. injection Hret as <-. injection Hret' as <-.
  split.
  - transitivity (Some (doctorOf mockDoctorScheduleRaw "Dr. Smith")); [|reflexivity].
    apply Hyes. simpl. auto.
  - apply Hno. simpl. intros [H|[H|[H|[]]]]; discriminate H.
Defined.

Lemma list_sum_step x l : list_sum (x :: l) = x + list_sum l.
Proof. reflexivity. Qed.

Lemma windows_total records :
  list_sum (map (fun n => length (windowsOf n records))
              (JSSet.fromList (map raw_name records)))
  = length records.
Proof.
  induction records as [|r records IH] using rev_ind; [reflexivity|].
  destruct (JSSet_fromList_spec (map raw_name records)) as [Hnd Hin].
  rewrite map_app. cbn [map]. rewrite JSSet_fromList_snoc, length_app. cbn [length].
  set (keys := JSSet.fromList (map raw_name records)) in *.
  assert (forall ks, NoDup ks ->
            list_sum (map (fun n => length (windowsOf n (records ++ [r]))) ks)
            = list_sum (map (fun n => length (windowsOf n records)) ks)
              + (if existsb (String.eqb (raw_name r)) ks then 1 else 0)) as Hsum.
  { induction ks as [|k ks IHk]; intros Hk; [reflexivity|].
    apply NoDup_cons in Hk as [Hk Hks]. cbn [map existsb].
    rewrite !list_sum_step, (IHk Hks), windowsOf_snoc, length_app.
    destruct (String.eqb_spec (raw_name r) k) as [<-|_]; cbn [orb length].
    - assert (existsb (String.eqb (raw_name r)) ks = false) as ->; [|lia].
      apply not_true_is_false. intros H. apply existsb_eqb_In in H.
      apply Hk, list_elem_of_In, H.
    - destruct (existsb (String.eqb (raw_name r)) ks); lia. }
  unfold JSSet.add. destruct (existsb (String.eqb (raw_name r)) keys) eqn:E.
  - rewrite (Hsum keys Hnd), E, IH. reflexivity.
  - assert (~ In (raw_name r) keys) as Hk.
    { intros H. apply existsb_eqb_In in H. rewrite H in E. discriminate. }
    rewrite map_app, list_sum_app. cbn [map]. rewrite list_sum_step.
    rewrite (Hsum keys Hnd), E, IH, windowsOf_snoc, String.eqb_refl, length_app.
    rewrite windowsOf_absent by (intros H; apply Hk, Hin, H).
    change (list_sum []) with 0. cbn [length]. lia.
Qed.

(** X19. No record is lost or doubled by the grouping: the schedules of
    the doctors have, in total, as many windows as there are records. *)
Theorem groupSchedulesByDoctor_keeps_all records :
  exists doctors,
    groupSchedulesByDoctor records = Returns doctors
    /\ list_sum (map (fun doctor => length (schedules doctor)) doctors)
       = length records
    /\ length doctors <= length records.
Proof.
  rewrite groupSchedulesByDoctor_closed. eexists. split; [reflexivity|].
  rewrite map_map. cbn [doctorOf schedules]. split; [apply windows_total|].
  rewrite length_map.
  destruct (JSSet_fromList_spec (map raw_name records)) as [Hnd Hin].
  rewrite <- (length_map raw_name records).
  apply NoDup_incl_length.
  - apply NoDup_ListNoDup, Hnd.
  - intros n Hn. apply Hin, Hn.
Qed.

(** ** The coming week *)

Lemma localDay_addDays tz t i :
  JSDate.localDay tz (JSDate.addDays t i) = (JSDate.localDay tz t + i)%Z.
Proof.
  unfold JSDate.localDay, JSDate.addDays.
  replace (t + i * JSDate.msPerDay + tz * 60000)%Z
    with (t + tz * 60000 + i * JSDate.msPerDay)%Z by lia.
  apply Z.div_add. unfold JSDate.msPerDay. lia.
Qed.

Lemma getDay_lt tz t : JSDate.getDay tz t < 7.
Proof.
  unfold JSDate.getDay.
  pose proof (Z.mod_pos_bound (JSDate.localDay tz t + 4) 7 ltac:(lia)). lia.
Qed.

Lemma getDay_addDays tz t i :
  JSDate.getDay tz (JSDate.addDays t (Z.of_nat i)) = (JSDate.getDay tz t + i) mod 7.
Proof.
  unfold JSDate.getDay. rewrite localDay_addDays.
  set (d := JSDate.localDay tz t).
  pose proof (Z.mod_pos_bound (d + 4) 7 ltac:(lia)) as Hb.
  apply Nat2Z.inj. rewrite Z2Nat.id by (apply Z.mod_pos_bound; lia).
  rewrite Nat2Z.inj_mod, Nat2Z.inj_add, Z2Nat.id by lia.
  change (Z.of_nat 7) with 7%Z.
  rewrite Zplus_mod_idemp_l. f_equal. lia.
Qed.

(** The weekday names of the seven dates: the names from today's on,
    around the week. *)
Lemma week_day_names tz today :
  map (DateHelpers.getDayOfWeek tz) (DateHelpers.getNextWeekDates today)
  = rotate (JSDate.getDay tz today) DateHelpers.days.
Proof.
  unfold DateHelpers.getNextWeekDates. rewrite map_map.
  unfold DateHelpers.getDayOfWeek.
  rewrite (map_ext _ (fun i => nth ((JSDate.getDay tz today + i) mod 7)
                                 DateHelpers.days EmptyString))
    by (intros i; rewrite getDay_addDays; reflexivity).
  pose proof (getDay_lt tz today) as Hlt.
  destruct (JSDate.getDay tz today) as [|[|[|[|[|[|[|k]]]]]]]; try reflexivity.
  lia.
Qed.

Lemma days_NoDup : NoDup DateHelpers.days.
Proof.
  unfold DateHelpers.days.
  repeat (constructor;
          [intros H; apply list_elem_of_In in H; simpl in H; intuition discriminate|]).
  constructor.
Qed.

Lemma week_names_facts tz today :
  NoDup (map (DateHelpers.getDayOfWeek tz) (DateHelpers.getNextWeekDates today))
  /\ (forall dayName,
        In dayName DateHelpers.days
        <-> In dayName (map (DateHelpers.getDayOfWeek tz)
                          (DateHelpers.getNextWeekDates today))).
Proof.
  rewrite week_day_names.
  assert (rotate (JSDate.getDay tz today) DateHelpers.days ≡ₚ DateHelpers.days)
    as Hperm.
  { unfold rotate. rewrite Permutation_app_comm, take_drop. reflexivity. }
  split.
  - rewrite Hperm. exact days_NoDup.
  - intros dayName. split; intros H.
    + apply (Permutation_in _ (Permutation_sym Hperm)), H.
    + apply (Permutation_in _ Hperm), H.
Qed.



Lemma JSMap_set_new {V} (m : JSMap.t V) k v :
  JSMap.get m k = None -> JSMap.set m k v = m ++ [(k, v)].
Proof.
  induction m as [|[k0 v0] m IH]; cbn; [reflexivity|].
  destruct (String.eqb_spec k0 k) as [->|_]; [discriminate|].
  intros H. rewrite (IH H). reflexivity.
Qed.

Lemma weekMap_fold tz dates : forall acc,
  NoDup (map fst acc ++ map (DateHelpers.getDayOfWeek tz) dates) ->
  fold_left
    (fun map date =>
       let dayName := DateHelpers.getDayOfWeek tz date in
       if negb (JSMap.has map dayName) then JSMap.set map dayName date else map)
    dates acc
  = acc ++ map (fun date => (DateHelpers.getDayOfWeek tz date, date)) dates.
Proof.
  induction dates as [|date dates IH]; intros acc Hnd; cbn [fold_left map].
  - rewrite app_nil_r. reflexivity.
  - cbn [map] in Hnd.
    assert (JSMap.get acc (DateHelpers.getDayOfWeek tz date) = None) as Hnew.
    { apply JSMap_get_None. intros Hin.
      apply NoDup_app in Hnd as (_ & Hdisj & _).
      apply (Hdisj (DateHelpers.getDayOfWeek tz date)).
      - apply list_elem_of_In, Hin.
      - apply list_elem_of_here. }
    cbn zeta. unfold JSMap.has. rewrite Hnew. cbn [negb].
    rewrite (JSMap_set_new _ _ _ Hnew), IH.
    + rewrite <- app_assoc. reflexivity.
    + rewrite map_app. cbn [map fst]. rewrite <- app_assoc. exact Hnd.
Qed.

(** X21. [getWeekDatesMap] has one entry for each of the seven weekday
    names: the name of each of the seven dates with that date, in the
    order of the dates; so the date found for a name is the one date of
    the coming week that falls on that weekday. *)
Theorem getWeekDatesMap_spec tz today :
  DateChecks.getWeekDatesMap tz today
  = map (fun date => (DateHelpers.getDayOfWeek tz date, date))
      (DateHelpers.getNextWeekDates today)
  /\ (forall dayName,
        In dayName DateHelpers.days ->
        exists date,
          JSMap.get (DateChecks.getWeekDatesMap tz today) dayName = Some date
          /\ In date (DateHelpers.getNextWeekDates today)
          /\ DateHelpers.getDayOfWeek tz date = dayName)
  /\ (forall dayName,
        ~ In dayName DateHelpers.days ->
        JSMap.get (DateChecks.getWeekDatesMap tz today) dayName = None).
Proof.
  pose proof (week_names_facts tz today) as (Hnd & Hin).
  assert (DateChecks.getWeekDatesMap tz today
          = map (fun date => (DateHelpers.getDayOfWeek tz date, date))
              (DateHelpers.getNextWeekDates today)) as Hmap.
  { unfold DateChecks.getWeekDatesMap. rewrite weekMap_fold; [reflexivity|].
    exact Hnd. }
  assert (map fst (DateChecks.getWeekDatesMap tz today)
          = map (DateHelpers.getDayOfWeek tz) (DateHelpers.getNextWeekDates today))
    as Hkeys by (rewrite Hmap, map_map; reflexivity).
  split; [exact Hmap|]. split.
  - intros dayName Hday.
    destruct (JSMap.get (DateChecks.getWeekDatesMap tz today) dayName) as [date|] eqn:E.
    + exists date. split; [reflexivity|].
      apply JSMap_get_In in E. rewrite Hmap in E.
      apply in_map_iff in E as (d & [= <- <-] & Hd). auto.
    + exfalso. apply JSMap_get_None in E. apply E. rewrite Hkeys. apply Hin, Hday.
  - intros dayName Hno. apply JSMap_get_None. rewrite Hkeys.
    intros H. apply Hno, Hin, H.
Qed.

Lemma getWeekDatesMap_spec_witness :
  exists date,
    JSMap.get (DateChecks.getWeekDatesMap 480 mondayOneAM) "Friday" = Some date
    /\ In date (DateHelpers.getNextWeekDates mondayOneAM)
    /\ DateHelpers.getDayOfWeek 480 date = "Friday".
Proof.
  apply (proj1 (proj2 (getWeekDatesMap_spec 480 mondayOneAM)) "Friday").
  vm_compute. tauto.
Defined.

Lemma length_filter_map {A B} (f : A -> B) (p : A -> bool) (q : B -> bool) l :
  (forall x, In x l -> p x = q (f x)) ->
  length (List.filter p l) = length (List.filter q (map f l)).
Proof.
  induction l as [|x l IH]; intros H; simpl; [reflexivity|].
  rewrite <- (H x) by (simpl; auto).
  destruct (p x); simpl; rewrite IH; auto; intros y Hy; apply H; simpl; auto.
Qed.

Lemma Forall2_map_eq {A B C} (f : A -> C) (g : B -> C) l k :
  Forall2 (fun x y => g y = f x) l k -> map g k = map f l.
Proof.
  induction 1 as [|x y l k Hxy _ IH]; simpl; [reflexivity|].
  rewrite Hxy, IH. reflexivity.
Qed.

(** X22. The count of available days agrees with the grid: when every
    window of the doctor names one of the seven weekdays, the number of
    entries of the weekly projection that have a schedule is
    [uniqueDayCount], the number of distinct weekday names among the
    windows, which is at most 7. *)
Theorem grid_days_match_uniqueDayCount tz formatDisplayDate doctor appointments today entries :
  slotsPerDay tz formatDisplayDate doctor appointments today = Returns entries ->
  (forall w, In w (schedules doctor) -> In (dayOfWeek w) DateHelpers.days) ->
  length (List.filter (fun entry => match schedule entry with
                                    | Some _ => true
                                    | None => false
                                    end) entries)
  = Getters.uniqueDayCount doctor
  /\ Getters.uniqueDayCount doctor <= 7.
Proof.
  intros Hret Hdays. unfold slotsPerDay in Hret.
  apply forEachDate_Returns in Hret as (new & -> & Hall). cbn [app].
  set (dows := map dayOfWeek (schedules doctor)).
  destruct (JSSet_fromList_spec dows) as [Hnd Hin].
  destruct (week_names_facts tz today) as [Hwnd Hwin].
  assert (map dayName new
          = map (DateHelpers.getDayOfWeek tz) (DateHelpers.getNextWeekDates today))
    as Hnames.
  { apply Forall2_map_eq. eapply Forall2_impl; [exact Hall|].
    intros date entry Hentry. cbn.
    apply dayEntry_Returns in Hentry as (_ & Hn & _). exact Hn. }
  assert (forall entry, In entry new ->
            match schedule entry with Some _ => true | None => false end
            = existsb (String.eqb (dayName entry)) dows) as Hsched.
  { intros entry Hentry.
    assert (exists date, dayEntry tz formatDisplayDate doctor appointments date
                         = Returns entry) as [date Hd].
    { clear - Hall Hentry. induction Hall as [|d e ds es Hde _ IH]; [destruct Hentry|].
      destruct Hentry as [<-|Hin]; eauto. }
    apply dayEntry_Returns in Hd as (_ & _ & _ & [(-> & _ & Hno)|Hyes]).
    - symmetry. apply not_true_is_false. intros Hex.
      apply existsb_eqb_In, in_map_iff in Hex as (w & Hw & Hmem).
      exact (Hno w Hmem Hw).
    - destruct Hyes as (before & w & after & generated & Hsplit & Hw & _ & -> & _).
      symmetry. apply existsb_eqb_In, in_map_iff. exists w. split; [exact Hw|].
      rewrite Hsplit. apply in_elt. }
  rewrite (length_filter_map dayName _ (fun n => existsb (String.eqb n) dows) new Hsched).
  rewrite Hnames.
  set (names := map (DateHelpers.getDayOfWeek tz) (DateHelpers.getNextWeekDates today))
    in *.
  assert (forall n, In n dows -> In n names) as Hsub.
  { intros n Hn. apply Hwin. apply in_map_iff in Hn as (w & <- & Hw). auto. }
  assert (List.filter (fun n => existsb (String.eqb n) dows) names
          ≡ₚ Getters.uniqueDays doctor) as Hperm.
  { apply NoDup_Permutation; [apply NoDup_ListNoDup, List.NoDup_filter, NoDup_ListNoDup, Hwnd
                             | exact Hnd |].
    intros n. rewrite !list_elem_of_In, List.filter_In, existsb_eqb_In.
    unfold Getters.uniqueDays. fold dows. rewrite Hin. split; [tauto|]. auto. }
  split.
  - unfold Getters.uniqueDayCount. rewrite Hperm. reflexivity.
  - unfold Getters.uniqueDayCount. rewrite <- Hperm.
    etransitivity; [apply List.filter_length_le|].
    subst names. rewrite length_map.
    unfold DateHelpers.getNextWeekDates. rewrite length_map, length_seq. reflexivity.
Qed.

Lemma grid_days_match_uniqueDayCount_witness :
  exists entries,
    slotsPerDay 480 (fun _ => "shown") mockSmith mockAppointments mondayOneAM
    = Returns entries
    /\ length (List.filter (fun entry => match schedule entry with
                                         | Some _ => true
                                         | None => false
                                         end) entries)
       = Getters.uniqueDayCount mockSmith
    /\ Getters.uniqueDayCount mockSmith <= 7.
Proof.
  eexists. split; [vm_compute; reflexivity|].
  apply (grid_days_match_uniqueDayCount 480 (fun _ => "shown") mockSmith
           mockAppointments mondayOneAM); [vm_compute; reflexivity|].
  intros w Hw. vm_compute in Hw. vm_compute.
  repeat (destruct Hw as [<-|Hw]; [tauto|]). destruct Hw.
Defined.

(** ** Decimal digits *)

Lemma usize_nb_digits u : DecimalNat.Unsigned.usize u = Decimal.nb_digits u.
Proof. induction u; simpl; congruence. Qed.

Lemma of_uint_head_bound u :
  Decimal.nzhead u = u -> u <> Decimal.Nil ->
  10 ^ (Decimal.nb_digits u - 1) <= Nat.of_uint u.
Proof.
  intros Hhead Hnil.
  rewrite DecimalNat.Unsigned.of_uint_alt.
  destruct u as [|u|u|u|u|u|u|u|u|u|u]; [contradiction| |..].
  { exfalso. cbn in Hhead.
    pose proof (DecimalFacts.nb_digits_nzhead u) as Hle.
    rewrite Hhead in Hle. cbn in Hle. lia. }
  all: unfold Decimal.rev; cbn [Decimal.revapp Decimal.nb_digits];
    rewrite DecimalNat.Unsigned.of_lu_revapp, (usize_nb_digits u);
    replace (S (Decimal.nb_digits u) - 1) with (Decimal.nb_digits u) by lia;
    set (p := 10 ^ Decimal.nb_digits u); cbn; lia.
Qed.

Lemma string_of_uint_length u :
  String.length (NilEmpty.string_of_uint u) = Decimal.nb_digits u.
Proof. induction u; simpl; congruence. Qed.

Lemma string_of_uint_digits u :
  forallb JS.isDigit (list_ascii_of_string (NilEmpty.string_of_uint u)) = true.
Proof. induction u; simpl; auto. Qed.

Lemma toString_digits n :
  forallb JS.isDigit (list_ascii_of_string (JS.toString n)) = true.
Proof.
  unfold JS.toString, NilZero.string_of_uint.
  destruct (Nat.to_uint n); try apply string_of_uint_digits. reflexivity.
Qed.

Lemma toString_length n k :
  0 < k -> n < 10 ^ k -> String.length (JS.toString n) <= k.
Proof.
  intros Hk Hn. unfold JS.toString.
  pose proof (DecimalNat.Unsigned.of_to n) as Hof.
  pose proof (DecimalNat.Unsigned.to_of (Nat.to_uint n)) as Hnorm.
  rewrite Hof in Hnorm.
  set (u := Nat.to_uint n) in *.
  unfold Decimal.unorm in Hnorm.
  destruct (Decimal.nzhead u) as [|v|v|v|v|v|v|v|v|v|v] eqn:Ehead.
  { rewrite Hnorm. cbn. lia. }
  all: assert (Decimal.nzhead u = u) as Hself by (rewrite Hnorm at 2; exact Ehead).
  all: assert (u <> Decimal.Nil) as Hnil by (rewrite Hnorm; discriminate).
  all: pose proof (of_uint_head_bound u Hself Hnil) as Hbound.
  all: rewrite Hof in Hbound.
  all: assert (Decimal.nb_digits u - 1 < k) as Hlt
      by (apply (Nat.pow_lt_mono_r_iff 10); lia).
  all: unfold NilZero.string_of_uint.
  all: destruct u; [contradiction|..]; rewrite string_of_uint_length; lia.
Qed.

Lemma of_lu_upper d :
  DecimalNat.Unsigned.of_lu d < 10 ^ DecimalNat.Unsigned.usize d.
Proof.
  induction d; cbn [DecimalNat.Unsigned.of_lu DecimalNat.Unsigned.usize];
    rewrite ?Nat.pow_succ_r'; [cbn|..]; lia.
Qed.

Lemma of_uint_upper u : Nat.of_uint u < 10 ^ Decimal.nb_digits u.
Proof.
  rewrite DecimalNat.Unsigned.of_uint_alt, <- DecimalFacts.nb_digits_rev,
    <- (usize_nb_digits (Decimal.rev u)).
  apply of_lu_upper.
Qed.

Lemma toString_length_lower n k :
  10 ^ k <= n -> k < String.length (JS.toString n).
Proof.
  intros Hn. unfold JS.toString.
  pose proof (of_uint_upper (Nat.to_uint n)) as Hup.
  rewrite DecimalNat.Unsigned.of_to in Hup.
  assert (k < Decimal.nb_digits (Nat.to_uint n)) as Hlt
    by (apply (Nat.pow_lt_mono_r_iff 10); lia).
  unfold NilZero.string_of_uint.
  destruct (Nat.to_uint n); [cbn in Hlt; lia|..]; rewrite string_of_uint_length; exact Hlt.
Qed.

Lemma parseInt_of_uint_acc u : forall acc,
  fold_left (fun acc c => 10 * acc + JS.digitValue c)
    (list_ascii_of_string (NilEmpty.string_of_uint u)) acc
  = Nat.of_uint_acc u acc.
Proof.
  induction u; intros acc; cbn [NilEmpty.string_of_uint list_ascii_of_string fold_left
                                  Nat.of_uint_acc];
    [reflexivity|..]; rewrite IHu, Nat.tail_mul_spec; f_equal;
    match goal with
    | |- context [JS.digitValue ?c] =>
        let v := eval vm_compute in (JS.digitValue c) in
        change (JS.digitValue c) with v
    end; lia.
Qed.

Lemma parseIntDigits_toString n : JS.parseIntDigits (JS.toString n) = n.
Proof.
  unfold JS.parseIntDigits, JS.toString, NilZero.string_of_uint.
  rewrite <- (DecimalNat.Unsigned.of_to n) at 2. unfold Nat.of_uint.
  destruct (Nat.to_uint n) eqn:E; try apply parseInt_of_uint_acc. reflexivity.
Qed.

(** ** Dates as strings *)

Lemma upto_In n : forall a z, (a <= z < a + Z.of_nat n)%Z -> In z (upto n a).
Proof.
  induction n as [|n IH]; intros a z Hz; [lia|].
  cbn [upto]. destruct (Z.eq_dec a z) as [->|Hne]; [left; reflexivity|].
  right. apply IH. lia.
Qed.

Lemma field_table :
  forallb (fun n => isFieldText 2 n (JS.padStart 2 "0" (DateHelpers.stringOfZ n)))
    (upto 31 1) = true.
Proof. vm_cast_no_check (@eq_refl bool true). Qed.

Lemma upto_table (check : Z -> bool) n a z :
  forallb check (upto n a) = true -> (a <= z < a + Z.of_nat n)%Z -> check z = true.
Proof.
  intros Htable Hz. rewrite forallb_forall in Htable.
  apply Htable, upto_In, Hz.
Qed.

Lemma isLeapYear_true y :
  (y mod 4 = 0 /\ (y mod 100 <> 0 \/ y mod 400 = 0))%Z -> JSDate.isLeapYear y = true.
Proof.
  unfold JSDate.isLeapYear. intros [H4 [H100|H400]].
  - apply orb_true_intro. left. apply andb_true_intro. split.
    + apply Z.eqb_eq, H4.
    + apply negb_true_iff, Z.eqb_neq, H100.
  - apply orb_true_intro. right. apply Z.eqb_eq, H400.
Qed.

Lemma isLeapYear_era y e : JSDate.isLeapYear (y + 400 * e) = JSDate.isLeapYear y.
Proof.
  unfold JSDate.isLeapYear.
  replace (y + 400 * e)%Z with (y + (100 * e) * 4)%Z at 1 by lia.
  replace (y + 400 * e)%Z with (y + (4 * e) * 100)%Z at 1 by lia.
  replace (y + 400 * e)%Z with (y + e * 400)%Z by lia.
  rewrite !Z.mod_add by lia. reflexivity.
Qed.

Ltac closed_num a :=
  match a with Z0 => idtac | Zpos _ => idtac | Zneg _ => idtac end.

Ltac calc_closed :=
  repeat match goal with
  | |- context [Z.add ?a ?b] =>
      closed_num a; closed_num b;
      let v := eval vm_compute in (Z.add a b) in change (Z.add a b) with v
  | |- context [Z.sub ?a ?b] =>
      closed_num a; closed_num b;
      let v := eval vm_compute in (Z.sub a b) in change (Z.sub a b) with v
  | |- context [Z.mul ?a ?b] =>
      closed_num a; closed_num b;
      let v := eval vm_compute in (Z.mul a b) in change (Z.mul a b) with v
  | |- context [Z.div ?a ?b] =>
      closed_num a; closed_num b;
      let v := eval vm_compute in (Z.div a b) in change (Z.div a b) with v
  end.

Lemma civilFromDays_spec z y m d :
  JSDate.civilFromDays z = (y, m, d) ->
  JSDate.isCalendarDate y m d = true /\ JSDate.daysFromCivil y m d = z.
Proof.
  unfold JSDate.civilFromDays. cbv zeta.
  set (era := ((z + 719468) / 146097)%Z).
  set (doe := (z + 719468 - era * 146097)%Z).
  assert (0 <= doe < 146097)%Z as Hdoe
    by (subst doe era; Z.to_euclidean_division_equations; lia).
  set (yoe := ((doe - doe / 1460 + doe / 36524 - doe / 146096) / 365)%Z).
  set (doy := (doe - (365 * yoe + yoe / 4 - yoe / 100))%Z).
  assert ((0 <= yoe <= 399)%Z /\ (0 <= doy <= 365)%Z) as [Hyoe Hdoy]
    by (subst doy yoe; Z.to_euclidean_division_equations; lia).
  assert (doy = 365%Z ->
          ((yoe + 1) mod 4 = 0
           /\ ((yoe + 1) mod 100 <> 0 \/ (yoe + 1) mod 400 = 0))%Z) as Hleap
    by (subst doy yoe; Z.to_euclidean_division_equations; lia).
  assert (doe = yoe * 365 + yoe / 4 - yoe / 100 + doy)%Z as Hround
    by (subst doy; lia).
  assert (z = era * 146097 + doe - 719468)%Z as Hz by (subst doe; lia).
  assert (((yoe + era * 400) / 400 = era)%Z) as Hera
    by (Z.to_euclidean_division_equations; lia).
  clearbody doy yoe doe.
  set (mp := ((5 * doy + 2) / 153)%Z).
  assert (153 * mp <= 5 * doy + 2 < 153 * mp + 153)%Z as Hmp
    by (subst mp; Z.to_euclidean_division_equations; lia).
  clearbody mp.
  intros [= <- <- <-].
  assert (mp = 0 \/ mp = 1 \/ mp = 2 \/ mp = 3 \/ mp = 4 \/ mp = 5 \/ mp = 6
          \/ mp = 7 \/ mp = 8 \/ mp = 9 \/ mp = 10 \/ mp = 11)%Z as Hcases by lia.
  assert (JSDate.isLeapYear (yoe + era * 400 + 1) = false -> doy <> 365%Z) as Hfeb.
  { intros Hno Hlast. apply Hleap in Hlast.
    replace (yoe + era * 400 + 1)%Z with (yoe + 1 + 400 * era)%Z in Hno by lia.
    rewrite isLeapYear_era, (isLeapYear_true _ Hlast) in Hno. discriminate. }
  clear Hleap.
  split.
  - unfold JSDate.isCalendarDate, JSDate.daysInMonth.
    repeat (destruct Hcases as [->|Hcases]); [..|subst mp].
    all: calc_closed; cbn -[Z.div Z.mul Z.add Z.sub JSDate.isLeapYear].
    all: try (destruct (JSDate.isLeapYear _) eqn:Eleap; [|specialize (Hfeb eq_refl)]).
    all: rewrite !andb_true_iff, !Z.leb_le; lia.
  - unfold JSDate.daysFromCivil. cbv zeta.
    destruct (Z.ltb_spec mp 10) as [Hlow|Hhigh].
    + destruct (Z.leb_spec (mp + 3) 2) as [Hle|_]; [lia|].
      destruct (Z.ltb_spec 2 (mp + 3)) as [_|Hge]; [|lia].
      rewrite Hera.
      replace (yoe + era * 400 - era * 400)%Z with yoe by lia.
      replace (mp + 3 - 3)%Z with mp by lia. lia.
    + destruct (Z.leb_spec (mp - 9) 2) as [_|Hgt]; [|lia].
      destruct (Z.ltb_spec 2 (mp - 9)) as [Hlt|_]; [lia|].
      replace (yoe + era * 400 + 1 - 1)%Z with (yoe + era * 400)%Z by lia.
      rewrite Hera.
      replace (yoe + era * 400 - era * 400)%Z with yoe by lia.
      replace (mp - 9 + 9)%Z with mp by lia. lia.
Qed.

Lemma list_ascii_length s : length (list_ascii_of_string s) = String.length s.
Proof. induction s; simpl; congruence. Qed.

Lemma year_text y :
  (1000 <= y <= 9999)%Z -> isFieldText 4 y (DateHelpers.stringOfZ y) = true.
Proof.
  intros Hy. unfold isFieldText, DateHelpers.stringOfZ.
  destruct (Z.ltb_spec y 0) as [Hneg|_]; [lia|].
  assert (String.length (JS.toString (Z.to_nat y)) <= 4) as Hupper.
  { apply toString_length; [lia|]. change (10 ^ 4) with (Z.to_nat 10000). lia. }
  assert (3 < String.length (JS.toString (Z.to_nat y))) as Hlower.
  { apply toString_length_lower. change (10 ^ 3) with (Z.to_nat 1000). lia. }
  rewrite list_ascii_length, toString_digits. unfold JSDate.digitsZ.
  rewrite string_of_list_ascii_of_string, parseIntDigits_toString.
  apply andb_true_intro. split; [apply andb_true_intro; split|].
  - apply Nat.eqb_eq. lia.
  - reflexivity.
  - apply Z.eqb_eq. lia.
Qed.

Lemma dateOnlyFields_texts y m d ys ms ds :
  isFieldText 4 y ys = true -> isFieldText 2 m ms = true -> isFieldText 2 d ds = true ->
  JSDate.dateOnlyFields (ys +++ "-" +++ ms +++ "-" +++ ds) = Some (y, m, d).
Proof.
  unfold isFieldText. intros Hy Hm Hd.
  apply andb_prop in Hy as [Hy Hyv]. apply andb_prop in Hy as [Hyl Hyd].
  apply andb_prop in Hm as [Hm Hmv]. apply andb_prop in Hm as [Hml Hmd].
  apply andb_prop in Hd as [Hd Hdv]. apply andb_prop in Hd as [Hdl Hdd].
  destruct ys as [|y1 [|y2 [|y3 [|y4 [|y5 ys]]]]]; try discriminate Hyl.
  destruct ms as [|m1 [|m2 [|m3 ms]]]; try discriminate Hml.
  destruct ds as [|d1 [|d2 [|d3 ds]]]; try discriminate Hdl.
  cbn [list_ascii_of_string] in *.
  apply Z.eqb_eq in Hyv, Hmv, Hdv.
  unfold JSDate.dateOnlyFields. cbn [String.append list_ascii_of_string].
  change [y1; y2; y3; y4; m1; m2; d1; d2]
    with ([y1; y2; y3; y4] ++ [m1; m2] ++ [d1; d2]).
  rewrite !forallb_app, Hyd, Hmd, Hdd, Hyv, Hmv, Hdv. reflexivity.
Qed.

Lemma isCalendarDate_bounds y m d :
  JSDate.isCalendarDate y m d = true -> (1 <= m <= 12 /\ 1 <= d <= 31)%Z.
Proof.
  unfold JSDate.isCalendarDate, JSDate.daysInMonth. intros H.
  apply andb_prop in H as [H Hd2]. apply andb_prop in H as [H Hd1].
  apply andb_prop in H as [Hm1 Hm2].
  apply Z.leb_le in Hm1, Hm2, Hd1, Hd2.
  destruct (m =? 2)%Z; [destruct (JSDate.isLeapYear y); lia|].
  destruct ((m =? 4)%Z || (m =? 6)%Z || (m =? 9)%Z || (m =? 11)%Z); lia.
Qed.

Lemma formatDate_fields tz t y m d :
  JSDate.civilFromDays (JSDate.localDay tz t) = (y, m, d) ->
  DateHelpers.formatDate tz t
  = DateHelpers.stringOfZ y +++ "-" +++ JS.padStart 2 "0" (DateHelpers.stringOfZ m)
    +++ "-" +++ JS.padStart 2 "0" (DateHelpers.stringOfZ d).
Proof.
  intros H. unfold DateHelpers.formatDate, JSDate.getFullYear, JSDate.getMonth,
    JSDate.getDate. rewrite H. cbn [fst snd].
  replace (m - 1 + 1)%Z with m by lia. reflexivity.
Qed.

Lemma formatDate_parses tz t :
  (1000 <= JSDate.getFullYear tz t <= 9999)%Z ->
  JSDate.parseDateOnly (DateHelpers.formatDate tz t)
  = Some (JSDate.localDay tz t * JSDate.msPerDay)%Z.
Proof.
  unfold JSDate.getFullYear. intros Hyear.
  destruct (JSDate.civilFromDays (JSDate.localDay tz t)) as [[y m] d] eqn:Ecivil.
  cbn [fst] in Hyear.
  destruct (civilFromDays_spec _ _ _ _ Ecivil) as [Hcal Hdays].
  destruct (isCalendarDate_bounds _ _ _ Hcal) as [Hm Hd].
  rewrite (formatDate_fields _ _ _ _ _ Ecivil).
  unfold JSDate.parseDateOnly.
  rewrite (dateOnlyFields_texts y m d).
  - rewrite Hcal, Hdays. reflexivity.
  - apply year_text. lia.
  - apply (upto_table _ _ _ _ field_table). lia.
  - apply (upto_table _ _ _ _ field_table). lia.
Qed.

Lemma localDay_utc_midnight tz day :
  (-1440 < tz < 1440)%Z ->
  JSDate.localDay tz (day * JSDate.msPerDay)
  = (if (tz <? 0)%Z then day - 1 else day)%Z.
Proof.
  intros Htz. unfold JSDate.localDay, JSDate.msPerDay.
  rewrite Z.div_add_l by lia.
  destruct (Z.ltb_spec tz 0).
  - replace (tz * 60000 / 86400000)%Z with (-1)%Z; [lia|].
    apply (Z.div_unique _ _ _ (tz * 60000 + 86400000)); lia.
  - rewrite Z.div_small by lia. lia.
Qed.


Lemma localMidnight_ltb tz a b :
  (JSDate.localMidnight tz a <? JSDate.localMidnight tz b)%Z
  = (JSDate.localDay tz a <? JSDate.localDay tz b)%Z.
Proof.
  unfold JSDate.localMidnight, JSDate.msPerDay.
  destruct (Z.ltb_spec (JSDate.localDay tz a) (JSDate.localDay tz b));
    [apply Z.ltb_lt | apply Z.ltb_ge]; lia.
Qed.

(** X23. Round trip of the date strings: for a date whose local year has
    four digits, [formatDate] gives a date-only string that [new Date]
    accepts, and the result is midnight UTC of the local calendar day that
    was formatted; formatting that instant in UTC gives the string back.
    Two such dates have the same string exactly when they fall on the same
    local calendar day. *)
Theorem formatDate_parseDate_roundtrip tz t :
  (1000 <= JSDate.getFullYear tz t <= 9999)%Z ->
  JSDate.parseDateOnly (DateHelpers.formatDate tz t)
  = Some (JSDate.localDay tz t * JSDate.msPerDay)%Z
  /\ DateHelpers.formatDate 0 (JSDate.localDay tz t * JSDate.msPerDay)
     = DateHelpers.formatDate tz t
  /\ (forall t',
        (1000 <= JSDate.getFullYear tz t' <= 9999)%Z ->
        DateHelpers.formatDate tz t = DateHelpers.formatDate tz t'
        <-> JSDate.localDay tz t = JSDate.localDay tz t').
Proof.
  intros Hyear. split; [apply formatDate_parses, Hyear|]. split.
  - unfold DateHelpers.formatDate, JSDate.getFullYear, JSDate.getMonth, JSDate.getDate.
    rewrite (localDay_utc_midnight 0) by lia. reflexivity.
  - intros t' Hyear'. split.
    + intros Heq. pose proof (formatDate_parses tz t Hyear) as Ht.
      rewrite Heq, (formatDate_parses tz t' Hyear') in Ht.
      injection Ht as Ht. unfold JSDate.msPerDay in Ht. lia.
    + intros Heq.
      unfold DateHelpers.formatDate, JSDate.getFullYear, JSDate.getMonth, JSDate.getDate.
      rewrite Heq. reflexivity.
Qed.

Lemma formatDate_parseDate_roundtrip_witness :
  JSDate.parseDateOnly (DateHelpers.formatDate 480 mondayOneAM)
  = Some (JSDate.localDay 480 mondayOneAM * JSDate.msPerDay)%Z.
Proof.
  apply (proj1 (formatDate_parseDate_roundtrip 480 mondayOneAM
                  ltac:(vm_compute; split; discriminate))).
Defined.


(** X25. [isPastDate] of a date-only string depends on the zone: the
    string is read as midnight UTC, so for a zone west of UTC it falls on
    the local day before.  For the string [formatDate] makes of a date, in
    a zone at or east of UTC the answer is true exactly for the days
    before today; in a zone west of UTC it is true for today's own string
    as well. *)
Theorem isPastDate_date_string tz now t :
  (1000 <= JSDate.getFullYear tz t <= 9999)%Z ->
  (-1440 < tz < 1440)%Z ->
  fst (DateChecks.isPastDate tz JSDate.parseDateOnly now (inl (DateHelpers.formatDate tz t)))
  = (if (tz <? 0)%Z then (JSDate.localDay tz t <=? JSDate.localDay tz now)%Z
     else (JSDate.localDay tz t <? JSDate.localDay tz now)%Z)
  /\ (JSDate.localDay tz t = JSDate.localDay tz now ->
      fst (DateChecks.isPastDate tz JSDate.parseDateOnly now
             (inl (DateHelpers.formatDate tz t)))
      = (tz <? 0)%Z).
Proof.
  intros Hyear Htz.
  assert (fst (DateChecks.isPastDate tz JSDate.parseDateOnly now
                 (inl (DateHelpers.formatDate tz t)))
          = (if (tz <? 0)%Z then (JSDate.localDay tz t <=? JSDate.localDay tz now)%Z
             else (JSDate.localDay tz t <? JSDate.localDay tz now)%Z)) as Hgen.
  { unfold DateChecks.isPastDate, DateChecks.setHoursZero, DateChecks.dateBefore.
    rewrite (formatDate_parses tz t Hyear). cbn [option_map fst].
    rewrite localMidnight_ltb, (localDay_utc_midnight tz _ Htz).
    destruct (tz <? 0)%Z; [|reflexivity].
    destruct (Z.leb_spec (JSDate.localDay tz t) (JSDate.localDay tz now));
      [apply Z.ltb_lt | apply Z.ltb_ge]; lia. }
  split; [exact Hgen|].
  intros Hsame. rewrite Hgen, Hsame, Z.leb_refl, Z.ltb_irrefl.
  destruct (tz <? 0)%Z; reflexivity.
Qed.

Lemma isPastDate_date_string_witness :
  fst (DateChecks.isPastDate (-300) JSDate.parseDateOnly mondayOneAM
         (inl (DateHelpers.formatDate (-300) mondayOneAM)))
  = true.
Proof.
  apply (proj2 (isPastDate_date_string (-300) mondayOneAM mondayOneAM
                  ltac:(vm_compute; split; discriminate) ltac:(lia))).
  reflexivity.
Defined.

(** X26. The day shown on the date tile: for the date string that the
    grid makes of a date ([formatDate]), the [day] of [dateParts] is the
    day of the month of that date in a zone at or east of UTC, and the day
    of the month of the day before it in a zone west of UTC. *)
Theorem dateParts_day_of_grid_date tz t :
  (1000 <= JSDate.getFullYear tz t <= 9999)%Z ->
  (-1440 < tz < 1440)%Z ->
  Booking.dateParts_day tz JSDate.parseDateOnly (DateHelpers.formatDate tz t)
  = Some (JSDate.getDate tz (if (tz <? 0)%Z then JSDate.addDays t (-1) else t)).
Proof.
  intros Hyear Htz. unfold Booking.dateParts_day.
  rewrite (formatDate_parses tz t Hyear). cbn [option_map]. f_equal.
  unfold JSDate.getDate. rewrite (localDay_utc_midnight tz _ Htz).
  destruct (tz <? 0)%Z; [|reflexivity].
  rewrite localDay_addDays. reflexivity.
Qed.

Lemma dateParts_day_of_grid_date_witness :
  Booking.dateParts_day (-300) JSDate.parseDateOnly
    (DateHelpers.formatDate (-300) mondayOneAM)
  = Some (JSDate.getDate (-300) (JSDate.addDays mondayOneAM (-1))).
Proof.
  apply (dateParts_day_of_grid_date (-300) mondayOneAM
           ltac:(vm_compute; split; discriminate) ltac:(lia)).
Defined.

(** ** The fetch of the catalog *)

Lemma fetchDoctors_cases fetched :
  Fetch.fetchDoctors fetched
  = match Fetch.fetchDoctorSchedules fetched with
    | inl e => inl e
    | inr data =>
        inr (map (doctorOf data) (JSSet.fromList (map raw_name data)))
    end.
Proof.
  unfold Fetch.fetchDoctors.
  destruct (Fetch.fetchDoctorSchedules fetched) as [e|data]; [reflexivity|].
  rewrite groupSchedulesByDoctor_closed. reflexivity.
Qed.

Lemma fetchDoctorSchedules_rejection fetched e :
  Fetch.fetchDoctorSchedules fetched = inl e ->
  e = Fetch.ErrorObject "Unknown error occurred while fetching doctors"
  \/ exists cause, e = Fetch.ErrorObject ("Error fetching doctors: " +++ cause).
Proof.
  unfold Fetch.fetchDoctorSchedules.
  destruct (Fetch.tryFetch fetched) as [[cause|]|data]; intros [= <-]; eauto.
Qed.

Lemma fetchDoctorSchedules_fulfilled fetched data :
  Fetch.fetchDoctorSchedules fetched = inr data <->
  exists response,
    fetched = inr response /\ Fetch.ok response = true /\ Fetch.json response = inr data.
Proof.
  unfold Fetch.fetchDoctorSchedules, Fetch.tryFetch. split.
  - destruct fetched as [[cause|]|response]; try discriminate.
    destruct (Fetch.ok response) eqn:Eok; cbn [negb]; [|discriminate].
    destruct (Fetch.json response) as [[cause|]|data'] eqn:Ejson; try discriminate.
    intros [= <-]. eauto.
  - intros (response & -> & Hok & Hjson). rewrite Hok, Hjson. reflexivity.
Qed.

(** X27. A response that is not [ok] ends the [fetchDoctors] action of
    the store with the doctors unchanged, [loading] false and an error
    message with both prefixes: the error thrown inside the [try] of
    [fetchDoctorSchedules] is caught by its own [catch] and wrapped again.
    The body of the response is not read. *)
Theorem fetch_http_failure st response :
  Fetch.ok response = false ->
  Fetch.storeFetchDoctors st (inr response)
  = {| Fetch.doctors := Fetch.doctors st;
       Fetch.loading := false;
       Fetch.error :=
         Some ("Error fetching doctors: Failed to fetch doctors: "
               +++ JS.toString (Fetch.status response) +++ " "
               +++ Fetch.statusText response) |}.
Proof.
  intros Hok.
  unfold Fetch.storeFetchDoctors, Fetch.fetchDoctorsSettle. rewrite fetchDoctors_cases.
  unfold Fetch.fetchDoctorSchedules, Fetch.tryFetch. rewrite Hok. reflexivity.
Qed.

Lemma fetch_http_failure_witness :
  Fetch.storeFetchDoctors
    {| Fetch.doctors := mockDoctors; Fetch.loading := false; Fetch.error := None |}
    (inr {| Fetch.ok := false; Fetch.status := 404; Fetch.statusText := "Not Found";
            Fetch.json := inr mockDoctorScheduleRaw |})
  = {| Fetch.doctors := mockDoctors;
       Fetch.loading := false;
       Fetch.error :=
         Some "Error fetching doctors: Failed to fetch doctors: 404 Not Found" |}.
Proof.
  apply (fetch_http_failure
           {| Fetch.doctors := mockDoctors; Fetch.loading := false; Fetch.error := None |}
           {| Fetch.ok := false; Fetch.status := 404; Fetch.statusText := "Not Found";
              Fetch.json := inr mockDoctorScheduleRaw |}).
  reflexivity.
Defined.

(** X28. How the [fetchDoctors] action of the store ends, for a body of
    the declared type: [loading] is false; either the response was [ok]
    with a body, the doctors are the
    grouping of that body and [error] is null, or the doctors are
    unchanged and [error] is the message of the [Error] that the service
    rejected with, which starts with "Error fetching doctors: " or is the
    text for an unknown error.  The fallback text of the store, "Failed to
    fetch doctors", is never the error. *)
Theorem storeFetchDoctors_outcome st fetched :
  let st' := Fetch.storeFetchDoctors st fetched in
  Fetch.loading st' = false
  /\ Fetch.error st' <> Some "Failed to fetch doctors"
  /\ ((exists response data,
         fetched = inr response /\ Fetch.ok response = true
         /\ Fetch.json response = inr data
         /\ groupSchedulesByDoctor data = Returns (Fetch.doctors st')
         /\ Fetch.error st' = None)
      \/ (exists message,
            Fetch.fetchDoctors fetched = inl (Fetch.ErrorObject message)
            /\ Fetch.error st' = Some message
            /\ Fetch.doctors st' = Fetch.doctors st
            /\ (message = "Unknown error occurred while fetching doctors"
                \/ exists cause, message = "Error fetching doctors: " +++ cause))).
Proof.
  cbv zeta. unfold Fetch.storeFetchDoctors, Fetch.fetchDoctorsSettle.
  rewrite fetchDoctors_cases.
  destruct (Fetch.fetchDoctorSchedules fetched) as [e|data] eqn:Efetch.
  - destruct (fetchDoctorSchedules_rejection _ _ Efetch) as [->|(cause & ->)];
      cbn; (split; [reflexivity|]); (split; [discriminate|]); right;
      eexists; (split; [reflexivity|]); (split; [reflexivity|]);
      (split; [reflexivity|]); eauto.
  - apply fetchDoctorSchedules_fulfilled in Efetch as (response & -> & Hok & Hjson).
    cbn. split; [reflexivity|]. split; [discriminate|]. left.
    exists response, data. rewrite groupSchedulesByDoctor_closed. auto.
Qed.

(** ** The booking reference and repeated confirmation *)

Lemma repeatChar_length n c : String.length (JS.repeatChar n c) = n.
Proof. induction n; simpl; congruence. Qed.

Lemma append_length s1 s2 :
  String.length (s1 +++ s2) = String.length s1 + String.length s2.
Proof. induction s1; simpl; congruence. Qed.

Lemma list_ascii_append s1 s2 :
  list_ascii_of_string (s1 +++ s2) = list_ascii_of_string s1 ++ list_ascii_of_string s2.
Proof. induction s1; simpl; congruence. Qed.

Lemma repeatChar_digits n :
  forallb JS.isDigit (list_ascii_of_string (JS.repeatChar n "0")) = true.
Proof. induction n; simpl; auto. Qed.

(** X29. The booking reference has one format: for every input,
    [toRefCode] returns the letters DRW followed by exactly six decimal
    digits. *)
Theorem toRefCode_format input :
  exists code,
    Booking.toRefCode input = "DRW" +++ code
    /\ String.length code = 6
    /\ forallb JS.isDigit (list_ascii_of_string code) = true.
Proof.
  unfold Booking.toRefCode. cbv zeta.
  set (hash := fold_left Booking.hashStep (list_ascii_of_string input) 0%N).
  set (n := N.to_nat (hash mod 1000000)%N).
  assert (n < 10 ^ 6) as Hn.
  { subst n. pose proof (N.mod_upper_bound hash 1000000 ltac:(discriminate)) as Hlt.
    replace (10 ^ 6) with (N.to_nat (10 ^ 6)%N)
      by (rewrite N2Nat.inj_pow; reflexivity).
    change (10 ^ 6)%N with 1000000%N. lia. }
  pose proof (toString_length n 6 ltac:(lia) Hn) as Hlen.
  exists (JS.padStart 6 "0" (JS.toString n)). split; [reflexivity|].
  unfold JS.padStart. split.
  - rewrite append_length, repeatChar_length. lia.
  - rewrite list_ascii_append, forallb_app, repeatChar_digits, toString_digits.
    reflexivity.
Qed.

(** X30. Confirming the same selection twice books once: after a
    confirmation that succeeded, a second one for the same selection, at
    whatever time, leaves the ledger as it is and sets the duplicate-slot
    error; the success flag stays set and the reference stays that of the
    first booking. *)
Theorem confirmBooking_twice doctor sel now isoNow now' isoNow' st appointments :
  Booking.selectedSlot st = Some sel ->
  (forall appt, In appt appointments ->
     slotKey appt <> (name doctor, Booking.sel_date sel, Booking.sel_startTime sel)) ->
  exists st1,
    Booking.confirmBooking (Some doctor) now isoNow st appointments
    = (st1, appointments ++ [Booking.newAppointment doctor sel now isoNow])
    /\ Booking.confirmBooking (Some doctor) now' isoNow' st1
         (appointments ++ [Booking.newAppointment doctor sel now isoNow])
       = ({| Booking.showDialog := Booking.showDialog st;
             Booking.selectedSlot := Some sel;
             Booking.bookingError := Some "This time slot is already booked";
             Booking.bookingSuccess := true;
             Booking.bookingRef :=
               Some (Booking.toRefCode
                       (id (Booking.newAppointment doctor sel now isoNow))) |},
          appointments ++ [Booking.newAppointment doctor sel now isoNow]).
Proof.
  intros Hsel Hfresh. unfold Booking.confirmBooking at 1. rewrite Hsel.
  rewrite bookAppointment_fresh by exact Hfresh.
  eexists. split; [reflexivity|].
  unfold Booking.confirmBooking. cbn [Booking.selectedSlot].
  rewrite bookAppointment_duplicate; [reflexivity|].
  exists (Booking.newAppointment doctor sel now isoNow). split.
  - apply in_or_app. right. left. reflexivity.
  - reflexivity.
Qed.

Lemma confirmBooking_twice_witness :
  exists st1,
    Booking.confirmBooking (Some mockSmith) mondayOneAM "2025-11-16T17:00:00.000Z"
      {| Booking.showDialog := true;
         Booking.selectedSlot :=
           Some {| Booking.sel_startTime := "9:00 AM"; Booking.sel_endTime := "9:30 AM";
                   Booking.sel_isAvailable := true; Booking.sel_isBooked := false;
                   Booking.sel_date := "2025-11-24"; Booking.sel_dayOfWeek := "Monday" |};
         Booking.bookingError := None; Booking.bookingSuccess := false;
         Booking.bookingRef := None |} []
    = (st1, [Booking.newAppointment mockSmith
               {| Booking.sel_startTime := "9:00 AM"; Booking.sel_endTime := "9:30 AM";
                  Booking.sel_isAvailable := true; Booking.sel_isBooked := false;
                  Booking.sel_date := "2025-11-24"; Booking.sel_dayOfWeek := "Monday" |}
               mondayOneAM "2025-11-16T17:00:00.000Z"]).
Proof.
  destruct (confirmBooking_twice mockSmith
              {| Booking.sel_startTime := "9:00 AM"; Booking.sel_endTime := "9:30 AM";
                 Booking.sel_isAvailable := true; Booking.sel_isBooked := false;
                 Booking.sel_date := "2025-11-24"; Booking.sel_dayOfWeek := "Monday" |}
              mondayOneAM "2025-11-16T17:00:00.000Z"
              1763312460000 "2025-11-16T17:01:00.000Z"
              {| Booking.showDialog := true;
                 Booking.selectedSlot :=
                   Some {| Booking.sel_startTime := "9:00 AM";
                           Booking.sel_endTime := "9:30 AM";
                           Booking.sel_isAvailable := true; Booking.sel_isBooked := false;
                           Booking.sel_date := "2025-11-24";
                           Booking.sel_dayOfWeek := "Monday" |};
                 Booking.bookingError := None; Booking.bookingSuccess := false;
                 Booking.bookingRef := None |} [] eq_refl)
    as (st1 & Hfirst & _).
  - intros appt [].
  - exists st1. exact Hfirst.
Defined.
